(** * BotFenix: signal scoring and the risk-managed position lifecycle

    A shallow embedding of the order-flow scalper of the repository:
    - [config.py]                              -> [Module Config]
    - [core/models.py]                         -> [Signal], [Position], [TradeRecord]
    - [analysis/book_imbalance.py]             -> [order_book_imbalance]
    - [analysis/market_stats.py]               -> [MarketStats] and its readers
    - [analysis/cvd_calc.py]                   -> [CVDCalculator]
    - [strategy/scalper_logic.py]              -> [generate_signal]
    - [core/portfolio.py] (GlobalPortfolio)    -> [open_position], [on_price_tick], ...

    Conventions of the embedding.
    - A Python [float] is an exact rational ([Q]); numeric results are compared
      with [==] ([Qeq]).  Rounding, infinities and overflow are out of the model;
      the one [nan] the modelled code can produce ([np.mean] of an empty
      slice) is kept, see [pyfloat].
    - A Python [int] is a [Z]; a [dict] keyed by symbol is a [gmap string _].
      Iteration order of a dict only feeds sums, which do not depend on it
      over the rationals.
    - A raised exception is [Raise]; a function that may raise returns a
      [result].  The methods of [GlobalPortfolio] take the portfolio and
      return the new one next to their Python return value.
    - Log lines are dropped; formatted reason texts are kept as the data
      they are formatted from ([ExitLabel], [SignalReason]). *)

From Stdlib Require Import QArith Qround Qabs Qminmax Lqa Lia ZArith String List Bool.
From stdpp Require Import gmap strings list fin_maps.

Local Open Scope Q_scope.

(** ** Python values *)

Definition Qlt_bool (x y : Q) : bool := negb (Qle_bool y x).

Notation "x <=? y" := (Qle_bool x y) : Q_scope.
Notation "x <? y" := (Qlt_bool x y) : Q_scope.
Notation "x >=? y" := (Qle_bool y x) (at level 70) : Q_scope.
Notation "x >? y" := (Qlt_bool y x) (at level 70) : Q_scope.

(** Exceptions. *)
Inductive result (A : Type) : Type :=
| Ok (a : A)
| Raise (exc : string).
Arguments Ok {A} a.
Arguments Raise {A} exc.

#[export] Instance result_ret : MRet result := fun A a => Ok a.
#[export] Instance result_bind : MBind result := fun A B k r =>
  match r with
  | Ok a => k a
  | Raise e => Raise e
  end.

(** [a / b] on floats. *)
Definition py_div (a b : Q) : result Q :=
  if Qeq_bool b 0 then Raise "ZeroDivisionError" else Ok (a / b).

(** [int(x)]: truncation toward zero. *)
Definition py_int (x : Q) : Z := Z.quot (Qnum x) (Zpos (Qden x)).

(** [sum(xs)]: left to right from 0. *)
Definition py_sum (xs : list Q) : Q := fold_left Qplus xs 0.

(** [l[:n]] and [l[n:]], with Python's reading of a negative bound. *)
Definition py_slice_to {A} (l : list A) (n : Z) : list A :=
  if (0 <=? n)%Z then take (Z.to_nat n) l
  else take (Z.to_nat (Z.of_nat (length l) + n)) l.

Definition py_slice_from {A} (l : list A) (n : Z) : list A :=
  if (0 <=? n)%Z then drop (Z.to_nat n) l
  else drop (Z.to_nat (Z.of_nat (length l) + n)) l.

(** [l[-k]] for [1 <= k <= len(l)]; the callers guard the range. *)
Definition py_index_back (l : list Q) (k : nat) : Q :=
  nth (length l - k) l 0.

(** A float that may be [nan]. *)
Inductive pyfloat : Type :=
| Num (q : Q)
| NaN.

(** [time.gmtime(ts).tm_yday]: day of the year, 1..366, of the UTC date. *)
Definition is_leap (y : Z) : bool :=
  ((y mod 4 =? 0) && (negb (y mod 100 =? 0) || (y mod 400 =? 0)))%Z.

Definition tm_yday (ts : Q) : Z :=
  (let days := Qfloor (ts / 86400) in
   let z := days + 719468 in
   let era := z / 146097 in
   let doe := z - era * 146097 in
   let yoe := (doe - doe / 1460 + doe / 36524 - doe / 146096) / 365 in
   let doy := doe - (365 * yoe + yoe / 4 - yoe / 100) in
   let y := yoe + era * 400 in
   if 306 <=? doy then doy - 306 + 1
   else doy + 59 + (if is_leap y then 1 else 0) + 1)%Z.

(** ** config.py *)

Module Config.
Definition INITIAL_BALANCE : Q := 50.
Definition LEVERAGE : Q := 20.
Definition BASE_RISK_PER_TRADE : Q := 3 # 100.
Definition HIGH_CONV_RISK_MULT : Q := 16 # 10.
Definition MAX_TOTAL_RISK_PCT_OPEN : Q := 10 # 100.
Definition DAILY_MAX_LOSS_PCT : Q := 6 # 100.
Definition DAILY_MAX_LOSS_ABS : Q := 3.
Definition MAX_TRADES_PER_DAY : Z := 35.
Definition MAX_TRADES_PER_HOUR_PER_SYMBOL : Z := 10.
Definition COOLDOWN_AFTER_TRADE_SEC : Q := 5.
Definition MIN_RR_VS_FEES : Q := 3.
Definition REWARD_RISK_BASE : Q := 25 # 10.
Definition SL_BUFFER_PCT : Q := 8 # 10000.
Definition FEE_MAKER : Q := 2 # 10000.
Definition FEE_TAKER : Q := 4 # 10000.

Definition TICK_SIZE : gmap string Q :=
  <["btcusdt"%string := 1 # 10]>
    (<["ethusdt"%string := 1 # 100]>
       (<["solusdt"%string := 1 # 100]> ∅)).

Definition SCORE_MIN_FOR_CANDIDATE : Q := 45.
Definition SCORE_SNIPER_MIN : Q := 90.
Definition SCORE_WEIGHT_CVD : Q := 35.
Definition SCORE_WEIGHT_IMBALANCE : Q := 45.
Definition SCORE_WEIGHT_VOLUME : Q := 15.
Definition IMBALANCE_SCORE_BASE : Q := 26.
Definition IMBALANCE_SCORE_MAX : Q := 40.
Definition CVD_SLOPE_THRESHOLD : Q := 10.
Definition MIN_VOL_NORM : Q := 3 # 10.
Definition BONUS_VOL_NORM : Q := 7 # 10.
Definition IMBALANCE_LONG_ENTRY : Q := 40 # 100.
Definition IMBALANCE_SHORT_ENTRY : Q := - (40 # 100).

Definition INVALID_IMB_ENABLE : bool := true.
Definition INVALID_IMB_THRESHOLD : Q := 95 # 100.
Definition INVALID_IMB_CONSEC_SAMPLES : Z := 4.
Definition INVALID_IMB_MIN_AGE_SEC : Q := 5.
Definition INVALID_IMB_MIN_ADVERSE_TICKS : Z := 3.

Definition CVD_SLOPE_STRONG_UP : Q := 100.
Definition CVD_SLOPE_WEAK_UP : Q := 30.
Definition CVD_SLOPE_STRONG_DOWN : Q := - 100.
Definition CVD_SLOPE_WEAK_DOWN : Q := - 30.
Definition CVD_CONTEXT_WINDOW_TICKS : nat := 60.

Definition ANTI_CHASE_ENABLE : bool := true.
Definition ANTI_CHASE_LOOKBACK_TICKS : nat := 5.
Definition ANTI_CHASE_MAX_MOVE_PCT : Q := 20 # 10000.

Definition VOL_WINDOW_SIZE : nat := 1000.
Definition VOL_RET_LOOKBACK : Z := 60.
Definition VOLATILITY_MIN : Q := 4 # 100000.
Definition VOLATILITY_MAX : Q := 250 # 100000.

Definition MAX_TRADE_LIFETIME_LOW_VOL_SEC : Q := 600.
Definition MAX_TRADE_LIFETIME_HIGH_VOL_SEC : Q := 300.
Definition VOL_NORM_HIGH_THRESHOLD : Q := 7 # 10.

Definition NO_PROGRESS_EXIT_ENABLE : bool := false.
Definition NO_PROGRESS_MIN_AGE_SEC : Q := 15.
Definition NO_PROGRESS_MIN_MFE_PCT : Q := 5 # 10000.
Definition NO_PROGRESS_GIVEBACK_PCT : Q := 25 # 100000.

Definition BREAKEVEN_TRIGGER_PCT : Q := 25 # 10000.
Definition TRAILING_STOP_PCT : Q := 10 # 10000.
Definition PARTIAL_TP_FRACTION : Q := 1 # 2.
Definition PARTIAL_TP_TRIGGER_PCT : Q := 25 # 10000.
End Config.
Import Config.

(** ** core/models.py *)

(** The text of [Signal.reason], as the values it is formatted from:
    [f"SCORE_{side}={score:.1f} ({score_class}) | CVD: .., Imb: .., Vol: .."]. *)
Record SignalReason : Type := {
  rs_side : string;
  rs_score : Q;
  rs_class : string;
  rs_cvd : Q;
  rs_imb : Q;
  rs_vol : Q
}.

Record Signal : Type := {
  sig_symbol : string;
  sig_side : string;
  sig_score : Q;
  sig_reason : SignalReason;
  sig_risk_mult : Q;
  sig_score_class : string
}.

(** [Position].  The last two fields are the attributes [open_position]
    attaches to the object after construction; [None] there stands for an
    attribute that is absent ([getattr] then falls back to its default). *)
Record Position : Type := {
  symbol : string;
  side : string;
  entry_price : Q;
  qty : Q;
  initial_qty : Q;
  sl_price : Q;
  tp_price : Q;
  entry_ts : Q;
  entry_imbalance : Q;
  risk_pct : Q;
  breakeven_done : bool;
  partial_taken : bool;
  max_favorable_price : option Q;
  min_favorable_price : option Q;
  exit_ts : option Q;
  realized_pnl : Q;
  fees_paid : Q;
  is_closed : bool;
  open_reason : SignalReason;
  entry_fee_total : Q;
  estimated_fees : Q;
  type_label : string;
  invalid_imb_count : Z;
  adverse_ticks : Z;
  min_adverse_price : option Q;
  max_adverse_price : option Q
}.

Definition set_qty (p : Position) (v : Q) : Position :=
  {| symbol := symbol p; side := side p; entry_price := entry_price p; qty := v;
     initial_qty := initial_qty p; sl_price := sl_price p; tp_price := tp_price p;
     entry_ts := entry_ts p; entry_imbalance := entry_imbalance p;
     risk_pct := risk_pct p; breakeven_done := breakeven_done p;
     partial_taken := partial_taken p; max_favorable_price := max_favorable_price p;
     min_favorable_price := min_favorable_price p; exit_ts := exit_ts p;
     realized_pnl := realized_pnl p; fees_paid := fees_paid p; is_closed := is_closed p;
     open_reason := open_reason p; entry_fee_total := entry_fee_total p;
     estimated_fees := estimated_fees p; type_label := type_label p;
     invalid_imb_count := invalid_imb_count p; adverse_ticks := adverse_ticks p;
     min_adverse_price := min_adverse_price p; max_adverse_price := max_adverse_price p |}.

Definition set_sl_price (p : Position) (v : Q) : Position :=
  {| symbol := symbol p; side := side p; entry_price := entry_price p; qty := qty p;
     initial_qty := initial_qty p; sl_price := v; tp_price := tp_price p;
     entry_ts := entry_ts p; entry_imbalance := entry_imbalance p;
     risk_pct := risk_pct p; breakeven_done := breakeven_done p;
     partial_taken := partial_taken p; max_favorable_price := max_favorable_price p;
     min_favorable_price := min_favorable_price p; exit_ts := exit_ts p;
     realized_pnl := realized_pnl p; fees_paid := fees_paid p; is_closed := is_closed p;
     open_reason := open_reason p; entry_fee_total := entry_fee_total p;
     estimated_fees := estimated_fees p; type_label := type_label p;
     invalid_imb_count := invalid_imb_count p; adverse_ticks := adverse_ticks p;
     min_adverse_price := min_adverse_price p; max_adverse_price := max_adverse_price p |}.

Definition set_breakeven_done (p : Position) (v : bool) : Position :=
  {| symbol := symbol p; side := side p; entry_price := entry_price p; qty := qty p;
     initial_qty := initial_qty p; sl_price := sl_price p; tp_price := tp_price p;
     entry_ts := entry_ts p; entry_imbalance := entry_imbalance p;
     risk_pct := risk_pct p; breakeven_done := v; partial_taken := partial_taken p;
     max_favorable_price := max_favorable_price p;
     min_favorable_price := min_favorable_price p; exit_ts := exit_ts p;
     realized_pnl := realized_pnl p; fees_paid := fees_paid p; is_closed := is_closed p;
     open_reason := open_reason p; entry_fee_total := entry_fee_total p;
     estimated_fees := estimated_fees p; type_label := type_label p;
     invalid_imb_count := invalid_imb_count p; adverse_ticks := adverse_ticks p;
     min_adverse_price := min_adverse_price p; max_adverse_price := max_adverse_price p |}.

Definition set_partial_taken (p : Position) (v : bool) : Position :=
  {| symbol := symbol p; side := side p; entry_price := entry_price p; qty := qty p;
     initial_qty := initial_qty p; sl_price := sl_price p; tp_price := tp_price p;
     entry_ts := entry_ts p; entry_imbalance := entry_imbalance p;
     risk_pct := risk_pct p; breakeven_done := breakeven_done p; partial_taken := v;
     max_favorable_price := max_favorable_price p;
     min_favorable_price := min_favorable_price p; exit_ts := exit_ts p;
     realized_pnl := realized_pnl p; fees_paid := fees_paid p; is_closed := is_closed p;
     open_reason := open_reason p; entry_fee_total := entry_fee_total p;
     estimated_fees := estimated_fees p; type_label := type_label p;
     invalid_imb_count := invalid_imb_count p; adverse_ticks := adverse_ticks p;
     min_adverse_price := min_adverse_price p; max_adverse_price := max_adverse_price p |}.

Definition set_max_favorable_price (p : Position) (v : option Q) : Position :=
  {| symbol := symbol p; side := side p; entry_price := entry_price p; qty := qty p;
     initial_qty := initial_qty p; sl_price := sl_price p; tp_price := tp_price p;
     entry_ts := entry_ts p; entry_imbalance := entry_imbalance p;
     risk_pct := risk_pct p; breakeven_done := breakeven_done p;
     partial_taken := partial_taken p; max_favorable_price := v;
     min_favorable_price := min_favorable_price p; exit_ts := exit_ts p;
     realized_pnl := realized_pnl p; fees_paid := fees_paid p; is_closed := is_closed p;
     open_reason := open_reason p; entry_fee_total := entry_fee_total p;
     estimated_fees := estimated_fees p; type_label := type_label p;
     invalid_imb_count := invalid_imb_count p; adverse_ticks := adverse_ticks p;
     min_adverse_price := min_adverse_price p; max_adverse_price := max_adverse_price p |}.

Definition set_min_favorable_price (p : Position) (v : option Q) : Position :=
  {| symbol := symbol p; side := side p; entry_price := entry_price p; qty := qty p;
     initial_qty := initial_qty p; sl_price := sl_price p; tp_price := tp_price p;
     entry_ts := entry_ts p; entry_imbalance := entry_imbalance p;
     risk_pct := risk_pct p; breakeven_done := breakeven_done p;
     partial_taken := partial_taken p; max_favorable_price := max_favorable_price p;
     min_favorable_price := v; exit_ts := exit_ts p; realized_pnl := realized_pnl p;
     fees_paid := fees_paid p; is_closed := is_closed p; open_reason := open_reason p;
     entry_fee_total := entry_fee_total p; estimated_fees := estimated_fees p;
     type_label := type_label p; invalid_imb_count := invalid_imb_count p;
     adverse_ticks := adverse_ticks p; min_adverse_price := min_adverse_price p;
     max_adverse_price := max_adverse_price p |}.

Definition set_entry_fee_total (p : Position) (v : Q) : Position :=
  {| symbol := symbol p; side := side p; entry_price := entry_price p; qty := qty p;
     initial_qty := initial_qty p; sl_price := sl_price p; tp_price := tp_price p;
     entry_ts := entry_ts p; entry_imbalance := entry_imbalance p;
     risk_pct := risk_pct p; breakeven_done := breakeven_done p;
     partial_taken := partial_taken p; max_favorable_price := max_favorable_price p;
     min_favorable_price := min_favorable_price p; exit_ts := exit_ts p;
     realized_pnl := realized_pnl p; fees_paid := fees_paid p; is_closed := is_closed p;
     open_reason := open_reason p; entry_fee_total := v;
     estimated_fees := estimated_fees p; type_label := type_label p;
     invalid_imb_count := invalid_imb_count p; adverse_ticks := adverse_ticks p;
     min_adverse_price := min_adverse_price p; max_adverse_price := max_adverse_price p |}.

Definition set_invalid_imb_count (p : Position) (v : Z) : Position :=
  {| symbol := symbol p; side := side p; entry_price := entry_price p; qty := qty p;
     initial_qty := initial_qty p; sl_price := sl_price p; tp_price := tp_price p;
     entry_ts := entry_ts p; entry_imbalance := entry_imbalance p;
     risk_pct := risk_pct p; breakeven_done := breakeven_done p;
     partial_taken := partial_taken p; max_favorable_price := max_favorable_price p;
     min_favorable_price := min_favorable_price p; exit_ts := exit_ts p;
     realized_pnl := realized_pnl p; fees_paid := fees_paid p; is_closed := is_closed p;
     open_reason := open_reason p; entry_fee_total := entry_fee_total p;
     estimated_fees := estimated_fees p; type_label := type_label p;
     invalid_imb_count := v; adverse_ticks := adverse_ticks p;
     min_adverse_price := min_adverse_price p; max_adverse_price := max_adverse_price p |}.

Definition set_adverse_ticks (p : Position) (v : Z) : Position :=
  {| symbol := symbol p; side := side p; entry_price := entry_price p; qty := qty p;
     initial_qty := initial_qty p; sl_price := sl_price p; tp_price := tp_price p;
     entry_ts := entry_ts p; entry_imbalance := entry_imbalance p;
     risk_pct := risk_pct p; breakeven_done := breakeven_done p;
     partial_taken := partial_taken p; max_favorable_price := max_favorable_price p;
     min_favorable_price := min_favorable_price p; exit_ts := exit_ts p;
     realized_pnl := realized_pnl p; fees_paid := fees_paid p; is_closed := is_closed p;
     open_reason := open_reason p; entry_fee_total := entry_fee_total p;
     estimated_fees := estimated_fees p; type_label := type_label p;
     invalid_imb_count := invalid_imb_count p; adverse_ticks := v;
     min_adverse_price := min_adverse_price p; max_adverse_price := max_adverse_price p |}.

Definition set_min_adverse_price (p : Position) (v : option Q) : Position :=
  {| symbol := symbol p; side := side p; entry_price := entry_price p; qty := qty p;
     initial_qty := initial_qty p; sl_price := sl_price p; tp_price := tp_price p;
     entry_ts := entry_ts p; entry_imbalance := entry_imbalance p;
     risk_pct := risk_pct p; breakeven_done := breakeven_done p;
     partial_taken := partial_taken p; max_favorable_price := max_favorable_price p;
     min_favorable_price := min_favorable_price p; exit_ts := exit_ts p;
     realized_pnl := realized_pnl p; fees_paid := fees_paid p; is_closed := is_closed p;
     open_reason := open_reason p; entry_fee_total := entry_fee_total p;
     estimated_fees := estimated_fees p; type_label := type_label p;
     invalid_imb_count := invalid_imb_count p; adverse_ticks := adverse_ticks p;
     min_adverse_price := v; max_adverse_price := max_adverse_price p |}.

Definition set_max_adverse_price (p : Position) (v : option Q) : Position :=
  {| symbol := symbol p; side := side p; entry_price := entry_price p; qty := qty p;
     initial_qty := initial_qty p; sl_price := sl_price p; tp_price := tp_price p;
     entry_ts := entry_ts p; entry_imbalance := entry_imbalance p;
     risk_pct := risk_pct p; breakeven_done := breakeven_done p;
     partial_taken := partial_taken p; max_favorable_price := max_favorable_price p;
     min_favorable_price := min_favorable_price p; exit_ts := exit_ts p;
     realized_pnl := realized_pnl p; fees_paid := fees_paid p; is_closed := is_closed p;
     open_reason := open_reason p; entry_fee_total := entry_fee_total p;
     estimated_fees := estimated_fees p; type_label := type_label p;
     invalid_imb_count := invalid_imb_count p; adverse_ticks := adverse_ticks p;
     min_adverse_price := min_adverse_price p; max_adverse_price := v |}.

(** [Position.update_max_favorable]. *)
Definition update_max_favorable (pos : Position) (last_price : Q) : Position :=
  match max_favorable_price pos with
  | None => set_max_favorable_price pos (Some last_price)
  | Some best =>
      if String.eqb (side pos) "LONG" then
        if last_price >? best then set_max_favorable_price pos (Some last_price) else pos
      else
        if last_price <? best then set_max_favorable_price pos (Some last_price) else pos
  end.

(** [TradeEvent]: one aggressive trade of the feed. *)
Record TradeEvent : Type := {
  te_ts : Q;
  te_price : Q;
  te_qty : Q;
  te_is_buy : bool
}.

(** The label of a close.  [INVALID_IMB] carries the values of the text
    [f"INVALID_IMB | side={side} Imb_smooth={imbalance:.2f} age={age:.1f}s adv_ticks={n}"]. *)
Inductive ExitLabel : Type :=
| TP1_FAST
| SL
| TP
| INVALID_IMB (side : string) (imbalance age : Q) (adv_ticks : Z)
| NO_PROGRESS
| TIME_STOP.

(** [TradeRecord]; [tr_reason] is [f"{label} | {pos.open_reason}"]. *)
Record TradeRecord : Type := {
  tr_symbol : string;
  tr_side : string;
  tr_entry_price : Q;
  tr_exit_price : Q;
  tr_qty : Q;
  tr_sl_price : Q;
  tr_tp_price : Q;
  tr_entry_ts : Q;
  tr_exit_ts : Q;
  tr_realized_pnl : Q;
  tr_fees_paid : Q;
  tr_reason : ExitLabel * SignalReason
}.

(** ** analysis/book_imbalance.py *)

Definition py_not {A} (l : list A) : bool :=
  match l with [] => true | _ => false end.

Definition order_book_imbalance (bids asks : list (Q * Q)) (depth_levels : Z) : Q :=
  if py_not bids || py_not asks then 0
  else
    let top_bids := py_slice_to bids depth_levels in
    let top_asks := py_slice_to asks depth_levels in
    let bid_vol := py_sum (map snd top_bids) in
    let ask_vol := py_sum (map snd top_asks) in
    let total := bid_vol + ask_vol in
    if total <=? 0 then 0
    else (bid_vol - ask_vol) / total.

(** ** analysis/market_stats.py *)

(** [deque(maxlen=n).append(x)]. *)
Definition deque_append (maxlen : nat) (d : list Q) (x : Q) : list Q :=
  let d' := d ++ [x] in drop (length d' - maxlen) d'.

Record MarketStats : Type := {
  window_size : nat;
  prices : list Q;
  cvd_history : list Q;
  imbalances : list Q;
  returns : list Q;
  volumes : list Q;
  cvd_values : list Q
}.

Definition MarketStats_init (window_size : nat) : MarketStats :=
  {| window_size := window_size; prices := []; cvd_history := [];
     imbalances := []; returns := []; volumes := []; cvd_values := [] |}.

Definition update (st : MarketStats) (price cvd imbalance volume : Q) : MarketStats :=
  let n := window_size st in
  let returns' :=
    if py_not (prices st) then returns st
    else
      let prev := List.last (prices st) 0 in
      if prev >? 0 then deque_append n (returns st) ((price - prev) / prev)
      else returns st in
  {| window_size := n;
     prices := deque_append n (prices st) price;
     cvd_history := deque_append n (cvd_history st) cvd;
     imbalances := deque_append n (imbalances st) imbalance;
     returns := returns';
     volumes := deque_append n (volumes st) volume;
     cvd_values := deque_append CVD_CONTEXT_WINDOW_TICKS (cvd_values st) cvd |}.

Definition py_len {A} (l : list A) : Z := Z.of_nat (length l).

(** [np.mean]: [nan] on an empty array. *)
Definition np_mean (xs : list Q) : pyfloat :=
  if py_not xs then NaN else Num (py_sum xs / inject_Z (py_len xs)).

Definition np_min (xs : list Q) : Q :=
  match xs with [] => 0 | x :: r => fold_left Qmin r x end.

Definition np_max (xs : list Q) : Q :=
  match xs with [] => 0 | x :: r => fold_left Qmax r x end.

(** [np.clip(x, lo, hi)]. *)
Definition np_clip (x lo hi : Q) : Q := Qmin (Qmax x lo) hi.

Definition get_smooth_imbalance (st : MarketStats) (window : Z) : option pyfloat :=
  if py_not (imbalances st) then None
  else if (py_len (imbalances st) <? window)%Z then
    Some (Num (List.last (imbalances st) 0))
  else
    let recent := py_slice_from (imbalances st) (- window) in
    Some (np_mean recent).

(** [lookback] is a count here: both callers pass the literal 7. *)
Definition get_cvd_slope (st : MarketStats) (lookback : nat) : option Q :=
  if (length (cvd_history st) <=? lookback)%nat then None
  else Some (py_index_back (cvd_history st) 1
             - py_index_back (cvd_history st) (1 + lookback)).

Definition get_last_cvd (st : MarketStats) : option Q :=
  if py_not (cvd_history st) then None
  else Some (List.last (cvd_history st) 0).

Definition get_volume_normalized (st : MarketStats) (lookback : Z) : option Q :=
  if (py_len (volumes st) <? 20)%Z then None
  else
    let recent :=
      if (lookback <=? py_len (volumes st))%Z
      then py_slice_from (volumes st) (- lookback)
      else volumes st in
    if (py_len recent <? 2)%Z then None
    else
      let current_vol := List.last recent 0 in
      let min_vol := np_min recent in
      let max_vol := np_max recent in
      if max_vol <=? min_vol then Some (1 # 2)
      else
        let normalized := (current_vol - min_vol) / (max_vol - min_vol) in
        Some (np_clip normalized 0 1).

(** ** analysis/cvd_calc.py *)

(** [deque(maxlen=n).append((ts, cvd))]. *)
Definition deque_append_pair (maxlen : nat) (d : list (Q * Q)) (x : Q * Q)
    : list (Q * Q) :=
  let d' := d ++ [x] in drop (length d' - maxlen) d'.

(** [CVDCalculator]; [_history] holds the pairs [(ts, cvd)]. *)
Record CVDCalculator : Type := {
  cvd_maxlen : nat;
  _history : list (Q * Q);
  _cvd : Q
}.

Definition CVDCalculator_init (maxlen : nat) : CVDCalculator :=
  {| cvd_maxlen := maxlen; _history := []; _cvd := 0 |}.

Definition current (c : CVDCalculator) : Q := _cvd c.

(** The loop of [update_from_trades]: [delta] after all the trades. *)
Definition trades_delta (trades : list TradeEvent) : Q :=
  fold_left (fun delta t => if te_is_buy t then delta + te_qty t else delta - te_qty t)
            trades 0.

(** [clock] is the value [time.time()] returns during the call. *)
Definition update_from_trades (c : CVDCalculator) (clock : Q) (trades : list TradeEvent)
    : Q * CVDCalculator :=
  let delta := trades_delta trades in
  let cvd := _cvd c + delta in
  let ts := match last trades with
            | None => clock
            | Some t => te_ts t
            end in
  (cvd,
   {| cvd_maxlen := cvd_maxlen c;
      _history := deque_append_pair (cvd_maxlen c) (_history c) (ts, cvd);
      _cvd := cvd |}).

(** [min(vals)] and [max(vals)] of a non-empty list: the first extreme
    element. *)
Definition py_min (xs : list Q) : Q :=
  match xs with [] => 0 | x :: r => fold_left Qmin r x end.

Definition py_max (xs : list Q) : Q :=
  match xs with [] => 0 | x :: r => fold_left Qmax r x end.

(** [[cvd for ts, cvd in self._history if ts >= now - window_sec]] *)
Definition recent_vals (c : CVDCalculator) (clock : Q) (window_sec : Z) (now : option Q)
    : list Q :=
  let now := default clock now in
  map snd (List.filter (fun e => fst e >=? now - inject_Z window_sec) (_history c)).

Definition get_recent_min (c : CVDCalculator) (clock : Q) (window_sec : Z)
    (now : option Q) : option Q :=
  let vals := recent_vals c clock window_sec now in
  if py_not vals then None else Some (py_min vals).

Definition get_recent_max (c : CVDCalculator) (clock : Q) (window_sec : Z)
    (now : option Q) : option Q :=
  let vals := recent_vals c clock window_sec now in
  if py_not vals then None else Some (py_max vals).

Section Scalper.

(** [np.std(tail, ddof=1)], the Bessel-corrected standard deviation.  It is
    a square root, so it is not computed here: the scorer only compares
    it with two thresholds. *)
Variable np_std_ddof1 : list Q -> Q.

Definition get_volatility (st : MarketStats) (n_points : Z) : option Q :=
  if (py_len (returns st) <? n_points)%Z then None
  else
    let tail := py_slice_from (returns st) (- n_points) in
    if (py_len tail <? 2)%Z then None
    else Some (np_std_ddof1 tail).

(** ** strategy/scalper_logic.py *)

Inductive CvdClass : Type :=
| CVD_STRONG_BULLISH
| CVD_WEAK_BULLISH
| CVD_STRONG_BEARISH
| CVD_WEAK_BEARISH
| CVD_NEUTRAL.

Definition classify_cvd (cvd_slope : Q) : CvdClass :=
  if cvd_slope >=? CVD_SLOPE_STRONG_UP then CVD_STRONG_BULLISH
  else if cvd_slope >=? CVD_SLOPE_WEAK_UP then CVD_WEAK_BULLISH
  else if cvd_slope <=? CVD_SLOPE_STRONG_DOWN then CVD_STRONG_BEARISH
  else if cvd_slope <=? CVD_SLOPE_WEAK_DOWN then CVD_WEAK_BEARISH
  else CVD_NEUTRAL.

(** Every comparison with [nan] is false, so [nan] scores like no data. *)
Definition _imbalance_score (imbalance : option pyfloat) : Q * Q :=
  match imbalance with
  | None | Some NaN => (0, 0)
  | Some (Num imbalance) =>
      let long_score :=
        if (imbalance >? 0) && (IMBALANCE_LONG_ENTRY <? 1) then
          if imbalance >? IMBALANCE_LONG_ENTRY then
            let frac := (imbalance - IMBALANCE_LONG_ENTRY)
                        / Qmax (1 # 1000000000) (1 - IMBALANCE_LONG_ENTRY) in
            let frac := Qmin 1 (Qmax 0 frac) in
            IMBALANCE_SCORE_BASE + frac * (IMBALANCE_SCORE_MAX - IMBALANCE_SCORE_BASE)
          else 0
        else 0 in
      let short_score :=
        if (imbalance <? 0) && (IMBALANCE_SHORT_ENTRY <? 0) then
          if imbalance <? IMBALANCE_SHORT_ENTRY then
            let denom := IMBALANCE_SHORT_ENTRY - (- (1)) in
            let frac := (IMBALANCE_SHORT_ENTRY - imbalance)
                        / Qmax (1 # 1000000000) denom in
            let frac := Qmin 1 (Qmax 0 frac) in
            IMBALANCE_SCORE_BASE + frac * (IMBALANCE_SCORE_MAX - IMBALANCE_SCORE_BASE)
          else 0
        else 0 in
      (long_score, short_score)
  end.

Definition _is_history_insufficient (stats : MarketStats) : bool :=
  (py_len (prices stats) <? 50)%Z || (py_len (cvd_history stats) <? 50)%Z.

Definition _calculate_cvd_score (cvd_slope : Q) : Q * Q :=
  let cvd_class := classify_cvd cvd_slope in
  let '(long_score, short_score) :=
    match cvd_class with
    | CVD_STRONG_BULLISH => (100, 0)
    | CVD_WEAK_BULLISH => (60, 0)
    | CVD_STRONG_BEARISH => (0, 100)
    | CVD_WEAK_BEARISH => (0, 60)
    | CVD_NEUTRAL => (0, 0)
    end in
  if Qabs cvd_slope <? CVD_SLOPE_THRESHOLD
  then (long_score * (1 # 2), short_score * (1 # 2))
  else (long_score, short_score).

Definition _calculate_imbalance_score (imbalance : pyfloat) : Q * Q :=
  let '(long_score, short_score) := _imbalance_score (Some imbalance) in
  let norm_long :=
    if IMBALANCE_SCORE_MAX >? 0 then (long_score / IMBALANCE_SCORE_MAX) * 100 else 0 in
  let norm_short :=
    if IMBALANCE_SCORE_MAX >? 0 then (short_score / IMBALANCE_SCORE_MAX) * 100 else 0 in
  (norm_long, norm_short).

Definition _calculate_volume_score (vol_norm vol : Q) : Q :=
  if negb ((VOLATILITY_MIN <? vol) && (vol <? VOLATILITY_MAX)) then 0
  else if vol_norm <? MIN_VOL_NORM then 0
  else if vol_norm >? BONUS_VOL_NORM then 100
  else
    let score := ((vol_norm - MIN_VOL_NORM) / (BONUS_VOL_NORM - MIN_VOL_NORM)) * 100 in
    Qmax 0 (Qmin 100 score).

(** Steps 3 and 4 of [generate_signal]: the component scores and the two
    weighted scores [(score_long, score_short)]. *)
Record Scores : Type := {
  cvd_long : Q; cvd_short : Q;
  imb_long : Q; imb_short : Q;
  vol_score : Q;
  score_long : Q; score_short : Q
}.

Definition weighted_scores (vol : Q) (smooth_imb : pyfloat) (cvd_slope vol_norm : Q)
    : Scores :=
  let '(cvd_long, cvd_short) := _calculate_cvd_score cvd_slope in
  let '(imb_long, imb_short) := _calculate_imbalance_score smooth_imb in
  let vol_score := _calculate_volume_score vol_norm vol in
  let total_weight := SCORE_WEIGHT_CVD + SCORE_WEIGHT_IMBALANCE + SCORE_WEIGHT_VOLUME in
  let score_long := (cvd_long * SCORE_WEIGHT_CVD
                     + imb_long * SCORE_WEIGHT_IMBALANCE
                     + vol_score * SCORE_WEIGHT_VOLUME) / total_weight in
  let score_short := (cvd_short * SCORE_WEIGHT_CVD
                      + imb_short * SCORE_WEIGHT_IMBALANCE
                      + vol_score * SCORE_WEIGHT_VOLUME) / total_weight in
  {| cvd_long := cvd_long; cvd_short := cvd_short;
     imb_long := imb_long; imb_short := imb_short;
     vol_score := vol_score;
     score_long := score_long; score_short := score_short |}.

(** Step 5: [(final_side, final_score)], [None] for no side. *)
Definition decision_logic (score_long score_short : Q) : option (string * Q) :=
  if (score_long >=? SCORE_MIN_FOR_CANDIDATE) && (score_long >? score_short)
  then Some ("LONG"%string, score_long)
  else if (score_short >=? SCORE_MIN_FOR_CANDIDATE) && (score_short >? score_long)
  then Some ("SHORT"%string, score_short)
  else None.

(** The filters of step 2 after the data checks: [Ok true] when the
    anti-chase filter stops the evaluation. *)
Definition anti_chase (stats : MarketStats) (price : Q) : result bool :=
  if ANTI_CHASE_ENABLE && (ANTI_CHASE_LOOKBACK_TICKS <? length (prices stats))%nat then
    let price_past := py_index_back (prices stats) ANTI_CHASE_LOOKBACK_TICKS in
    pct_move ← py_div (Qabs (price - price_past)) price_past;
    Ok (pct_move >? ANTI_CHASE_MAX_MOVE_PCT)
  else Ok false.

Definition generate_signal (symbol : string) (stats : MarketStats)
    (ts price imbalance : Q) : result (option Signal) :=
  let vol := get_volatility stats VOL_RET_LOOKBACK in
  let smooth_imb := get_smooth_imbalance stats 3 in
  let cvd_slope := get_cvd_slope stats 7 in
  let vol_norm := get_volume_normalized stats 100 in
  match vol, smooth_imb, cvd_slope, vol_norm with
  | Some vol, Some smooth_imb, Some cvd_slope, Some vol_norm =>
      if _is_history_insufficient stats then Ok None
      else
        chased ← anti_chase stats price;
        if chased : bool then Ok None
        else
          let sc := weighted_scores vol smooth_imb cvd_slope vol_norm in
          match decision_logic (score_long sc) (score_short sc) with
          | Some (final_side, final_score) =>
              let '(risk_mult, score_class) :=
                if final_score >=? SCORE_SNIPER_MIN
                then (HIGH_CONV_RISK_MULT, "SNIPER"%string)
                else (1, "STANDARD"%string) in
              let long := String.eqb final_side "LONG" in
              let reason_str :=
                {| rs_side := final_side; rs_score := final_score;
                   rs_class := score_class;
                   rs_cvd := if long then cvd_long sc else cvd_short sc;
                   rs_imb := if long then imb_long sc else imb_short sc;
                   rs_vol := vol_score sc |} in
              Ok (Some {| sig_symbol := symbol; sig_side := final_side;
                          sig_score := final_score; sig_reason := reason_str;
                          sig_risk_mult := risk_mult;
                          sig_score_class := score_class |})
          | None => Ok None
          end
  | _, _, _, _ => Ok None
  end.

End Scalper.

(** ** core/portfolio.py *)

Record GlobalPortfolio : Type := {
  balance : Q;
  equity : Q;
  fee_maker : Q;
  fee_taker : Q;
  positions : gmap string Position;
  trade_history : list TradeRecord;
  _current_day : option Z;
  _start_of_day_balance : Q;
  _trades_today : Z;
  last_exit_ts : gmap string Q;
  trades_last_hour : gmap string (list Q)
}.

Definition set_balance (s : GlobalPortfolio) (v : Q) : GlobalPortfolio :=
  {| balance := v; equity := equity s; fee_maker := fee_maker s;
     fee_taker := fee_taker s; positions := positions s;
     trade_history := trade_history s; _current_day := _current_day s;
     _start_of_day_balance := _start_of_day_balance s; _trades_today := _trades_today s;
     last_exit_ts := last_exit_ts s; trades_last_hour := trades_last_hour s |}.

Definition set_equity (s : GlobalPortfolio) (v : Q) : GlobalPortfolio :=
  {| balance := balance s; equity := v; fee_maker := fee_maker s;
     fee_taker := fee_taker s; positions := positions s;
     trade_history := trade_history s; _current_day := _current_day s;
     _start_of_day_balance := _start_of_day_balance s; _trades_today := _trades_today s;
     last_exit_ts := last_exit_ts s; trades_last_hour := trades_last_hour s |}.

Definition set_positions (s : GlobalPortfolio) (v : gmap string Position)
    : GlobalPortfolio :=
  {| balance := balance s; equity := equity s; fee_maker := fee_maker s;
     fee_taker := fee_taker s; positions := v; trade_history := trade_history s;
     _current_day := _current_day s; _start_of_day_balance := _start_of_day_balance s;
     _trades_today := _trades_today s; last_exit_ts := last_exit_ts s;
     trades_last_hour := trades_last_hour s |}.

Definition set_trade_history (s : GlobalPortfolio) (v : list TradeRecord)
    : GlobalPortfolio :=
  {| balance := balance s; equity := equity s; fee_maker := fee_maker s;
     fee_taker := fee_taker s; positions := positions s; trade_history := v;
     _current_day := _current_day s; _start_of_day_balance := _start_of_day_balance s;
     _trades_today := _trades_today s; last_exit_ts := last_exit_ts s;
     trades_last_hour := trades_last_hour s |}.

Definition set_trades_today (s : GlobalPortfolio) (v : Z) : GlobalPortfolio :=
  {| balance := balance s; equity := equity s; fee_maker := fee_maker s;
     fee_taker := fee_taker s; positions := positions s;
     trade_history := trade_history s; _current_day := _current_day s;
     _start_of_day_balance := _start_of_day_balance s; _trades_today := v;
     last_exit_ts := last_exit_ts s; trades_last_hour := trades_last_hour s |}.

Definition set_last_exit_ts (s : GlobalPortfolio) (v : gmap string Q) : GlobalPortfolio :=
  {| balance := balance s; equity := equity s; fee_maker := fee_maker s;
     fee_taker := fee_taker s; positions := positions s;
     trade_history := trade_history s; _current_day := _current_day s;
     _start_of_day_balance := _start_of_day_balance s; _trades_today := _trades_today s;
     last_exit_ts := v; trades_last_hour := trades_last_hour s |}.

Definition set_trades_last_hour (s : GlobalPortfolio) (v : gmap string (list Q))
    : GlobalPortfolio :=
  {| balance := balance s; equity := equity s; fee_maker := fee_maker s;
     fee_taker := fee_taker s; positions := positions s;
     trade_history := trade_history s; _current_day := _current_day s;
     _start_of_day_balance := _start_of_day_balance s; _trades_today := _trades_today s;
     last_exit_ts := last_exit_ts s; trades_last_hour := v |}.

Definition GlobalPortfolio_init : GlobalPortfolio :=
  {| balance := INITIAL_BALANCE; equity := INITIAL_BALANCE;
     fee_maker := FEE_MAKER; fee_taker := FEE_TAKER;
     positions := ∅; trade_history := [];
     _current_day := None; _start_of_day_balance := INITIAL_BALANCE;
     _trades_today := 0;
     last_exit_ts := ∅; trades_last_hour := ∅ |}.

(** *** risk/day utilities *)

Definition new_day (s : GlobalPortfolio) (ts : Q) : bool :=
  match _current_day s with
  | None => true
  | Some d => negb (tm_yday ts =? d)%Z
  end.

Definition _reset_if_new_day (s : GlobalPortfolio) (ts : Q) : GlobalPortfolio :=
  let day := tm_yday ts in
  if new_day s ts then
    {| balance := balance s; equity := equity s;
       fee_maker := fee_maker s; fee_taker := fee_taker s;
       positions := positions s; trade_history := trade_history s;
       _current_day := Some day;
       _start_of_day_balance := balance s;
       _trades_today := 0;
       last_exit_ts := last_exit_ts s; trades_last_hour := trades_last_hour s |}
  else s.

Definition _daily_drawdown_pct (s : GlobalPortfolio) : Q :=
  if _start_of_day_balance s <=? 0 then 0
  else (balance s - _start_of_day_balance s) / _start_of_day_balance s.

Definition _daily_drawdown_abs (s : GlobalPortfolio) : Q :=
  balance s - _start_of_day_balance s.

Definition _total_risk_pct_open (s : GlobalPortfolio) : Q :=
  py_sum (map (fun kp => risk_pct (snd kp)) (map_to_list (positions s))).

Definition _max_new_risk_pct_allowed (s : GlobalPortfolio) : Q :=
  Qmax 0 (MAX_TOTAL_RISK_PCT_OPEN - _total_risk_pct_open s).

(** *** queries *)

Definition has_open_position (s : GlobalPortfolio) (symbol : string) : bool :=
  bool_decide (is_Some (positions s !! symbol)).

Definition get_position (s : GlobalPortfolio) (symbol : string) : option Position :=
  positions s !! symbol.

(** *** opening positions *)

(** The quantity before the margin check: [risk_amount / sl_dist]. *)
Definition risk_qty (s : GlobalPortfolio) (entry_price sl_price risk_pct : Q) : Q :=
  let sl_dist := Qabs (entry_price - sl_price) in
  let risk_amount := balance s * risk_pct in
  risk_amount / sl_dist.

Definition _calc_qty_from_risk (s : GlobalPortfolio) (entry_price sl_price risk_pct : Q)
    : result (option Q) :=
  let sl_dist := Qabs (entry_price - sl_price) in
  if sl_dist <=? 0 then Ok None
  else
    let qty := risk_qty s entry_price sl_price risk_pct in
    let notional := entry_price * qty in
    let margin_required := notional / LEVERAGE in
    if margin_required >? balance s then
      scale ← py_div (balance s * LEVERAGE * (9 # 10)) notional;
      Ok (Some (qty * scale))
    else Ok (Some qty).

Definition _can_open_trade (s : GlobalPortfolio) (ts risk_pct : Q)
    : bool * GlobalPortfolio :=
  let s := _reset_if_new_day s ts in
  let dd := _daily_drawdown_pct s in
  if dd <=? - DAILY_MAX_LOSS_PCT then (false, s)
  else
    let dd_abs := _daily_drawdown_abs s in
    if dd_abs <=? - DAILY_MAX_LOSS_ABS then (false, s)
    else if (_trades_today s >=? MAX_TRADES_PER_DAY)%Z then (false, s)
    else
      let max_new_risk := _max_new_risk_pct_allowed s in
      if risk_pct >? max_new_risk + (1 # 1000000000) then (false, s)
      else (true, s).

(** [[t for t in trades_hour if ts - t < 3600]] *)
Definition last_hour (ts : Q) (trades_hour : list Q) : list Q :=
  List.filter (fun t => ts - t <? 3600) trades_hour.

Definition open_position (s : GlobalPortfolio) (symbol : string) (ts price : Q)
    (signal : Signal) (recent_extreme_price entry_imbalance : Q) (side : string)
    : result (option Position * GlobalPortfolio) :=
  match positions s !! symbol with
  | Some _ => Ok (None, s)
  | None =>
  let last_exit := default 0 (last_exit_ts s !! symbol) in
  if ts - last_exit <? COOLDOWN_AFTER_TRADE_SEC then Ok (None, s)
  else
  let trades_hour := default [] (trades_last_hour s !! symbol) in
  let trades_hour := last_hour ts trades_hour in
  let s := set_trades_last_hour s (<[symbol := trades_hour]> (trades_last_hour s)) in
  if (py_len trades_hour >=? MAX_TRADES_PER_HOUR_PER_SYMBOL)%Z then Ok (None, s)
  else
  let base := BASE_RISK_PER_TRADE in
  let risk_pct := base * sig_risk_mult signal in
  let max_new_risk := _max_new_risk_pct_allowed s in
  if max_new_risk <=? 0 then Ok (None, s)
  else
  let risk_pct := if risk_pct >? max_new_risk then max_new_risk else risk_pct in
  let '(can_open, s) := _can_open_trade s ts risk_pct in
  if negb can_open then Ok (None, s)
  else
  let long := String.eqb side "LONG" in
  let sl_price :=
    if long then recent_extreme_price * (1 - SL_BUFFER_PCT)
    else recent_extreme_price * (1 + SL_BUFFER_PCT) in
  qty ← _calc_qty_from_risk s price sl_price risk_pct;
  match qty with
  | None => Ok (None, s)
  | Some qty =>
  if qty <=? 0 then Ok (None, s)
  else
  let tp_price :=
    if long then price + (price - sl_price) * REWARD_RISK_BASE
    else price - (sl_price - price) * REWARD_RISK_BASE in
  let estimated_fees := (price * qty * fee_maker s) + (tp_price * qty * fee_taker s) in
  let tp_profit_gross := Qabs (tp_price - price) * qty in
  if tp_profit_gross <? estimated_fees * MIN_RR_VS_FEES then Ok (None, s)
  else
  let entry_fee := price * qty * fee_maker s in
  let pos :=
    {| symbol := symbol; side := side; entry_price := price;
       qty := qty; initial_qty := qty;
       sl_price := sl_price; tp_price := tp_price;
       entry_ts := ts; entry_imbalance := entry_imbalance;
       risk_pct := risk_pct;
       breakeven_done := false; partial_taken := false;
       max_favorable_price := Some price; min_favorable_price := Some price;
       exit_ts := None; realized_pnl := 0; fees_paid := 0; is_closed := false;
       open_reason := sig_reason signal;
       entry_fee_total := entry_fee;
       estimated_fees := estimated_fees;
       type_label := if String.eqb (sig_score_class signal) EmptyString then "STANDARD"
                     else sig_score_class signal;
       invalid_imb_count := 0; adverse_ticks := 0;
       min_adverse_price := Some price; max_adverse_price := Some price |} in
  let s := set_balance s (balance s - entry_fee) in
  let s := set_positions s (<[symbol := pos]> (positions s)) in
  Ok (Some pos, s)
  end
  end.

(** *** active management: breakeven / trailing / equity *)

Definition is_long (pos : Position) : bool := String.eqb (side pos) "LONG".

(** [max(a, price)] and [min(a, price)] where [a] may be [None]. *)
Definition py_max_opt (a : option Q) (b : Q) : result Q :=
  match a with
  | Some a => Ok (Qmax a b)
  | None => Raise "TypeError"
  end.

Definition py_min_opt (a : option Q) (b : Q) : result Q :=
  match a with
  | Some a => Ok (Qmin a b)
  | None => Raise "TypeError"
  end.

(** The breakeven and trailing blocks of [_update_trade_management]. *)
Definition breakeven (pos : Position) (move : Q) : Position :=
  if negb (breakeven_done pos) then
    let trigger_abs := entry_price pos * BREAKEVEN_TRIGGER_PCT in
    if move >=? trigger_abs
    then set_breakeven_done (set_sl_price pos (entry_price pos)) true
    else pos
  else pos.

Definition trailing (pos : Position) (price : Q) : Position :=
  if breakeven_done pos then
    if is_long pos then
      let trail_sl := price * (1 - TRAILING_STOP_PCT) in
      if trail_sl >? sl_price pos then set_sl_price pos trail_sl else pos
    else
      let trail_sl := price * (1 + TRAILING_STOP_PCT) in
      if trail_sl <? sl_price pos then set_sl_price pos trail_sl else pos
  else pos.

Definition _update_trade_management (pos : Position) (price : Q) : result Position :=
  let move := if is_long pos then price - entry_price pos
              else entry_price pos - price in
  pos ←
    (if is_long pos then
       mfp ← py_max_opt (max_favorable_price pos) price;
       let pos := set_max_favorable_price pos (Some mfp) in
       let mae := Qmin (default (entry_price pos) (min_adverse_price pos)) price in
       Ok (set_min_adverse_price pos (Some mae))
     else
       mfp ← py_min_opt (min_favorable_price pos) price;
       let pos := set_min_favorable_price pos (Some mfp) in
       let mae := Qmax (default (entry_price pos) (max_adverse_price pos)) price in
       Ok (set_max_adverse_price pos (Some mae)));
  let pos := breakeven pos move in
  Ok (trailing pos price).

Definition position_value (fee_taker : Q) (pos : Position) (price : Q) : Q :=
  let unreal := if is_long pos then (price - entry_price pos) * qty pos
                else (entry_price pos - price) * qty pos in
  let exit_fee_est := price * qty pos * fee_taker in
  unreal - exit_fee_est.

Definition _recompute_equity (s : GlobalPortfolio) (prices : gmap string Q)
    : GlobalPortfolio :=
  let eq :=
    map_fold (fun symbol pos eq =>
                match prices !! symbol with
                | None => eq
                | Some price => eq + position_value (fee_taker s) pos price
                end)
             (balance s) (positions s) in
  set_equity s eq.

Definition _update_adverse_ticks (pos : Position) (price : Q) : Position :=
  let tick := default 0 (TICK_SIZE !! symbol pos) in
  if tick <=? 0 then set_adverse_ticks pos 0
  else
    let move := if is_long pos then Qmax 0 (entry_price pos - price)
                else Qmax 0 (price - entry_price pos) in
    set_adverse_ticks pos (py_int (move / tick)).

Definition _check_invalid_imb_close (pos : Position) (imbalance : option Q) (now_ts : Q)
    : Position * option ExitLabel :=
  match imbalance with
  | None => (set_invalid_imb_count pos 0, None)
  | Some imbalance =>
      if negb INVALID_IMB_ENABLE then (set_invalid_imb_count pos 0, None)
      else
        let age := now_ts - entry_ts pos in
        if age <? INVALID_IMB_MIN_AGE_SEC then (set_invalid_imb_count pos 0, None)
        else
          let adverse := if is_long pos then imbalance <=? - INVALID_IMB_THRESHOLD
                         else imbalance >=? INVALID_IMB_THRESHOLD in
          if negb adverse then (set_invalid_imb_count pos 0, None)
          else
            let pos := set_invalid_imb_count pos (invalid_imb_count pos + 1)%Z in
            if (invalid_imb_count pos <? INVALID_IMB_CONSEC_SAMPLES)%Z then (pos, None)
            else if (adverse_ticks pos <? INVALID_IMB_MIN_ADVERSE_TICKS)%Z then (pos, None)
            else (pos, Some (INVALID_IMB (side pos) imbalance age (adverse_ticks pos)))
  end.

Definition _check_no_progress (pos : Position) (price ts : Q) : result bool :=
  if negb NO_PROGRESS_EXIT_ENABLE then Ok false
  else
    let age_sec := ts - entry_ts pos in
    if age_sec <? NO_PROGRESS_MIN_AGE_SEC then Ok false
    else
      match max_favorable_price pos, min_favorable_price pos with
      | Some max_fav_price, Some min_fav_price =>
          let entry := entry_price pos in
          '(mfe_pct, current_pct) ←
            (if is_long pos then
               mfe_pct ← py_div (max_fav_price - entry) entry;
               current_pct ← py_div (price - entry) entry;
               Ok (mfe_pct, current_pct)
             else
               mfe_pct ← py_div (entry - min_fav_price) entry;
               current_pct ← py_div (entry - price) entry;
               Ok (mfe_pct, current_pct));
          if mfe_pct <? NO_PROGRESS_MIN_MFE_PCT then Ok false
          else if current_pct <=? mfe_pct - NO_PROGRESS_GIVEBACK_PCT then Ok true
          else Ok false
      | _, _ => Ok false
      end.

Definition _get_time_stop_limit (vol_norm : option Q) : Q :=
  match vol_norm with
  | None => MAX_TRADE_LIFETIME_LOW_VOL_SEC
  | Some vol_norm =>
      if vol_norm >=? VOL_NORM_HIGH_THRESHOLD then MAX_TRADE_LIFETIME_HIGH_VOL_SEC
      else MAX_TRADE_LIFETIME_LOW_VOL_SEC
  end.

(** *** closes *)

Definition close_record (pos : Position) (ts exit_price qty_close realized total_fees : Q)
    (label : ExitLabel) : TradeRecord :=
  {| tr_symbol := symbol pos; tr_side := side pos;
     tr_entry_price := entry_price pos; tr_exit_price := exit_price;
     tr_qty := qty_close;
     tr_sl_price := sl_price pos; tr_tp_price := tp_price pos;
     tr_entry_ts := entry_ts pos; tr_exit_ts := ts;
     tr_realized_pnl := realized; tr_fees_paid := total_fees;
     tr_reason := (label, open_reason pos) |}.

Definition _close_partial (s : GlobalPortfolio) (pos : Position) (ts exit_price : Q)
    (label : ExitLabel) : list TradeRecord * Position * GlobalPortfolio :=
  let qty_close := qty pos * PARTIAL_TP_FRACTION in
  if qty_close <=? 0 then ([], pos, s)
  else
    let pnl_price := if is_long pos then (exit_price - entry_price pos) * qty_close
                     else (entry_price pos - exit_price) * qty_close in
    let exit_fee := exit_price * qty_close * fee_taker s in
    let total_fees := exit_fee in
    let realized := pnl_price - total_fees in
    let s := set_balance s (balance s + realized) in
    let s := set_trades_today s (_trades_today s + 1)%Z in
    let tr := close_record pos ts exit_price qty_close realized total_fees label in
    let s := set_trade_history s (trade_history s ++ [tr]) in
    let pos := set_qty pos (qty pos - qty_close) in
    let pos := set_partial_taken pos true in
    ([tr], pos, s).

(** [_close_full] ends with [del self.positions[pos.symbol]]. *)
Definition _close_full (s : GlobalPortfolio) (pos : Position) (ts exit_price : Q)
    (label : ExitLabel) : list TradeRecord * GlobalPortfolio :=
  let qty_close := qty pos in
  if qty_close <=? 0 then ([], s)
  else
    let pnl_price := if is_long pos then (exit_price - entry_price pos) * qty_close
                     else (entry_price pos - exit_price) * qty_close in
    let exit_fee := exit_price * qty_close * fee_taker s in
    let total_fees := exit_fee in
    let realized := pnl_price - total_fees in
    let s := set_balance s (balance s + realized) in
    let s := set_trades_today s (_trades_today s + 1)%Z in
    let tr := close_record pos ts exit_price qty_close realized total_fees label in
    let s := set_trade_history s (trade_history s ++ [tr]) in
    let s := set_last_exit_ts s (<[symbol pos := ts]> (last_exit_ts s)) in
    let trades_hour := default [] (trades_last_hour s !! symbol pos) in
    let trades_hour := last_hour ts trades_hour in
    let trades_hour := trades_hour ++ [ts] in
    let s := set_trades_last_hour s (<[symbol pos := trades_hour]> (trades_last_hour s)) in
    let s := set_positions s (delete (symbol pos) (positions s)) in
    ([tr], s).

(** *** tick per symbol: SL/TP/invalid/time-stop *)

(** The fast partial take-profit block of [on_price_tick]. *)
Definition partial_tp (s : GlobalPortfolio) (pos : Position) (ts price : Q)
    : list TradeRecord * Position * GlobalPortfolio :=
  if negb (partial_taken pos) then
    let tp1_long := entry_price pos * (1 + PARTIAL_TP_TRIGGER_PCT) in
    let tp1_short := entry_price pos * (1 - PARTIAL_TP_TRIGGER_PCT) in
    if String.eqb (side pos) "LONG" && (price >=? tp1_long)
    then _close_partial s pos ts tp1_long TP1_FAST
    else if String.eqb (side pos) "SHORT" && (price <=? tp1_short)
    then _close_partial s pos ts tp1_short TP1_FAST
    else ([], pos, s)
  else ([], pos, s).

(** The SL / TP block: [(exit_price, exit_label)], [None] while
    [exit_price is None]. *)
Definition sl_tp_exit (pos : Position) (price : Q) : option (Q * ExitLabel) :=
  if is_long pos then
    if price <=? sl_price pos then Some (sl_price pos, SL)
    else if partial_taken pos && (price >=? tp_price pos) then Some (tp_price pos, TP)
    else None
  else
    if price >=? sl_price pos then Some (sl_price pos, SL)
    else if partial_taken pos && (price <=? tp_price pos) then Some (tp_price pos, TP)
    else None.

(** The exit checks that follow the SL / TP block, each one run only while
    [exit_price is None]. *)
Definition later_exits (pos : Position) (exit : option (Q * ExitLabel))
    (ts price : Q) (imbalance vol_norm : option Q)
    : result (Position * option (Q * ExitLabel)) :=
  let '(pos, exit) :=
    match exit with
    | Some _ => (pos, exit)
    | None =>
        let '(pos, invalid_reason) := _check_invalid_imb_close pos imbalance ts in
        match invalid_reason with
        | Some reason => (pos, Some (price, reason))
        | None => (pos, None)
        end
    end in
  exit ←
    match exit with
    | Some _ => Ok exit
    | None =>
        no_progress ← _check_no_progress pos price ts;
        Ok (if no_progress : bool then Some (price, NO_PROGRESS) else None)
    end;
  let exit :=
    match exit with
    | Some _ => exit
    | None =>
        let time_in_trade := ts - entry_ts pos in
        let time_limit := _get_time_stop_limit vol_norm in
        if time_in_trade >=? time_limit then Some (price, TIME_STOP) else None
    end in
  Ok (pos, exit).

(** The body of [if pos:] in [on_price_tick].  [pos] is the object stored
    under [symbol]; its mutations are written back to the dict before the
    full close, which deletes the entry of [pos.symbol]. *)
Definition manage_position (s : GlobalPortfolio) (symbol : string) (pos : Position)
    (ts price : Q) (imbalance vol_norm : option Q)
    : result (list TradeRecord * GlobalPortfolio) :=
  pos ← _update_trade_management pos price;
  let pos := _update_adverse_ticks pos price in
  let '(closed, pos, s) := partial_tp s pos ts price in
  let exit := sl_tp_exit pos price in
  '(pos, exit) ← later_exits pos exit ts price imbalance vol_norm;
  let s := set_positions s (<[symbol := pos]> (positions s)) in
  match exit with
  | Some (exit_price, exit_label) =>
      if qty pos >? 0 then
        let '(trades, s) := _close_full s pos ts exit_price exit_label in
        Ok (closed ++ trades, s)
      else Ok (closed, s)
  | None => Ok (closed, s)
  end.

Definition on_price_tick (s : GlobalPortfolio) (symbol : string) (ts price : Q)
    (vol imbalance vol_norm : option Q)
    : result (list TradeRecord * GlobalPortfolio) :=
  let s := _reset_if_new_day s ts in
  '(closed, s) ←
    match positions s !! symbol with
    | Some pos => manage_position s symbol pos ts price imbalance vol_norm
    | None => Ok ([], s)
    end;
  let s := _recompute_equity s {[symbol := price]} in
  Ok (closed, s).

(** * Notions used in the statements *)

(** The volume [order_book_imbalance] sums on one side of the book. *)
Definition top_volume (levels : list (Q * Q)) (depth_levels : Z) : Q :=
  py_sum (map snd (py_slice_to levels depth_levels)).

Definition nonneg_quantities (levels : list (Q * Q)) : Prop :=
  Forall (fun level => 0 <= snd level) levels.

(** The pair [(score_long, score_short)] that [generate_signal] computes
    from the statistics, when all four metrics are available. *)
Definition combined_scores (np_std_ddof1 : list Q -> Q) (stats : MarketStats)
    : option (Q * Q) :=
  match get_volatility np_std_ddof1 stats VOL_RET_LOOKBACK,
        get_smooth_imbalance stats 3,
        get_cvd_slope stats 7,
        get_volume_normalized stats 100 with
  | Some vol, Some smooth_imb, Some cvd_slope, Some vol_norm =>
      let sc := weighted_scores vol smooth_imb cvd_slope vol_norm in
      Some (score_long sc, score_short sc)
  | _, _, _, _ => None
  end.

(** A feed of [n] snapshots at a flat price with rising buying flow. *)
Fixpoint bullish_feed (n : nat) (st : MarketStats) : MarketStats :=
  match n with
  | O => st
  | S n' =>
      let st' := bullish_feed n' st in
      let i := inject_Z (Z.of_nat n) in
      update st' 100 (20 * i) (9 # 10) i
  end.

Definition bullish_stats : MarketStats :=
  bullish_feed 70 (MarketStats_init VOL_WINDOW_SIZE).


(** A stand-in for [np.std] on the example feed: a volatility inside the
    admissible band. *)
Definition example_std (tail : list Q) : Q := 1 # 1000.

(** * A session on one UTC day, used in the examples *)

Definition state_of {A} (r : result (A * GlobalPortfolio)) : GlobalPortfolio :=
  match r with
  | Ok (_, s) => s
  | Raise _ => GlobalPortfolio_init
  end.

Definition closed_of (r : result (list TradeRecord * GlobalPortfolio))
    : list TradeRecord :=
  match r with
  | Ok (closed, _) => closed
  | Raise _ => []
  end.

Definition opened_of (r : result (option Position * GlobalPortfolio))
    : option Position :=
  match r with
  | Ok (pos, _) => pos
  | Raise _ => None
  end.

(** A STANDARD long signal as [generate_signal] builds them. *)
Definition long_signal (symbol : string) : Signal :=
  {| sig_symbol := symbol; sig_side := "LONG"; sig_score := 60;
     sig_reason := {| rs_side := "LONG"; rs_score := 60; rs_class := "STANDARD";
                      rs_cvd := 100; rs_imb := 0; rs_vol := 100 |};
     sig_risk_mult := 1; sig_score_class := "STANDARD" |}.

(** The first tick of the run, on btcusdt. *)
Definition pf_first_tick : GlobalPortfolio :=
  state_of (on_price_tick GlobalPortfolio_init "btcusdt" 1000 100 None (Some 0) None).

(** A long on btcusdt at 100, the way the main loop opens it. *)
Definition open_btc : result (option Position * GlobalPortfolio) :=
  open_position pf_first_tick "btcusdt" 1000 100 (long_signal "btcusdt") 100 0 "LONG".

Definition pf_btc_open : GlobalPortfolio := state_of open_btc.

(** btcusdt moves to 100.1: the open long is in profit. *)
Definition pf_btc_up : GlobalPortfolio :=
  state_of (on_price_tick pf_btc_open "btcusdt" 1001 (1001 # 10) None (Some 0) None).

(** A long on ethusdt at 2000 with the adverse extreme at 1990. *)
Definition open_eth : result (option Position * GlobalPortfolio) :=
  open_position pf_btc_up "ethusdt" 1002 2000 (long_signal "ethusdt") 1990 0 "LONG".

Definition pf_two_open : GlobalPortfolio := state_of open_eth.

(** Both instruments tick once more: btcusdt at 100.1, then ethusdt at 2001. *)
Definition pf_btc_tick : GlobalPortfolio :=
  state_of (on_price_tick pf_two_open "btcusdt" 1003 (1001 # 10) None (Some 0) None).

Definition pf_eth_tick : GlobalPortfolio :=
  state_of (on_price_tick pf_btc_tick "ethusdt" 1004 2001 None (Some 0) None).

(** The latest price of each instrument after those ticks. *)
Definition latest_prices : gmap string Q :=
  <["btcusdt"%string := 1001 # 10]> (<["ethusdt"%string := 2001]> ∅).

(** ethusdt rises to 2006 (breakeven, trailing and the fast partial
    take-profit), on to 2010, and falls back to 2007, below the trailed stop. *)
Definition eth_2006 : result (list TradeRecord * GlobalPortfolio) :=
  on_price_tick pf_eth_tick "ethusdt" 1005 2006 None (Some 0) None.

Definition eth_2010 : result (list TradeRecord * GlobalPortfolio) :=
  on_price_tick (state_of eth_2006) "ethusdt" 1006 2010 None (Some 0) None.

Definition eth_2007 : result (list TradeRecord * GlobalPortfolio) :=
  on_price_tick (state_of eth_2010) "ethusdt" 1007 2007 None (Some 0) None.

(** The btcusdt long reaches the low-volatility lifetime without a
    normalized volume. *)
Definition btc_time_stop : result (list TradeRecord * GlobalPortfolio) :=
  on_price_tick pf_btc_open "btcusdt" 1600 100 None (Some 0) None.



(** * Runs of the portfolio *)

(** What the loops of [main.py] do to the shared portfolio. *)
Inductive Event : Type :=
| Tick (symbol : string) (ts price : Q) (vol imbalance vol_norm : option Q)
| Open (symbol : string) (ts price : Q) (signal : Signal)
       (recent_extreme_price entry_imbalance : Q) (side : string).

Definition event_symbol (e : Event) : string :=
  match e with
  | Tick symbol _ _ _ _ _ => symbol
  | Open symbol _ _ _ _ _ _ => symbol
  end.

(** One event: the records it closes and the portfolio after it. *)
Definition step (s : GlobalPortfolio) (e : Event)
    : result (list TradeRecord * GlobalPortfolio) :=
  match e with
  | Tick symbol ts price vol imbalance vol_norm =>
      on_price_tick s symbol ts price vol imbalance vol_norm
  | Open symbol ts price signal recent_extreme_price entry_imbalance side =>
      '(_, s') ← open_position s symbol ts price signal
                   recent_extreme_price entry_imbalance side;
      Ok ([], s')
  end.

Definition is_open (s : GlobalPortfolio) (k : string) : bool :=
  match positions s !! k with
  | Some _ => true
  | None => false
  end.

(** The portfolio after the events [es], provided none raises and the
    position under [k] is still open after each of them. *)
Fixpoint held (k : string) (s : GlobalPortfolio) (es : list Event)
    : option GlobalPortfolio :=
  match es with
  | [] => Some s
  | e :: es' =>
      match step s e with
      | Ok (_, s1) => if is_open s1 k then held k s1 es' else None
      | Raise _ => None
      end
  end.

(** The life of the position under [k]: the events [es] are run while the
    position is open before each of them (the last one may close it); the
    result is the records closed by the ticks of [k] and the final
    portfolio. *)
Fixpoint life (k : string) (s : GlobalPortfolio) (es : list Event)
    : option (list TradeRecord * GlobalPortfolio) :=
  match es with
  | [] => Some ([], s)
  | e :: es' =>
      if is_open s k then
        match step s e with
        | Ok (closed, s1) =>
            match life k s1 es' with
            | Some (recs, s2) =>
                Some ((if String.eqb (event_symbol e) k then closed else []) ++ recs, s2)
            | None => None
            end
        | Raise _ => None
        end
      else None
  end.

(** Every position is stored under its own symbol. *)
Definition keyed (s : GlobalPortfolio) : Prop :=
  forall k p, positions s !! k = Some p -> symbol p = k.

Definition keyedb (s : GlobalPortfolio) : bool :=
  forallb (fun kp => String.eqb (symbol (snd kp)) (fst kp)) (map_to_list (positions s)).

(** The quantity still open under [k]. *)
Definition remaining (s : GlobalPortfolio) (k : string) : Q :=
  match positions s !! k with
  | Some p => qty p
  | None => 0
  end.

Definition sum_qty (recs : list TradeRecord) : Q :=
  foldr (fun tr acc => tr_qty tr + acc) 0 recs.

Definition is_fast_partial (tr : TradeRecord) : bool :=
  match fst (tr_reason tr) with
  | TP1_FAST => true
  | _ => false
  end.

(** The trades-today counter a call at [ts] starts from. *)
Definition day_base (s : GlobalPortfolio) (ts : Q) : Z :=
  if new_day s ts then 0%Z else _trades_today s.

(** The three ethusdt ticks of the example session. *)
Definition eth_ticks : list Event :=
  [Tick "ethusdt" 1005 2006 None (Some 0) None;
   Tick "ethusdt" 1006 2010 None (Some 0) None;
   Tick "ethusdt" 1007 2007 None (Some 0) None].

(** After the fast partial take-profit of the ethusdt long: two more
    ethusdt ticks above its stop, with a btcusdt tick in between. *)
Definition eth_hold_events : list Event :=
  [Tick "ethusdt" 1006 2010 None (Some 0) None;
   Tick "btcusdt" 1006 (1001 # 10) None (Some 0) None;
   Tick "ethusdt" 1007 2009 None (Some 0) None].

Definition pf_eth_held : GlobalPortfolio :=
  default GlobalPortfolio_init (held "ethusdt" (state_of eth_2006) eth_hold_events).

(** The whole life of the ethusdt long, from its open to its stop. *)
Definition eth_life_events : list Event :=
  [Tick "btcusdt" 1003 (1001 # 10) None (Some 0) None;
   Tick "ethusdt" 1004 2001 None (Some 0) None] ++ eth_ticks.

Definition eth_life : option (list TradeRecord * GlobalPortfolio) :=
  life "ethusdt" pf_two_open eth_life_events.

Definition life_records (l : option (list TradeRecord * GlobalPortfolio))
    : list TradeRecord :=
  match l with
  | Some (recs, _) => recs
  | None => []
  end.

Definition life_state (l : option (list TradeRecord * GlobalPortfolio))
    : GlobalPortfolio :=
  match l with
  | Some (_, s) => s
  | None => GlobalPortfolio_init
  end.

(** Names for the positions and records of the example session. *)
Definition blank_position : Position :=
  {| symbol := EmptyString; side := EmptyString; entry_price := 0; qty := 0; initial_qty := 0;
     sl_price := 0; tp_price := 0; entry_ts := 0; entry_imbalance := 0;
     risk_pct := 0; breakeven_done := false; partial_taken := false;
     max_favorable_price := None; min_favorable_price := None;
     exit_ts := None; realized_pnl := 0; fees_paid := 0; is_closed := false;
     open_reason := {| rs_side := EmptyString; rs_score := 0; rs_class := EmptyString;
                       rs_cvd := 0; rs_imb := 0; rs_vol := 0 |};
     entry_fee_total := 0; estimated_fees := 0; type_label := EmptyString;
     invalid_imb_count := 0; adverse_ticks := 0;
     min_adverse_price := None; max_adverse_price := None |}.

Definition position_of (r : result (option Position * GlobalPortfolio)) : Position :=
  default blank_position (opened_of r).

Definition position_at (s : GlobalPortfolio) (k : string) : Position :=
  default blank_position (positions s !! k).

Definition first_record (closed : list TradeRecord) : TradeRecord :=
  hd (close_record blank_position 0 0 0 0 0 SL) closed.

Definition btc_long : Position := position_of open_btc.

Definition eth_long : Position := position_of open_eth.

(** The signal the scorer gives on the example feed. *)
Definition bullish_signal : Signal :=
  match generate_signal example_std "btcusdt" bullish_stats 70 100 (9 # 10) with
  | Ok (Some sig) => sig
  | _ => long_signal EmptyString
  end.

(** The portfolio after a run of events from [s]; [None] when one raises. *)
Fixpoint run (s : GlobalPortfolio) (es : list Event) : option GlobalPortfolio :=
  match es with
  | [] => Some s
  | e :: es' =>
      match step s e with
      | Ok (_, s1) => run s1 es'
      | Raise _ => None
      end
  end.

(** A losing round on btcusdt: a long opened at 100 under a recent low of 99
    (stop at 98.9208) is stopped out one second later, on a tick at 98.9. *)
Definition losing_round (t : Q) : list Event :=
  [Tick "btcusdt" t 100 None (Some 0) None;
   Open "btcusdt" t 100 (long_signal "btcusdt") 99 0 "LONG";
   Tick "btcusdt" (t + 1) (989 # 10) None (Some 0) None].

Definition pf_day_loss : GlobalPortfolio :=
  default GlobalPortfolio_init
    (run GlobalPortfolio_init (losing_round 1000 ++ losing_round 1010)).

(** A third attempt, more than an hour after the two closes. *)
Definition open_after_loss : result (option Position * GlobalPortfolio) :=
  open_position pf_day_loss "btcusdt" 5000 100 (long_signal "btcusdt") 99 0 "LONG".

(** An open attempt that returned [None]. *)
Definition is_rejected (r : result (option Position * GlobalPortfolio)) : bool :=
  match r with
  | Ok (None, _) => true
  | _ => false
  end.

(** * Notions used in the lemmas *)

(** What no stage of a tick changes in a position. *)
Definition same_trade (p p' : Position) : Prop :=
  symbol p' = symbol p /\ side p' = side p /\ entry_price p' = entry_price p /\
  initial_qty p' = initial_qty p /\ tp_price p' = tp_price p /\
  entry_ts p' = entry_ts p /\ open_reason p' = open_reason p.

(** A partial close, as seen from outside: the record, the position left
    and the counters. *)
Definition partial_closed (s : GlobalPortfolio) (pos : Position) (ts : Q)
    (label : ExitLabel) (tr : TradeRecord) (pos' : Position) (s' : GlobalPortfolio)
    : Prop :=
  fst (tr_reason tr) = label /\ tr_symbol tr = symbol pos /\
  tr_entry_ts tr = entry_ts pos /\
  tr_qty tr = qty pos * PARTIAL_TP_FRACTION /\ 0 < tr_qty tr /\
  qty pos' = qty pos - tr_qty tr /\ partial_taken pos' = true /\
  same_trade pos pos' /\ sl_price pos' = sl_price pos /\
  breakeven_done pos' = breakeven_done pos /\
  positions s' = positions s /\
  _trades_today s' = (_trades_today s + 1)%Z /\
  trade_history s' = trade_history s ++ [tr] /\
  last_exit_ts s' = last_exit_ts s /\
  trades_last_hour s' = trades_last_hour s /\
  _current_day s' = _current_day s /\
  _start_of_day_balance s' = _start_of_day_balance s.

(** What the stop, the quantity and the flags of a position are. *)
Definition same_holding (p p' : Position) : Prop :=
  same_trade p p' /\ qty p' = qty p /\ partial_taken p' = partial_taken p /\
  breakeven_done p' = breakeven_done p /\ sl_price p' = sl_price p.

Definition is_sl_tp (exit : option (Q * ExitLabel)) : Prop :=
  match exit with
  | Some (_, SL) | Some (_, TP) | None => True
  | Some _ => False
  end.

(** A full close of a position that still holds quantity. *)
Definition full_closed (s : GlobalPortfolio) (pos : Position) (ts : Q)
    (label : ExitLabel) (tr : TradeRecord) (s' : GlobalPortfolio) : Prop :=
  fst (tr_reason tr) = label /\ tr_symbol tr = symbol pos /\
  tr_entry_ts tr = entry_ts pos /\ tr_exit_ts tr = ts /\
  tr_qty tr = qty pos /\
  positions s' = delete (symbol pos) (positions s) /\
  _trades_today s' = (_trades_today s + 1)%Z /\
  trade_history s' = trade_history s ++ [tr] /\
  last_exit_ts s' = <[symbol pos := ts]> (last_exit_ts s) /\
  trades_last_hour s' =
    <[symbol pos := last_hour ts (default [] (trades_last_hour s !! symbol pos)) ++ [ts]]>
      (trades_last_hour s) /\
  _current_day s' = _current_day s /\
  _start_of_day_balance s' = _start_of_day_balance s.

(** One managed tick of an open position: [pos'] is the position after the
    management stages, [cl_partial] the record of the fast partial
    take-profit (if it fired) and [cl_full] the record of the full close
    (if an exit was chosen). *)
Definition stop_kept (pos pos' : Position) : Prop :=
  breakeven_done pos = true ->
  breakeven_done pos' = true /\
  (is_long pos = true -> sl_price pos <= sl_price pos') /\
  (is_long pos = false -> sl_price pos' <= sl_price pos).

Definition partial_step (pos pos' : Position) (cl_partial : list TradeRecord) : Prop :=
  (cl_partial = [] /\ qty pos' = qty pos /\ partial_taken pos' = partial_taken pos) \/
  (exists tr, cl_partial = [tr] /\ fst (tr_reason tr) = TP1_FAST /\
     partial_taken pos = false /\ partial_taken pos' = true /\
     tr_qty tr = qty pos * PARTIAL_TP_FRACTION /\ 0 < tr_qty tr /\
     qty pos' = qty pos - tr_qty tr).

Definition full_step (s : GlobalPortfolio) (k : string) (pos pos' : Position)
    (ts : Q) (vol_norm : option Q) (cl_full : list TradeRecord) (s' : GlobalPortfolio)
    : Prop :=
  (cl_full = [] /\ positions s' = <[k := pos']> (positions s) /\
   last_exit_ts s' = last_exit_ts s /\ trades_last_hour s' = trades_last_hour s /\
   (0 < qty pos' -> ts - entry_ts pos < _get_time_stop_limit vol_norm)) \/
  (exists tr, cl_full = [tr] /\ fst (tr_reason tr) <> TP1_FAST /\
     tr_qty tr = qty pos' /\ 0 < qty pos' /\
     tr_entry_ts tr = entry_ts pos /\ tr_exit_ts tr = ts /\
     (fst (tr_reason tr) = TIME_STOP ->
        _get_time_stop_limit vol_norm <= ts - entry_ts pos) /\
     positions s' = delete (symbol pos) (<[k := pos']> (positions s)) /\
     last_exit_ts s' = <[symbol pos := ts]> (last_exit_ts s) /\
     trades_last_hour s' =
       <[symbol pos := last_hour ts (default [] (trades_last_hour s !! symbol pos)) ++ [ts]]>
         (trades_last_hour s)).

Definition managed (s : GlobalPortfolio) (k : string) (pos : Position)
    (ts : Q) (vol_norm : option Q) (closed : list TradeRecord) (s' : GlobalPortfolio)
    : Prop :=
  exists pos' cl_partial cl_full,
    closed = cl_partial ++ cl_full /\
    same_trade pos pos' /\ stop_kept pos pos' /\
    partial_step pos pos' cl_partial /\
    full_step s k pos pos' ts vol_norm cl_full s' /\
    _trades_today s' = (_trades_today s + py_len closed)%Z /\
    _current_day s' = _current_day s /\
    _start_of_day_balance s' = _start_of_day_balance s /\
    trade_history s' = trade_history s ++ closed.

(** The portfolio an open attempt works on once the hourly list of the
    symbol has been pruned, and once the day has been checked as well. *)
Definition hour_pruned (s : GlobalPortfolio) (k : string) (ts : Q) : GlobalPortfolio :=
  set_trades_last_hour s
    (<[k := last_hour ts (default [] (trades_last_hour s !! k))]> (trades_last_hour s)).

Definition day_checked (s : GlobalPortfolio) (k : string) (ts : Q) : GlobalPortfolio :=
  _reset_if_new_day (hour_pruned s k ts) ts.

(** The quantity of a successful open: the risk quantity, scaled down when
    its margin exceeds the balance. *)
Definition sized (balance entry_price sl_price risk_pct qty : Q) : Prop :=
  let q0 := balance * risk_pct / Qabs (entry_price - sl_price) in
  0 < Qabs (entry_price - sl_price) /\
  (entry_price * q0 / LEVERAGE <= balance -> qty = q0) /\
  (balance < entry_price * q0 / LEVERAGE ->
   qty = q0 * (balance * LEVERAGE * (9 # 10) / (entry_price * q0))).

(** What an event does to the position stored under [k]. *)
Inductive step_at (k : string) (p : Position) (e : Event)
    (closed : list TradeRecord) (s' : GlobalPortfolio) : Prop :=
| at_untouched :
    (event_symbol e <> k \/ closed = []) ->
    positions s' !! k = Some p -> step_at k p e closed s'
| at_managed (p' : Position) (cl_partial : list TradeRecord) :
    event_symbol e = k -> closed = cl_partial ->
    partial_step p p' cl_partial ->
    positions s' !! k = Some p' -> step_at k p e closed s'
| at_closed (p' : Position) (cl_partial : list TradeRecord) (tr : TradeRecord) :
    event_symbol e = k -> closed = cl_partial ++ [tr] ->
    partial_step p p' cl_partial ->
    is_fast_partial tr = false -> tr_qty tr = qty p' ->
    positions s' !! k = None -> step_at k p e closed s'.

Definition fast_partials (recs : list TradeRecord) : nat :=
  length (List.filter is_fast_partial recs).

(** The invariant of a life, from any point of it. *)
Definition conserved (k : string) (p : Position) (recs : list TradeRecord)
    (s' : GlobalPortfolio) : Prop :=
  sum_qty recs + remaining s' k == qty p /\
  (fast_partials recs <= if partial_taken p then 0 else 1)%nat /\
  (forall recs1 tr recs2,
     recs = recs1 ++ tr :: recs2 -> is_fast_partial tr = false ->
     recs2 = [] /\ tr_qty tr == qty p - sum_qty recs1 /\ positions s' !! k = None).

(** The favorable extremes of a position are set, as [open_position] sets
    them: [max] and [min] in [_update_trade_management] then have numbers
    to compare. *)
Definition tracked_position (p : Position) : Prop :=
  (exists a, max_favorable_price p = Some a) /\
  (exists b, min_favorable_price p = Some b).

Definition tracked (s : GlobalPortfolio) : Prop :=
  forall k p, positions s !! k = Some p -> tracked_position p.

(** The statistics after a feed of samples [(price, cvd, imbalance, volume)]. *)
Definition feed (st : MarketStats) (samples : list (Q * Q * Q * Q)) : MarketStats :=
  fold_left (fun st sample =>
               let '(price, cvd, imbalance, volume) := sample in
               update st price cvd imbalance volume)
            samples st.

(** The series of a window that has seen [k] samples. *)
Definition aligned (n k : nat) (st : MarketStats) : Prop :=
  window_size st = n /\
  length (prices st) = Nat.min k n /\
  length (cvd_history st) = Nat.min k n /\
  length (imbalances st) = Nat.min k n /\
  length (volumes st) = Nat.min k n /\
  length (cvd_values st) = Nat.min k CVD_CONTEXT_WINDOW_TICKS /\
  (length (returns st) <= Nat.min (k - 1) n)%nat.

(** The window [get_volume_normalized] reads. *)
Definition recent_volumes (st : MarketStats) (lookback : Z) : list Q :=
  if (lookback <=? py_len (volumes st))%Z
  then py_slice_from (volumes st) (- lookback)
  else volumes st.

(** The volume of the aggressive buys, and of the aggressive sells, of a
    batch of trades. *)
Definition buy_volume (trades : list TradeEvent) : Q :=
  foldr (fun t acc => (if te_is_buy t then te_qty t else 0) + acc) 0 trades.

Definition sell_volume (trades : list TradeEvent) : Q :=
  foldr (fun t acc => (if te_is_buy t then 0 else te_qty t) + acc) 0 trades.

(** Order-flow evidence for a side: a CVD slope of at least the weak
    threshold in its direction, or a smoothed imbalance beyond the entry
    threshold. *)
Definition long_evidence (cvd_slope : Q) (smooth_imb : pyfloat) : Prop :=
  CVD_SLOPE_WEAK_UP <= cvd_slope \/
  exists x, smooth_imb = Num x /\ IMBALANCE_LONG_ENTRY < x.

Definition short_evidence (cvd_slope : Q) (smooth_imb : pyfloat) : Prop :=
  cvd_slope <= CVD_SLOPE_WEAK_DOWN \/
  exists x, smooth_imb = Num x /\ x < IMBALANCE_SHORT_ENTRY.

(** The position and the guards of a successful open. *)
Definition opened (s : GlobalPortfolio) (k : string) (ts price : Q) (signal : Signal)
    (recent_extreme_price entry_imb : Q) (side0 : string) (p : Position) : Prop :=
  let headroom := _max_new_risk_pct_allowed s in
  let asked := BASE_RISK_PER_TRADE * sig_risk_mult signal in
  let long := String.eqb side0 "LONG" in
  positions s !! k = None /\
  COOLDOWN_AFTER_TRADE_SEC <= ts - default 0 (last_exit_ts s !! k) /\
  (py_len (last_hour ts (default [] (trades_last_hour s !! k)))
   < MAX_TRADES_PER_HOUR_PER_SYMBOL)%Z /\
  0 < headroom /\
  - DAILY_MAX_LOSS_PCT < _daily_drawdown_pct (day_checked s k ts) /\
  - DAILY_MAX_LOSS_ABS < _daily_drawdown_abs (day_checked s k ts) /\
  (day_base s ts < MAX_TRADES_PER_DAY)%Z /\
  side p = side0 /\
  risk_pct p = (if asked >? headroom then headroom else asked) /\
  sl_price p = (if long then recent_extreme_price * (1 - SL_BUFFER_PCT)
                else recent_extreme_price * (1 + SL_BUFFER_PCT)) /\
  tp_price p = (if long then price + (price - sl_price p) * REWARD_RISK_BASE
                else price - (sl_price p - price) * REWARD_RISK_BASE) /\
  estimated_fees p = price * qty p * fee_maker s + tp_price p * qty p * fee_taker s /\
  estimated_fees p * MIN_RR_VS_FEES <= Qabs (tp_price p - price) * qty p /\
  entry_fee_total p = price * qty p * fee_maker s /\
  entry_imbalance p = entry_imb /\
  open_reason p = sig_reason signal.

(** The realized results of a list of records. *)
Definition sum_pnl (recs : list TradeRecord) : Q :=
  foldr (fun tr acc => tr_realized_pnl tr + acc) 0 recs.

(** A record's fee is the taker fee on its exit notional, and its realized
    result is the price difference on its quantity, in the direction of its
    side, less that fee. *)
Definition settled (fee_taker : Q) (tr : TradeRecord) : Prop :=
  tr_fees_paid tr = tr_exit_price tr * tr_qty tr * fee_taker /\
  tr_realized_pnl tr =
    (if String.eqb (tr_side tr) "LONG"
     then (tr_exit_price tr - tr_entry_price tr) * tr_qty tr
     else (tr_entry_price tr - tr_exit_price tr) * tr_qty tr)
    - tr_fees_paid tr.

(** The exit price a label goes with, on a tick at [price]. *)
Definition priced (price : Q) (tr : TradeRecord) : Prop :=
  let long := String.eqb (tr_side tr) "LONG" in
  match fst (tr_reason tr) with
  | TP1_FAST =>
      (tr_side tr = "LONG"%string /\
       tr_exit_price tr = tr_entry_price tr * (1 + PARTIAL_TP_TRIGGER_PCT) /\
       tr_exit_price tr <= price) \/
      (tr_side tr = "SHORT"%string /\
       tr_exit_price tr = tr_entry_price tr * (1 - PARTIAL_TP_TRIGGER_PCT) /\
       price <= tr_exit_price tr)
  | SL =>
      tr_exit_price tr = tr_sl_price tr /\
      (if long then price <= tr_sl_price tr else tr_sl_price tr <= price)
  | TP =>
      tr_exit_price tr = tr_tp_price tr /\
      (if long then tr_tp_price tr <= price else price <= tr_tp_price tr)
  | INVALID_IMB _ _ _ _ | TIME_STOP => tr_exit_price tr = price
  | NO_PROGRESS => False
  end.

Definition closed_at (fee_taker ts price : Q) (tr : TradeRecord) : Prop :=
  tr_exit_ts tr = ts /\ settled fee_taker tr /\ priced price tr.

(** The exit the checks of a tick settle on. *)
Definition exit_at (pos : Position) (price : Q) (exit : Q * ExitLabel) : Prop :=
  match snd exit with
  | SL => fst exit = sl_price pos /\
          (if is_long pos then price <= sl_price pos else sl_price pos <= price)
  | TP => fst exit = tp_price pos /\
          (if is_long pos then tp_price pos <= price else price <= tp_price pos)
  | INVALID_IMB _ _ _ _ | TIME_STOP => fst exit = price
  | TP1_FAST | NO_PROGRESS => False
  end.

(** The records the ticks of a run return, in order, and the portfolio
    after the run; [None] when an event raises. *)
Fixpoint run_records (s : GlobalPortfolio) (es : list Event)
    : option (list TradeRecord * GlobalPortfolio) :=
  match es with
  | [] => Some ([], s)
  | e :: es' =>
      match step s e with
      | Ok (closed, s1) =>
          match run_records s1 es' with
          | Some (recs, s2) => Some (closed ++ recs, s2)
          | None => None
          end
      | Raise _ => None
      end
  end.

(** The adverse move [_update_adverse_ticks] measures. *)
Definition adverse_move (pos : Position) (price : Q) : Q :=
  if is_long pos then Qmax 0 (entry_price pos - price)
  else Qmax 0 (price - entry_price pos).

(** The position a successful update returns. *)
Definition updated (r : result Position) : Position :=
  match r with
  | Ok p => p
  | Raise _ => blank_position
  end.

(** * Lemmas and theorems *)

(** * Comparisons *)

Lemma Qlt_bool_iff (x y : Q) : Qlt_bool x y = true <-> x < y.
Proof.
  unfold Qlt_bool. rewrite negb_true_iff.
  destruct (Qle_bool y x) eqn:E.
  - apply Qle_bool_iff in E. split; [discriminate | intros H; lra].
  - split; [intros _ | reflexivity].
    destruct (Qlt_le_dec x y) as [H | H]; [exact H |].
    apply Qle_bool_iff in H. congruence.
Qed.

Lemma Qlt_bool_false (x y : Q) : Qlt_bool x y = false <-> y <= x.
Proof.
  unfold Qlt_bool. rewrite negb_false_iff. apply Qle_bool_iff.
Qed.

Lemma Qle_bool_false (x y : Q) : Qle_bool x y = false <-> y < x.
Proof.
  rewrite <- Qlt_bool_iff. unfold Qlt_bool. rewrite negb_true_iff. reflexivity.
Qed.

(** Turns the boolean tests in the context into order facts. *)
Ltac qprop :=
  repeat match goal with
  | H : (_ && _)%bool = true |- _ => apply andb_true_iff in H; destruct H
  | H : (_ || _)%bool = false |- _ => apply orb_false_iff in H; destruct H
  | H : negb _ = true |- _ => apply negb_true_iff in H
  | H : negb _ = false |- _ => apply negb_false_iff in H
  | H : Qlt_bool _ _ = true |- _ => apply Qlt_bool_iff in H
  | H : Qlt_bool _ _ = false |- _ => apply Qlt_bool_false in H
  | H : Qle_bool _ _ = true |- _ => apply Qle_bool_iff in H
  | H : Qle_bool _ _ = false |- _ => apply Qle_bool_false in H
  end.

(** * order_book_imbalance *)

Lemma fold_left_Qplus_nonneg (xs : list Q) (a : Q) :
  0 <= a -> Forall (fun x => 0 <= x) xs -> 0 <= fold_left Qplus xs a.
Proof.
  revert a. induction xs as [| x xs IH]; intros a Ha Hxs; simpl; [exact Ha |].
  inversion Hxs; subst. apply IH; [lra | assumption].
Qed.

Lemma top_volume_nonneg (levels : list (Q * Q)) (depth_levels : Z) :
  nonneg_quantities (py_slice_to levels depth_levels) ->
  0 <= top_volume levels depth_levels.
Proof.
  intros H. unfold top_volume, py_sum.
  apply fold_left_Qplus_nonneg; [lra |].
  apply Forall_map. exact H.
Qed.

Lemma py_not_true {A} (l : list A) : py_not l = true <-> l = [].
Proof. destruct l; simpl; split; congruence. Qed.

Lemma ratio_bounds (b a : Q) :
  0 <= b -> 0 <= a -> 0 < b + a -> - (1) <= (b - a) / (b + a) <= 1.
Proof.
  intros Hb Ha Ht. split.
  - apply Qle_shift_div_l; [exact Ht | lra].
  - apply Qle_shift_div_r; [exact Ht | lra].
Qed.

(** C8: [order_book_imbalance] is 0 when a side is empty or the combined
    volume of the levels read is not positive (so also for bids without
    asks), and (bidVol - askVol) / (bidVol + askVol) over those levels
    otherwise; the result lies in [-1, 1] on every book whose levels read
    carry no negative quantity, as all books of the feed do: the connector
    keeps the levels with a positive quantity only. *)
Theorem order_book_imbalance_spec (bids asks : list (Q * Q)) (depth_levels : Z) :
  let bid_vol := top_volume bids depth_levels in
  let ask_vol := top_volume asks depth_levels in
  (bids = [] \/ asks = [] \/ bid_vol + ask_vol <= 0 ->
   order_book_imbalance bids asks depth_levels = 0) /\
  (bids <> [] -> asks <> [] -> 0 < bid_vol + ask_vol ->
   order_book_imbalance bids asks depth_levels = (bid_vol - ask_vol) / (bid_vol + ask_vol)) /\
  (nonneg_quantities (py_slice_to bids depth_levels) ->
   nonneg_quantities (py_slice_to asks depth_levels) ->
   - (1) <= order_book_imbalance bids asks depth_levels <= 1).
Proof.
  intros bid_vol ask_vol. unfold order_book_imbalance.
  fold (top_volume bids depth_levels) (top_volume asks depth_levels).
  fold bid_vol ask_vol.
  destruct (py_not bids) eqn:Eb; [| destruct (py_not asks) eqn:Ea]; simpl.
  - apply py_not_true in Eb.
    split; [reflexivity | split; [congruence | intros _ _; split; lra]].
  - apply py_not_true in Ea.
    split; [reflexivity | split; [congruence | intros _ _; split; lra]].
  - assert (Hb : bids <> []) by (intros ->; discriminate).
    assert (Ha : asks <> []) by (intros ->; discriminate).
    destruct (Qle_bool (bid_vol + ask_vol) 0) eqn:Et; qprop.
    + split; [reflexivity | split; [intros _ _ Hpos; lra | intros _ _; split; lra]].
    + split; [| split].
      * intros [-> | [-> | Hle]]; [congruence | congruence | lra].
      * reflexivity.
      * intros Hqb Hqa. apply ratio_bounds; [| | exact Et].
        -- apply top_volume_nonneg; exact Hqb.
        -- apply top_volume_nonneg; exact Hqa.
Qed.

(** A one-level book with quantities 3 and 1. *)
Lemma order_book_imbalance_spec_witness :
  order_book_imbalance [(100, 3)] [(101, 1)] 5 = (3 - 1) / (3 + 1) /\
  - (1) <= order_book_imbalance [(100, 3)] [(101, 1)] 5 <= 1.
Proof.
  pose proof (order_book_imbalance_spec [(100, 3)] [(101, 1)] 5) as [_ [Hr Hb]].
  split.
  - apply Hr; [discriminate | discriminate | reflexivity].
  - apply Hb; repeat constructor; discriminate.
Defined.

(** The hypothesis on the quantities is what the bound rests on: the
    function does not look at their sign, so a level with a negative
    quantity, which the feed never delivers, could take the ratio out of
    [-1, 1]. *)
Lemma order_book_imbalance_not_bounded :
  let bids := [(100, 3)] in
  let asks := [(101, - (1))] in
  bids <> [] /\ asks <> [] /\
  0 < top_volume bids 5 + top_volume asks 5 /\
  order_book_imbalance bids asks 5 == 2 /\
  ~ (- (1) <= order_book_imbalance bids asks 5 <= 1).
Proof.
  simpl. repeat split; try discriminate.
  intros [_ H]. vm_compute in H. apply H. reflexivity.
Qed.

(** * get_smooth_imbalance *)

(** The mean of the last [window] samples, written without slices. *)
Lemma py_slice_from_last {A} (l : list A) (window : Z) :
  (0 < window <= py_len l)%Z ->
  py_slice_from l (- window) = drop (length l - Z.to_nat window) l.
Proof.
  intros [Hpos Hle]. unfold py_slice_from, py_len in *.
  destruct (0 <=? - window)%Z eqn:E; [apply Z.leb_le in E; lia |].
  f_equal. lia.
Qed.

(** C9: with no imbalance sample recorded, [get_smooth_imbalance] answers
    [None] for every window; [None] is answered in no other case; the most
    recent sample is the answer when at least one sample but fewer than
    [window] exist; from [window] samples on the answer is the mean of the
    last [window] of them. *)
Theorem get_smooth_imbalance_cold_start (st : MarketStats) (window : Z) :
  (imbalances st = [] -> get_smooth_imbalance st window = None) /\
  (get_smooth_imbalance st window = None -> imbalances st = []) /\
  (imbalances st <> [] -> (py_len (imbalances st) < window)%Z ->
   get_smooth_imbalance st window = Some (Num (List.last (imbalances st) 0))) /\
  (imbalances st <> [] -> (0 < window <= py_len (imbalances st))%Z ->
   get_smooth_imbalance st window =
   Some (Num (py_sum (drop (length (imbalances st) - Z.to_nat window) (imbalances st))
              / inject_Z window))).
Proof.
  unfold get_smooth_imbalance.
  destruct (imbalances st) as [| x l] eqn:El; simpl py_not; cbv iota.
  - repeat split; congruence.
  - split; [discriminate |]. split.
    { destruct (_ <? _)%Z; discriminate. }
    split.
    + intros _ Hlt. apply Z.ltb_lt in Hlt. rewrite Hlt. reflexivity.
    + intros _ Hw. assert (Hge : (py_len (x :: l) <? window)%Z = false)
        by (apply Z.ltb_ge; lia).
      rewrite Hge. rewrite py_slice_from_last by exact Hw.
      unfold np_mean.
      destruct (drop (length (x :: l) - Z.to_nat window) (x :: l)) as [| y r] eqn:Ed.
      * apply (f_equal length) in Ed. rewrite length_drop in Ed.
        unfold py_len in Hw. cbn [length] in *. lia.
      * simpl py_not. cbv iota. do 4 f_equal.
        apply (f_equal length) in Ed. rewrite length_drop in Ed.
        unfold py_len in *. lia.
Qed.

(** Before the first sample, and after it with a window of 3. *)
Lemma get_smooth_imbalance_cold_start_witness :
  get_smooth_imbalance (MarketStats_init 1000) 3 = None /\
  get_smooth_imbalance (update (MarketStats_init 1000) 100 0 (1 # 2) 1) 3
  = Some (Num (1 # 2)).
Proof.
  split.
  - apply (proj1 (get_smooth_imbalance_cold_start (MarketStats_init 1000) 3)).
    reflexivity.
  - apply (proj1 (proj2 (proj2 (get_smooth_imbalance_cold_start
             (update (MarketStats_init 1000) 100 0 (1 # 2) 1) 3)))).
    + discriminate.
    + reflexivity.
Defined.

(** * Stages of a tick *)

Lemma bind_Ok {A B} (r : result A) (k : A -> result B) (b : B) :
  r ≫= k = Ok b -> exists a, r = Ok a /\ k a = Ok b.
Proof.
  destruct r as [a | e]; simpl; intros H; [eauto | discriminate].
Qed.

Lemma same_trade_refl (p : Position) : same_trade p p.
Proof. repeat split. Qed.

Lemma same_trade_trans (p q r : Position) :
  same_trade p q -> same_trade q r -> same_trade p r.
Proof.
  unfold same_trade. intros (?&?&?&?&?&?&?) (?&?&?&?&?&?&?).
  repeat split; congruence.
Qed.

Lemma same_trade_is_long (p p' : Position) :
  same_trade p p' -> is_long p' = is_long p.
Proof. intros (_ & Hs & _). unfold is_long. rewrite Hs. reflexivity. Qed.

Lemma breakeven_frame (pos : Position) (move : Q) :
  let pos' := breakeven pos move in
  same_trade pos pos' /\ qty pos' = qty pos /\
  partial_taken pos' = partial_taken pos /\
  (breakeven_done pos = true -> pos' = pos) /\
  (breakeven_done pos' = true -> breakeven_done pos = false ->
   sl_price pos' = entry_price pos) /\
  (breakeven_done pos' = false -> pos' = pos).
Proof.
  unfold breakeven.
  destruct (breakeven_done pos) eqn:Eb; simpl.
  - repeat split; auto; congruence.
  - destruct (Qle_bool _ move); simpl; repeat split; auto; congruence.
Qed.

Lemma trailing_frame (pos : Position) (price : Q) :
  let pos' := trailing pos price in
  same_trade pos pos' /\ qty pos' = qty pos /\
  partial_taken pos' = partial_taken pos /\
  breakeven_done pos' = breakeven_done pos /\
  (breakeven_done pos = false -> pos' = pos) /\
  (is_long pos = true -> sl_price pos <= sl_price pos') /\
  (is_long pos = false -> sl_price pos' <= sl_price pos).
Proof.
  unfold trailing.
  destruct (breakeven_done pos) eqn:Eb; [| repeat split; auto; lra].
  destruct (is_long pos) eqn:El.
  - destruct (Qlt_bool (sl_price pos) _) eqn:Et; qprop; simpl;
      repeat split; auto; try congruence; try lra.
  - destruct (Qlt_bool _ (sl_price pos)) eqn:Et; qprop; simpl;
      repeat split; auto; try congruence; try lra.
Qed.

(** [_update_trade_management] keeps the trade and its quantity; once
    breakeven is done it moves the stop one way only. *)
Lemma _update_trade_management_frame (pos pos' : Position) (price : Q) :
  _update_trade_management pos price = Ok pos' ->
  same_trade pos pos' /\ qty pos' = qty pos /\
  partial_taken pos' = partial_taken pos /\
  (breakeven_done pos = true ->
   breakeven_done pos' = true /\
   (is_long pos = true -> sl_price pos <= sl_price pos') /\
   (is_long pos = false -> sl_price pos' <= sl_price pos)).
Proof.
  unfold _update_trade_management. intros H.
  apply bind_Ok in H as (p1 & H1 & H2). injection H2 as <-.
  assert (Hp1 : same_trade pos p1 /\ qty p1 = qty pos /\
                partial_taken p1 = partial_taken pos /\
                breakeven_done p1 = breakeven_done pos /\
                sl_price p1 = sl_price pos).
  { destruct (is_long pos);
      apply bind_Ok in H1 as (m & _ & H1); injection H1 as <-;
      repeat split. }
  destruct Hp1 as (Hs1 & Hq1 & Hpt1 & Hb1 & Hsl1). clear H1.
  set (move := if is_long pos then price - _ else _). clearbody move.
  pose proof (breakeven_frame p1 move) as (Hs2 & Hq2 & Hpt2 & Hid2 & _).
  pose proof (trailing_frame (breakeven p1 move) price)
    as (Hs3 & Hq3 & Hpt3 & Hb3 & _ & Hl3 & Hsh3).
  pose proof (same_trade_trans _ _ _ Hs1 Hs2) as Hs12.
  split; [eapply same_trade_trans; eassumption |].
  split; [congruence |]. split; [congruence |].
  intros Hb. rewrite <- Hb1 in Hb. specialize (Hid2 Hb).
  rewrite Hid2 in *. rewrite <- Hsl1.
  rewrite <- (same_trade_is_long _ _ Hs1).
  split; [congruence |]. split; assumption.
Qed.

Lemma _update_adverse_ticks_frame (pos : Position) (price : Q) :
  let pos' := _update_adverse_ticks pos price in
  same_trade pos pos' /\ qty pos' = qty pos /\
  partial_taken pos' = partial_taken pos /\
  breakeven_done pos' = breakeven_done pos /\
  sl_price pos' = sl_price pos.
Proof.
  unfold _update_adverse_ticks.
  destruct (Qle_bool _ 0); simpl; repeat split.
Qed.

Lemma _close_partial_spec (s : GlobalPortfolio) (pos : Position) (ts exit_price : Q)
    (label : ExitLabel) :
  let '(closed, pos', s') := _close_partial s pos ts exit_price label in
  (closed = [] /\ pos' = pos /\ s' = s) \/
  (exists tr, closed = [tr] /\ partial_closed s pos ts label tr pos' s').
Proof.
  unfold _close_partial.
  destruct (Qle_bool (qty pos * PARTIAL_TP_FRACTION) 0) eqn:E; qprop.
  - left. repeat split.
  - right. eexists. split; [reflexivity |].
    unfold partial_closed. simpl. repeat split; assumption.
Qed.

Lemma partial_tp_spec (s : GlobalPortfolio) (pos : Position) (ts price : Q) :
  let '(closed, pos', s') := partial_tp s pos ts price in
  (closed = [] /\ pos' = pos /\ s' = s) \/
  (exists tr, closed = [tr] /\ partial_taken pos = false /\
              partial_closed s pos ts TP1_FAST tr pos' s').
Proof.
  unfold partial_tp.
  destruct (partial_taken pos) eqn:Ept; simpl; [left; repeat split |].
  set (tp1_long := entry_price pos * (1 + PARTIAL_TP_TRIGGER_PCT)).
  set (tp1_short := entry_price pos * (1 - PARTIAL_TP_TRIGGER_PCT)).
  destruct (_ && _).
  - pose proof (_close_partial_spec s pos ts tp1_long TP1_FAST) as H.
    destruct (_close_partial s pos ts tp1_long TP1_FAST) as [[cl p'] s'].
    destruct H as [H | (tr & H1 & H2)]; [left; exact H | right; eauto].
  - destruct (_ && _).
    + pose proof (_close_partial_spec s pos ts tp1_short TP1_FAST) as H.
      destruct (_close_partial s pos ts tp1_short TP1_FAST) as [[cl p'] s'].
      destruct H as [H | (tr & H1 & H2)]; [left; exact H | right; eauto].
    + left. repeat split.
Qed.

Lemma _check_invalid_imb_close_frame (pos : Position) (imbalance : option Q) (now_ts : Q) :
  let '(pos', reason) := _check_invalid_imb_close pos imbalance now_ts in
  same_holding pos pos' /\
  (reason = None \/ exists sd imb age n, reason = Some (INVALID_IMB sd imb age n)).
Proof.
  unfold _check_invalid_imb_close.
  destruct imbalance as [imb |]; [| split; [repeat split | left; reflexivity]].
  destruct (negb INVALID_IMB_ENABLE); [split; [repeat split | left; reflexivity] |].
  destruct (Qlt_bool _ _); [split; [repeat split | left; reflexivity] |].
  destruct (negb _); [split; [repeat split | left; reflexivity] |].
  destruct (_ <? _)%Z; [split; [repeat split | left; reflexivity] |].
  destruct (_ <? _)%Z; [split; [repeat split | left; reflexivity] |].
  split; [repeat split | right; eauto].
Qed.

Lemma sl_tp_exit_is_sl_tp (pos : Position) (price : Q) :
  is_sl_tp (sl_tp_exit pos price).
Proof.
  unfold sl_tp_exit.
  destruct (is_long pos); destruct (Qle_bool _ _); simpl; auto;
    destruct (_ && _); simpl; auto.
Qed.

(** The later exit checks leave the holding as it is; a [TIME_STOP] comes
    from the lifetime test, and none is chosen below the limit. *)
Lemma later_exits_frame (pos pos' : Position) (exit exit' : option (Q * ExitLabel))
    (ts price : Q) (imbalance vol_norm : option Q) :
  is_sl_tp exit ->
  later_exits pos exit ts price imbalance vol_norm = Ok (pos', exit') ->
  same_holding pos pos' /\
  (forall ep, exit' <> Some (ep, TP1_FAST)) /\
  (forall ep, exit' = Some (ep, TIME_STOP) ->
     _get_time_stop_limit vol_norm <= ts - entry_ts pos) /\
  (exit' = None -> ts - entry_ts pos < _get_time_stop_limit vol_norm).
Proof.
  unfold later_exits. intros Hexit H.
  destruct exit as [[ep0 l0] |].
  - simpl in H. injection H as <- <-.
    split; [repeat split |].
    destruct l0; simpl in Hexit; try contradiction;
      (split; [discriminate | split; discriminate]).
  - pose proof (_check_invalid_imb_close_frame pos imbalance ts) as Hinv.
    destruct (_check_invalid_imb_close pos imbalance ts) as [p1 reason].
    destruct Hinv as (Hh & Hr).
    destruct reason as [r |].
    + simpl in H. injection H as <- <-. split; [exact Hh |].
      destruct Hr as [Hr | (sd & imb & age & n & Hr)]; [discriminate |].
      injection Hr as ->. split; [discriminate | split; discriminate].
    + apply bind_Ok in H as (e1 & H1 & H2).
      apply bind_Ok in H1 as (np & _ & H1). injection H1 as <-.
      injection H2 as <- <-. split; [exact Hh |].
      destruct np; [split; [discriminate | split; discriminate] |].
      destruct Hh as ((_ & _ & _ & _ & _ & Hts & _) & _). rewrite Hts.
      destruct (Qle_bool _ _) eqn:Et; qprop.
      * split; [discriminate | split; [intros ep _; exact Et | discriminate]].
      * split; [discriminate | split; [discriminate | intros _; exact Et]].
Qed.

Lemma _close_full_spec (s : GlobalPortfolio) (pos : Position) (ts exit_price : Q)
    (label : ExitLabel) :
  0 < qty pos ->
  exists tr s', _close_full s pos ts exit_price label = ([tr], s') /\
                full_closed s pos ts label tr s'.
Proof.
  intros Hq. unfold _close_full.
  destruct (Qle_bool (qty pos) 0) eqn:E; qprop; [lra |].
  do 2 eexists. split; [reflexivity |].
  unfold full_closed. simpl. repeat split.
Qed.

Lemma manage_position_spec (s s' : GlobalPortfolio) (k : string) (pos : Position)
    (ts price : Q) (imbalance vol_norm : option Q) (closed : list TradeRecord) :
  manage_position s k pos ts price imbalance vol_norm = Ok (closed, s') ->
  managed s k pos ts vol_norm closed s'.
Proof.
  unfold manage_position. intros H.
  apply bind_Ok in H as (p1 & H1 & H).
  apply _update_trade_management_frame in H1 as (Hs1 & Hq1 & Hpt1 & Hstop1).
  pose proof (_update_adverse_ticks_frame p1 price) as (Hs2 & Hq2 & Hpt2 & Hb2 & Hsl2).
  set (p2 := _update_adverse_ticks p1 price) in *. clearbody p2.
  pose proof (partial_tp_spec s p2 ts price) as Hp.
  destruct (partial_tp s p2 ts price) as [[clp p3] s3].
  apply bind_Ok in H as ([p4 exit] & H4 & H).
  apply later_exits_frame in H4 as ((Hs4 & Hq4 & Hpt4 & Hb4 & Hsl4) & Hnf & Hts & Hnone);
    [| apply sl_tp_exit_is_sl_tp].
  (* the holding after the partial stage *)
  assert (Hp3 : same_trade p2 p3 /\ sl_price p3 = sl_price p2 /\
                breakeven_done p3 = breakeven_done p2 /\
                partial_step p2 p3 clp /\
                positions s3 = positions s /\
                _trades_today s3 = (_trades_today s + py_len clp)%Z /\
                trade_history s3 = trade_history s ++ clp /\
                last_exit_ts s3 = last_exit_ts s /\
                trades_last_hour s3 = trades_last_hour s /\
                _current_day s3 = _current_day s /\
                _start_of_day_balance s3 = _start_of_day_balance s).
  { destruct Hp as [(-> & -> & ->) | (tr & -> & Hpt & Hc)].
    - split; [apply same_trade_refl |].
      repeat split; try (left; repeat split);
        try (unfold py_len; simpl; lia); try (rewrite app_nil_r; reflexivity).
    - destruct Hc as (Hl & _ & _ & Hq & Hpos & Hq' & Hpt' & Hst & Hsl & Hb & Hps
                      & Htt & Hth & Hle & Hlh & Hcd & Hsd).
      repeat split; try assumption; try apply Hst.
      right. exists tr. repeat split; assumption. }
  destruct Hp3 as (Hs3 & Hsl3 & Hb3 & Hstep & Hps3 & Htt3 & Hth3 & Hle3 & Hlh3 & Hcd3 & Hsd3).
  assert (Hets3 : entry_ts p3 = entry_ts pos).
  { destruct Hs1 as (_&_&_&_&_&E1&_), Hs2 as (_&_&_&_&_&E2&_),
      Hs3 as (_&_&_&_&_&E3&_). congruence. }
  assert (Hs04 : same_trade pos p4).
  { repeat (eapply same_trade_trans; [eassumption |]). apply same_trade_refl. }
  assert (Hstop : stop_kept pos p4).
  { intros Hb. destruct (Hstop1 Hb) as (Hb1 & Hl & Hsh).
    rewrite Hsl4, Hsl3, Hsl2, Hb4, Hb3, Hb2. auto. }
  assert (Hpstep : partial_step pos p4 clp).
  { destruct Hstep as [(-> & Hq & Hpt) | (tr & -> & Hl & Hpt & Hpt' & Hq & Hpos & Hq')].
    - left. repeat split; congruence.
    - right. exists tr. repeat split; congruence. }
  set (s4 := set_positions s3 (<[k := p4]> (positions s3))) in *.
  assert (Hkeep : (0 < qty p4 -> ts - entry_ts pos < _get_time_stop_limit vol_norm) ->
                  managed s k pos ts vol_norm clp s4).
  { intros Hlim. exists p4, clp, []. rewrite app_nil_r.
    split; [reflexivity |]. split; [exact Hs04 |]. split; [exact Hstop |].
    split; [exact Hpstep |]. subst s4. simpl.
    split; [left; rewrite Hps3; repeat split; assumption |].
    repeat split; assumption. }
  destruct exit as [[ep lbl] |];
    [| injection H as <- <-; apply Hkeep; intros _; rewrite <- Hets3; auto].
  destruct (Qlt_bool 0 (qty p4)) eqn:Eq; qprop;
    [| injection H as <- <-; apply Hkeep; intros Hq; lra].
  destruct (_close_full_spec s4 p4 ts ep lbl Eq) as (tr & s5 & Hcf & Hfc).
  rewrite Hcf in H. injection H as <- <-.
  destruct Hfc as (Hl & _ & Hets & Hxts & Hq & Hps & Htt & Hth & Hle & Hlh & Hcd & Hsd).
  destruct Hs04 as (Hsym & Hrest).
  exists p4, clp, [tr].
  split; [reflexivity |]. split; [split; assumption |]. split; [exact Hstop |].
  split; [exact Hpstep |]. subst s4. simpl in *.
  split.
  - right. exists tr. split; [reflexivity |].
    split; [rewrite Hl; intros ->; exact (Hnf ep eq_refl) |].
    split; [exact Hq |]. split; [exact Eq |].
    split; [rewrite Hets; apply Hrest |]. split; [exact Hxts |].
    split; [rewrite Hl; intros ->; rewrite <- Hets3; eapply Hts; reflexivity |].
    rewrite Hps, Hle, Hlh, Hsym, Hps3, Hle3, Hlh3. repeat split.
  - rewrite Htt, Htt3, Hcd, Hsd, Hth, Hth3, app_assoc. unfold py_len.
    rewrite length_app. simpl. repeat split; try assumption. lia.
Qed.

Lemma _reset_if_new_day_positions (s : GlobalPortfolio) (ts : Q) :
  positions (_reset_if_new_day s ts) = positions s.
Proof. unfold _reset_if_new_day. destruct (new_day s ts); reflexivity. Qed.

(** A tick is the day reset, the managed position (if one is open under
    the symbol) and the equity update. *)
Lemma on_price_tick_spec (s s' : GlobalPortfolio) (k : string) (ts price : Q)
    (vol imbalance vol_norm : option Q) (closed : list TradeRecord) :
  on_price_tick s k ts price vol imbalance vol_norm = Ok (closed, s') ->
  exists s1, s' = _recompute_equity s1 {[k := price]} /\
    match positions s !! k with
    | Some pos => managed (_reset_if_new_day s ts) k pos ts vol_norm closed s1
    | None => closed = [] /\ s1 = _reset_if_new_day s ts
    end.
Proof.
  unfold on_price_tick. intros H.
  apply bind_Ok in H as ([cl s1] & H1 & H). injection H as <- <-.
  exists s1. split; [reflexivity |].
  rewrite _reset_if_new_day_positions in H1.
  destruct (positions s !! k) as [pos |].
  - apply manage_position_spec in H1. exact H1.
  - injection H1 as <- <-. split; reflexivity.
Qed.

(** * The dynamic time stop *)

Lemma time_stop_high_iff (vol_norm : option Q) :
  _get_time_stop_limit vol_norm = MAX_TRADE_LIFETIME_HIGH_VOL_SEC <->
  exists v, vol_norm = Some v /\ VOL_NORM_HIGH_THRESHOLD <= v.
Proof.
  unfold _get_time_stop_limit. destruct vol_norm as [v |].
  - destruct (Qle_bool VOL_NORM_HIGH_THRESHOLD v) eqn:E; qprop.
    + split; [eauto | reflexivity].
    + split; [discriminate |]. intros (v' & Hv & Hle). injection Hv as <-. lra.
  - split; [discriminate | intros (v & Hv & _); discriminate].
Qed.

(** C10: without a normalized volume the lifetime limit is the low-volatility
    one, which is the longer of the two; the high-volatility limit is chosen
    exactly when a normalized volume is given and is at or above the
    threshold; and a tick closes a position with [TIME_STOP] only at an age
    that has reached the limit chosen for that tick's normalized volume,
    while a position with quantity left that it keeps open is younger than
    that limit. *)
Theorem time_stop_limit_selection :
  _get_time_stop_limit None = MAX_TRADE_LIFETIME_LOW_VOL_SEC /\
  MAX_TRADE_LIFETIME_HIGH_VOL_SEC < MAX_TRADE_LIFETIME_LOW_VOL_SEC /\
  (forall vol_norm,
     _get_time_stop_limit vol_norm = MAX_TRADE_LIFETIME_HIGH_VOL_SEC <->
     exists v, vol_norm = Some v /\ VOL_NORM_HIGH_THRESHOLD <= v) /\
  (forall s k ts price vol imbalance vol_norm closed s' tr,
     on_price_tick s k ts price vol imbalance vol_norm = Ok (closed, s') ->
     In tr closed -> fst (tr_reason tr) = TIME_STOP ->
     _get_time_stop_limit vol_norm <= ts - tr_entry_ts tr) /\
  (forall s k ts price vol imbalance vol_norm closed s' pos pos',
     on_price_tick s k ts price vol imbalance vol_norm = Ok (closed, s') ->
     positions s !! k = Some pos -> positions s' !! k = Some pos' ->
     symbol pos = k -> 0 < qty pos' ->
     ts - entry_ts pos < _get_time_stop_limit vol_norm).
Proof.
  split; [reflexivity |]. split; [reflexivity |].
  split; [exact time_stop_high_iff |]. split.
  - intros s k ts price vol imbalance vol_norm closed s' tr H Hin Hlbl.
    apply on_price_tick_spec in H as (s1 & _ & H).
    destruct (positions s !! k) as [pos |]; [| destruct H as (-> & _); contradiction].
    destruct H as (p' & clp & clf & -> & _ & _ & Hp & Hf & _).
    apply in_app_or in Hin as [Hin | Hin].
    + destruct Hp as [(-> & _) | (tr' & -> & Hl & _)]; [contradiction |].
      destruct Hin as [<- | []]. congruence.
    + destruct Hf as [(-> & _) | (tr' & -> & _ & _ & _ & Hets & _ & Hlim & _)];
        [contradiction |].
      destruct Hin as [<- | []]. rewrite Hets. auto.
  - intros s k ts price vol imbalance vol_norm closed s' pos pos' H Hpos Hpos' Hk Hq.
    apply on_price_tick_spec in H as (s1 & -> & H).
    rewrite Hpos in H.
    destruct H as (p' & clp & clf & _ & _ & _ & _ & Hf & _).
    simpl in Hpos'.
    destruct Hf as [(_ & Hps & _ & _ & Hlim) | (tr' & _ & _ & _ & _ & _ & _ & _ & Hps & _)];
      rewrite Hps in Hpos'.
    + rewrite lookup_insert_eq in Hpos'. injection Hpos' as <-. auto.
    + rewrite Hk, lookup_delete_eq in Hpos'. discriminate.
Qed.

(** On the example session: the btcusdt long, 600 seconds old, is closed by
    [TIME_STOP] on a tick without normalized volume. *)
Lemma time_stop_limit_selection_witness :
  In (first_record (closed_of btc_time_stop)) (closed_of btc_time_stop) /\
  fst (tr_reason (first_record (closed_of btc_time_stop))) = TIME_STOP /\
  MAX_TRADE_LIFETIME_LOW_VOL_SEC
  <= 1600 - tr_entry_ts (first_record (closed_of btc_time_stop)).
Proof.
  assert (Ht : on_price_tick pf_btc_open "btcusdt" 1600 100 None (Some 0) None
               = Ok (closed_of btc_time_stop, state_of btc_time_stop))
    by (vm_compute; reflexivity).
  assert (Hin : In (first_record (closed_of btc_time_stop)) (closed_of btc_time_stop))
    by (vm_compute; left; reflexivity).
  assert (Hl : fst (tr_reason (first_record (closed_of btc_time_stop))) = TIME_STOP)
    by (vm_compute; reflexivity).
  split; [exact Hin |]. split; [exact Hl |].
  exact (proj1 (proj2 (proj2 (proj2 time_stop_limit_selection)))
           _ _ _ _ _ _ None _ _ _ Ht Hin Hl).
Defined.

(** * The decision of the signal scorer *)

Lemma decision_logic_spec (score_long score_short : Q) :
  match decision_logic score_long score_short with
  | Some (final_side, final_score) =>
      (final_side = "LONG"%string /\ final_score = score_long /\
       SCORE_MIN_FOR_CANDIDATE <= score_long /\ score_short < score_long) \/
      (final_side = "SHORT"%string /\ final_score = score_short /\
       SCORE_MIN_FOR_CANDIDATE <= score_short /\ score_long < score_short)
  | None =>
      (score_long < SCORE_MIN_FOR_CANDIDATE \/ score_long <= score_short) /\
      (score_short < SCORE_MIN_FOR_CANDIDATE \/ score_short <= score_long)
  end.
Proof.
  unfold decision_logic.
  destruct (Qle_bool SCORE_MIN_FOR_CANDIDATE score_long) eqn:E1;
    destruct (Qlt_bool score_short score_long) eqn:E2;
    destruct (Qle_bool SCORE_MIN_FOR_CANDIDATE score_short) eqn:E3;
    destruct (Qlt_bool score_long score_short) eqn:E4;
    simpl; qprop; auto 6.
Qed.

Section ScorerDecision.

Variable np_std_ddof1 : list Q -> Q.

(** A signal comes out of the decision step and carries its side and score. *)
Lemma generate_signal_decided (symbol : string) (stats : MarketStats)
    (ts price imbalance : Q) (sig : Signal) :
  generate_signal np_std_ddof1 symbol stats ts price imbalance = Ok (Some sig) ->
  exists score_long score_short,
    combined_scores np_std_ddof1 stats = Some (score_long, score_short) /\
    decision_logic score_long score_short = Some (sig_side sig, sig_score sig).
Proof.
  unfold generate_signal, combined_scores. intros H.
  destruct (get_volatility _ _ _) as [vol |]; [| discriminate].
  destruct (get_smooth_imbalance _ _) as [smooth |]; [| discriminate].
  destruct (get_cvd_slope _ _) as [slope |]; [| discriminate].
  destruct (get_volume_normalized _ _) as [vn |]; [| discriminate].
  destruct (_is_history_insufficient stats); [discriminate |].
  apply bind_Ok in H as (chased & _ & H).
  destruct chased; [discriminate |].
  set (sc := weighted_scores vol smooth slope vn) in *.
  exists (score_long sc), (score_short sc). split; [reflexivity |].
  destruct (decision_logic (score_long sc) (score_short sc)) as [[fs fsc] |];
    [| discriminate].
  destruct (Qle_bool SCORE_SNIPER_MIN fsc); injection H as <-; reflexivity.
Qed.

(** C7: no signal is returned when the two combined scores are equal or
    both below the candidate minimum; a returned signal is for a side whose
    combined score meets the minimum and is strictly above the other
    side's, and it carries that score. *)
Theorem generate_signal_decision (symbol : string) (stats : MarketStats)
    (ts price imbalance : Q) :
  (forall score_long score_short,
     combined_scores np_std_ddof1 stats = Some (score_long, score_short) ->
     score_long == score_short \/
     (score_long < SCORE_MIN_FOR_CANDIDATE /\ score_short < SCORE_MIN_FOR_CANDIDATE) ->
     forall sig,
       generate_signal np_std_ddof1 symbol stats ts price imbalance <> Ok (Some sig)) /\
  (forall sig,
     generate_signal np_std_ddof1 symbol stats ts price imbalance = Ok (Some sig) ->
     exists score_long score_short,
       combined_scores np_std_ddof1 stats = Some (score_long, score_short) /\
       ((sig_side sig = "LONG"%string /\ sig_score sig = score_long /\
         SCORE_MIN_FOR_CANDIDATE <= score_long /\ score_short < score_long) \/
        (sig_side sig = "SHORT"%string /\ sig_score sig = score_short /\
         SCORE_MIN_FOR_CANDIDATE <= score_short /\ score_long < score_short))).
Proof.
  split.
  - intros sl ss Hsc Hno sig Hsig.
    apply generate_signal_decided in Hsig as (sl' & ss' & Hsc' & Hd).
    rewrite Hsc in Hsc'. injection Hsc' as <- <-.
    pose proof (decision_logic_spec sl ss) as Hspec. rewrite Hd in Hspec.
    destruct Hspec as [(_ & _ & Hmin & Hgt) | (_ & _ & Hmin & Hgt)];
      destruct Hno as [Heq | [Hl Hs]]; lra.
  - intros sig Hsig.
    apply generate_signal_decided in Hsig as (sl & ss & Hsc & Hd).
    exists sl, ss. split; [exact Hsc |].
    pose proof (decision_logic_spec sl ss) as Hspec. rewrite Hd in Hspec.
    exact Hspec.
Qed.

End ScorerDecision.

(** On the example feed the scorer returns a signal, and it is decided as
    stated. *)
Lemma generate_signal_decision_witness :
  generate_signal example_std "btcusdt" bullish_stats 70 100 (9 # 10)
  = Ok (Some bullish_signal) /\
  exists score_long score_short,
    combined_scores example_std bullish_stats = Some (score_long, score_short) /\
    ((sig_side bullish_signal = "LONG"%string /\
      sig_score bullish_signal = score_long /\
      SCORE_MIN_FOR_CANDIDATE <= score_long /\ score_short < score_long) \/
     (sig_side bullish_signal = "SHORT"%string /\
      sig_score bullish_signal = score_short /\
      SCORE_MIN_FOR_CANDIDATE <= score_short /\ score_long < score_short)).
Proof.
  assert (E : generate_signal example_std "btcusdt" bullish_stats 70 100 (9 # 10)
              = Ok (Some bullish_signal)) by (vm_compute; reflexivity).
  split; [exact E |].
  exact (proj2 (generate_signal_decision example_std "btcusdt" bullish_stats
                  70 100 (9 # 10)) bullish_signal E).
Defined.

(** * Opening a position *)

Lemma _can_open_trade_state (s : GlobalPortfolio) (ts risk_pct : Q) :
  snd (_can_open_trade s ts risk_pct) = _reset_if_new_day s ts.
Proof.
  unfold _can_open_trade.
  repeat match goal with |- context [if ?b then _ else _] => destruct b end;
    reflexivity.
Qed.

Lemma _calc_qty_from_risk_sized (s : GlobalPortfolio) (entry_price sl_price risk_pct qty : Q) :
  _calc_qty_from_risk s entry_price sl_price risk_pct = Ok (Some qty) ->
  sized (balance s) entry_price sl_price risk_pct qty.
Proof.
  unfold _calc_qty_from_risk, risk_qty, sized. intros H.
  destruct (Qle_bool (Qabs (entry_price - sl_price)) 0) eqn:Ed; [discriminate |].
  qprop. split; [exact Ed |].
  set (q0 := balance s * risk_pct / Qabs (entry_price - sl_price)) in *.
  destruct (Qlt_bool (balance s) (entry_price * q0 / LEVERAGE)) eqn:Em; qprop.
  - apply bind_Ok in H as (scale & Hs & H). injection H as <-.
    unfold py_div in Hs. destruct (Qeq_bool _ 0); [discriminate |].
    injection Hs as <-. split; [intros; lra | reflexivity].
  - injection H as <-. split; [reflexivity | intros; lra].
Qed.

(** The outcomes of [open_position]. *)
Lemma open_position_spec (s s' : GlobalPortfolio) (k : string) (ts price : Q)
    (signal : Signal) (recent_extreme_price entry_imbalance : Q) (side0 : string)
    (r : option Position) :
  open_position s k ts price signal recent_extreme_price entry_imbalance side0
  = Ok (r, s') ->
  (r = None /\ (s' = s \/ s' = hour_pruned s k ts \/ s' = day_checked s k ts)) \/
  (exists p, r = Some p /\ positions s !! k = None /\
     sized (balance s) price (sl_price p) (risk_pct p) (qty p) /\
     symbol p = k /\ entry_price p = price /\ entry_ts p = ts /\
     initial_qty p = qty p /\ 0 < qty p /\
     partial_taken p = false /\ breakeven_done p = false /\
     max_favorable_price p = Some price /\ min_favorable_price p = Some price /\
     s' = set_positions
            (set_balance (day_checked s k ts)
               (balance s - price * qty p * fee_maker s))
            (<[k := p]> (positions s))).
Proof.
  unfold open_position. intros H.
  destruct (positions s !! k) eqn:Ep;
    [injection H as <- <-; left; split; [reflexivity | left; reflexivity] |].
  destruct (Qlt_bool _ COOLDOWN_AFTER_TRADE_SEC);
    [injection H as <- <-; left; split; [reflexivity | left; reflexivity] |].
  fold (hour_pruned s k ts) in H.
  destruct (_ >=? _)%Z;
    [injection H as <- <-; left; split; [reflexivity | right; left; reflexivity] |].
  destruct (Qle_bool (_max_new_risk_pct_allowed (hour_pruned s k ts)) 0);
    [injection H as <- <-; left; split; [reflexivity | right; left; reflexivity] |].
  set (risk := if Qlt_bool _ _ then _ else _) in H.
  pose proof (_can_open_trade_state (hour_pruned s k ts) ts risk) as Hst.
  destruct (_can_open_trade (hour_pruned s k ts) ts risk) as [can s2].
  simpl in Hst. fold (day_checked s k ts) in Hst. subst s2.
  assert (Hbal : balance (day_checked s k ts) = balance s).
  { unfold day_checked, _reset_if_new_day, hour_pruned.
    destruct (new_day _ ts); reflexivity. }
  assert (Hfee : fee_maker (day_checked s k ts) = fee_maker s).
  { unfold day_checked, _reset_if_new_day, hour_pruned.
    destruct (new_day _ ts); reflexivity. }
  assert (Hps : positions (day_checked s k ts) = positions s).
  { unfold day_checked. rewrite _reset_if_new_day_positions. reflexivity. }
  set (s2 := day_checked s k ts) in *. clearbody s2.
  assert (Hrej : forall s0, Ok (None, s2) = Ok (r, s0) ->
            r = None /\ (s0 = s \/ s0 = hour_pruned s k ts \/ s0 = s2)).
  { intros s0 E. injection E as <- <-. auto. }
  destruct can; simpl negb in H; cbv iota in H; [| left; eauto].
  set (sl := if String.eqb side0 "LONG" then _ else _) in H.
  apply bind_Ok in H as (q & Hq & H).
  destruct q as [q |]; [| left; eauto].
  destruct (Qle_bool q 0) eqn:Eq; [left; eauto |].
  match type of H with
  | (if ?b then _ else _) = _ => destruct b; [left; eauto |]
  end.
  injection H as <- <-. right. eexists. split; [reflexivity |].
  apply _calc_qty_from_risk_sized in Hq. rewrite Hbal in Hq.
  qprop. simpl. rewrite Hbal, Hfee, Hps.
  repeat split; try assumption; try reflexivity; apply Hq.
Qed.

Lemma day_checked_frame (s : GlobalPortfolio) (k : string) (ts : Q) :
  let s' := day_checked s k ts in
  balance s' = balance s /\ equity s' = equity s /\ positions s' = positions s /\
  trade_history s' = trade_history s /\ last_exit_ts s' = last_exit_ts s /\
  trades_last_hour s' =
    <[k := last_hour ts (default [] (trades_last_hour s !! k))]> (trades_last_hour s) /\
  _trades_today s' = day_base s ts /\
  ((_current_day s' = _current_day s /\
    _start_of_day_balance s' = _start_of_day_balance s /\
    _trades_today s' = _trades_today s) \/
   (new_day s ts = true /\ _current_day s' = Some (tm_yday ts) /\
    _start_of_day_balance s' = balance s /\ _trades_today s' = 0%Z)).
Proof.
  unfold day_checked, _reset_if_new_day, day_base.
  replace (new_day (hour_pruned s k ts) ts) with (new_day s ts) by reflexivity.
  destruct (new_day s ts); simpl; repeat split; auto 7.
Qed.

(** C4 (as amended): a rejected open attempt leaves balance, equity, the
    open positions, the trade history and the cooldown timestamps as they
    were, and leaves the whole portfolio as it was when the existing-position
    or the cooldown guard rejects; after the cooldown guard the hourly list
    of the symbol may have been replaced by its entries of the last 3600
    seconds, and the day counters may have been rolled over to the day of
    [ts]. *)
Theorem rejected_open_frame (s s' : GlobalPortfolio) (k : string) (ts price : Q)
    (signal : Signal) (recent_extreme_price entry_imbalance : Q) (side0 : string) :
  open_position s k ts price signal recent_extreme_price entry_imbalance side0
  = Ok (None, s') ->
  balance s' = balance s /\ equity s' = equity s /\ positions s' = positions s /\
  trade_history s' = trade_history s /\ last_exit_ts s' = last_exit_ts s /\
  (trades_last_hour s' = trades_last_hour s \/
   trades_last_hour s' =
     <[k := last_hour ts (default [] (trades_last_hour s !! k))]> (trades_last_hour s)) /\
  ((_current_day s' = _current_day s /\
    _start_of_day_balance s' = _start_of_day_balance s /\
    _trades_today s' = _trades_today s) \/
   (new_day s ts = true /\ _current_day s' = Some (tm_yday ts) /\
    _start_of_day_balance s' = balance s /\ _trades_today s' = 0%Z)) /\
  (is_open s k = true \/ ts - default 0 (last_exit_ts s !! k) < COOLDOWN_AFTER_TRADE_SEC ->
   s' = s).
Proof.
  intros H.
  assert (Hearly : is_open s k = true \/
                   ts - default 0 (last_exit_ts s !! k) < COOLDOWN_AFTER_TRADE_SEC ->
                   s' = s).
  { unfold open_position, is_open in *.
    destruct (positions s !! k); [intros _; congruence |].
    intros [Hf | Hc]; [discriminate |].
    apply Qlt_bool_iff in Hc. rewrite Hc in H. congruence. }
  apply open_position_spec in H
    as [(_ & [-> | [-> | ->]]) | (p & Hp & _)]; [| | | discriminate].
  - repeat split; auto.
  - repeat split; auto.
  - pose proof (day_checked_frame s k ts) as (? & ? & ? & ? & ? & ? & _ & ?).
    repeat split; auto.
Qed.

Lemma is_rejected_spec (r : result (option Position * GlobalPortfolio)) :
  is_rejected r = true -> r = Ok (None, state_of r).
Proof.
  destruct r as [[[p|] s]|e]; simpl; intros H; try discriminate H.
  reflexivity.
Qed.

(** On the attempt the daily loss stops. *)
Lemma rejected_open_frame_witness :
  balance (state_of open_after_loss) = balance pf_day_loss /\
  positions (state_of open_after_loss) = positions pf_day_loss /\
  trade_history (state_of open_after_loss) = trade_history pf_day_loss /\
  last_exit_ts (state_of open_after_loss) = last_exit_ts pf_day_loss.
Proof.
  assert (R : is_rejected open_after_loss = true) by (vm_compute; reflexivity).
  pose proof (rejected_open_frame pf_day_loss (state_of open_after_loss)
                "btcusdt" 5000 100 (long_signal "btcusdt") 99 0 "LONG"
                (is_rejected_spec open_after_loss R))
    as (Hb & _ & Hp & Hh & Hl & _).
  split; [exact Hb |]. split; [exact Hp |]. split; [exact Hh | exact Hl].
Defined.

(** C4, as stated, fails: after two losing trades the third attempt, more
    than an hour later, is rejected by the daily loss gate, and the hourly list of
    the symbol has already been replaced by its pruned copy. *)
Lemma rejected_open_prunes_hourly_list :
  open_position pf_day_loss "btcusdt" 5000 100 (long_signal "btcusdt") 99 0 "LONG"
  = Ok (None, state_of open_after_loss) /\
  _daily_drawdown_pct pf_day_loss <= - DAILY_MAX_LOSS_PCT /\
  trades_last_hour pf_day_loss !! "btcusdt"%string = Some [1001; 1011] /\
  trades_last_hour (state_of open_after_loss) !! "btcusdt"%string = Some [] /\
  state_of open_after_loss <> pf_day_loss.
Proof.
  split.
  { apply (is_rejected_spec open_after_loss). vm_compute. reflexivity. }
  split; [vm_compute; discriminate |].
  split; [vm_compute; reflexivity |]. split; [vm_compute; reflexivity |].
  assert (H : trades_last_hour (state_of open_after_loss) !! "btcusdt"%string
              <> trades_last_hour pf_day_loss !! "btcusdt"%string)
    by (vm_compute; discriminate).
  intros E.
  exact (H (f_equal (fun s => trades_last_hour s !! "btcusdt"%string) E)).
Qed.

(** What [open_position] sizes from: the quantity of a successful open is
    (balance x risk fraction) / |entry - stop| before the margin check, kept
    when its margin fits the balance and scaled by (balance x leverage x
    0.9) / notional otherwise.  The equity is not read. *)
Theorem open_quantity_from_balance (s s' : GlobalPortfolio) (k : string) (ts price : Q)
    (signal : Signal) (recent_extreme_price entry_imbalance : Q) (side0 : string)
    (p : Position) :
  open_position s k ts price signal recent_extreme_price entry_imbalance side0
  = Ok (Some p, s') ->
  let q0 := balance s * risk_pct p / Qabs (price - sl_price p) in
  entry_price p = price /\ 0 < Qabs (price - sl_price p) /\
  (price * q0 / LEVERAGE <= balance s -> qty p = q0) /\
  (balance s < price * q0 / LEVERAGE ->
   qty p = q0 * (balance s * LEVERAGE * (9 # 10) / (price * q0))).
Proof.
  intros H. apply open_position_spec in H as [(Hn & _) | (p' & Hp & _ & Hs & _ & He & _)];
    [discriminate |].
  injection Hp as <-. split; [exact He |]. exact Hs.
Qed.

(** On the ethusdt open of the example session, whose margin fits. *)
Lemma open_quantity_from_balance_witness :
  open_position pf_btc_up "ethusdt" 1002 2000 (long_signal "ethusdt") 1990 0 "LONG"
  = Ok (Some eth_long, pf_two_open) /\
  qty eth_long = balance pf_btc_up * risk_pct eth_long / Qabs (2000 - sl_price eth_long).
Proof.
  assert (E : open_position pf_btc_up "ethusdt" 1002 2000 (long_signal "ethusdt")
                1990 0 "LONG" = Ok (Some eth_long, pf_two_open))
    by (vm_compute; reflexivity).
  split; [exact E |].
  destruct (open_quantity_from_balance _ _ _ _ _ _ _ _ _ _ E) as (_ & _ & Hfit & _).
  apply Hfit. vm_compute. discriminate.
Defined.

(** C2: the code sizes an open from the balance, where the claim, and the
    comments of [models.py] and [config.py] on the risk fraction, ask for the
    equity.  With the btcusdt long in profit the equity is above the
    balance, and the ethusdt long opened then (no margin scaling) has the
    quantity the balance gives, not the one the equity gives. *)
Lemma open_quantity_not_from_equity :
  open_position pf_btc_up "ethusdt" 1002 2000 (long_signal "ethusdt") 1990 0 "LONG"
  = Ok (Some eth_long, pf_two_open) /\
  balance pf_btc_up < equity pf_btc_up /\
  2000 * (balance pf_btc_up * risk_pct eth_long / Qabs (2000 - sl_price eth_long))
    / LEVERAGE <= balance pf_btc_up /\
  qty eth_long
  == balance pf_btc_up * risk_pct eth_long / Qabs (2000 - sl_price eth_long) /\
  ~ qty eth_long
    == equity pf_btc_up * risk_pct eth_long / Qabs (2000 - sl_price eth_long).
Proof.
  split; [vm_compute; reflexivity |]. split; [vm_compute; reflexivity |].
  split; [vm_compute; discriminate |]. split; [vm_compute; reflexivity |].
  vm_compute. discriminate.
Qed.

(** * The trade-frequency records *)

Lemma _reset_if_new_day_counters (s : GlobalPortfolio) (ts : Q) :
  let s' := _reset_if_new_day s ts in
  _trades_today s' = day_base s ts /\
  trades_last_hour s' = trades_last_hour s /\
  last_exit_ts s' = last_exit_ts s.
Proof.
  unfold _reset_if_new_day, day_base. destruct (new_day s ts); repeat split.
Qed.

(** C3 (as amended): the trade-frequency records count closes.  A successful
    open leaves the trades-today counter at the value the day starts the call
    with and only prunes the hourly list of its symbol; a tick adds one to
    the counter for every record it closes (partial or full), and changes
    the hourly lists only by a full close, which appends its timestamp to
    the pruned list of the closed position's symbol. *)
Theorem trade_counters_count_closes :
  (forall s s' k ts price signal recent_extreme_price entry_imbalance side0 p,
     open_position s k ts price signal recent_extreme_price entry_imbalance side0
     = Ok (Some p, s') ->
     _trades_today s' = day_base s ts /\
     trades_last_hour s' =
       <[k := last_hour ts (default [] (trades_last_hour s !! k))]> (trades_last_hour s)) /\
  (forall s s' k ts price vol imbalance vol_norm closed,
     on_price_tick s k ts price vol imbalance vol_norm = Ok (closed, s') ->
     _trades_today s' = (day_base s ts + py_len closed)%Z /\
     ((Forall (fun tr => is_fast_partial tr = true) closed /\
       trades_last_hour s' = trades_last_hour s) \/
      (exists pos tr, positions s !! k = Some pos /\
         List.last closed tr = tr /\ In tr closed /\ is_fast_partial tr = false /\
         tr_exit_ts tr = ts /\
         trades_last_hour s' =
           <[symbol pos := last_hour ts (default [] (trades_last_hour s !! symbol pos))
                           ++ [ts]]> (trades_last_hour s)))).
Proof.
  split.
  - intros s s' k ts price signal rex imb side0 p H.
    apply open_position_spec in H as [(Hn & _) | (p' & _ & _ & _ & _ & _ & _ & _ & _ & _ & _ & _ & _ & ->)];
      [discriminate |].
    pose proof (day_checked_frame s k ts) as (_ & _ & _ & _ & _ & Hlh & Htt & _).
    simpl. split; assumption.
  - intros s s' k ts price vol imbalance vol_norm closed H.
    apply on_price_tick_spec in H as (s1 & -> & H).
    pose proof (_reset_if_new_day_counters s ts) as (Htt0 & Hlh0 & _).
    simpl. destruct (positions s !! k) as [pos |] eqn:Epos.
    + destruct H as (p' & clp & clf & -> & _ & _ & Hp & Hf & Htt & _).
      split; [rewrite Htt, Htt0; reflexivity |].
      assert (Hclp : Forall (fun tr => is_fast_partial tr = true) clp).
      { destruct Hp as [(-> & _) | (tr & -> & Hl & _)]; [constructor |].
        constructor; [| constructor]. unfold is_fast_partial. rewrite Hl. reflexivity. }
      destruct Hf as [(-> & _ & _ & Hlh & _) | (tr & -> & Hl & _ & _ & _ & Hxts & _ & _ & _ & Hlh)].
      * left. rewrite app_nil_r. split; [exact Hclp |]. congruence.
      * right. exists pos, tr. split; [reflexivity |].
        split; [apply last_last |]. split; [apply in_or_app; right; left; reflexivity |].
        split; [unfold is_fast_partial; destruct (fst (tr_reason tr)); congruence |].
        rewrite Hlh, Hlh0. split; [exact Hxts | reflexivity].
    + destruct H as (-> & ->). split; [rewrite Htt0; unfold py_len; simpl; lia |].
      left. split; [constructor | exact Hlh0].
Qed.

(** On the btcusdt open and its time stop. *)
Lemma trade_counters_count_closes_witness :
  _trades_today pf_btc_open = day_base pf_first_tick 1000 /\
  _trades_today (state_of btc_time_stop)
  = (day_base pf_btc_open 1600 + py_len (closed_of btc_time_stop))%Z.
Proof.
  destruct trade_counters_count_closes as (Hopen & Htick).
  assert (Eo : open_position pf_first_tick "btcusdt" 1000 100 (long_signal "btcusdt")
                 100 0 "LONG" = Ok (Some btc_long, pf_btc_open))
    by (vm_compute; reflexivity).
  assert (Et : on_price_tick pf_btc_open "btcusdt" 1600 100 None (Some 0) None
               = Ok (closed_of btc_time_stop, state_of btc_time_stop))
    by (vm_compute; reflexivity).
  split.
  - exact (proj1 (Hopen _ _ _ _ _ _ _ _ _ _ Eo)).
  - exact (proj1 (Htick _ _ _ _ _ _ _ _ _ Et)).
Defined.

(** C3, as stated, fails: the successful open of the btcusdt long leaves the
    trades-today counter at 0 and the hourly list of btcusdt empty; the
    close of that position is what sets the counter to 1 and puts a
    timestamp (the close's) on the list. *)
Lemma open_does_not_count :
  open_position pf_first_tick "btcusdt" 1000 100 (long_signal "btcusdt") 100 0 "LONG"
  = Ok (Some btc_long, pf_btc_open) /\
  _trades_today pf_first_tick = 0%Z /\
  _trades_today pf_btc_open = 0%Z /\
  trades_last_hour pf_btc_open !! "btcusdt"%string = Some [] /\
  _trades_today (state_of btc_time_stop) = 1%Z /\
  trades_last_hour (state_of btc_time_stop) !! "btcusdt"%string = Some [1600].
Proof.
  repeat split; vm_compute; reflexivity.
Qed.

(** * The stop after breakeven *)

Lemma is_open_true (s : GlobalPortfolio) (k : string) :
  is_open s k = true <-> exists p, positions s !! k = Some p.
Proof.
  unfold is_open. destruct (positions s !! k); split; eauto; try discriminate.
  intros (p & Hp). discriminate.
Qed.

Lemma _recompute_equity_positions (s : GlobalPortfolio) (prices : gmap string Q) :
  positions (_recompute_equity s prices) = positions s.
Proof. reflexivity. Qed.

Lemma stop_kept_refl (p : Position) : stop_kept p p.
Proof. intros Hb. split; [exact Hb |]. split; intros _; lra. Qed.

Lemma stop_kept_trans (p q r : Position) :
  side q = side p -> stop_kept p q -> stop_kept q r -> stop_kept p r.
Proof.
  intros Hs Hpq Hqr Hb. destruct (Hpq Hb) as (Hbq & Hl & Hsh).
  destruct (Hqr Hbq) as (Hbr & Hl' & Hsh').
  assert (His : is_long q = is_long p) by (unfold is_long; rewrite Hs; reflexivity).
  rewrite His in *. split; [exact Hbr |].
  split; intros Hlong; [specialize (Hl Hlong); specialize (Hl' Hlong)
                       | specialize (Hsh Hlong); specialize (Hsh' Hlong)]; lra.
Qed.

(** One event and a position that is open before and after it. *)
Lemma step_stop_kept (s s' : GlobalPortfolio) (e : Event) (closed : list TradeRecord)
    (k : string) (p p' : Position) :
  step s e = Ok (closed, s') ->
  positions s !! k = Some p -> positions s' !! k = Some p' ->
  side p' = side p /\ stop_kept p p'.
Proof.
  intros Hstep Hp Hp'. destruct e as [k' ts price vol imb vn | k' ts price sg rex ei sd];
    simpl in Hstep.
  - apply on_price_tick_spec in Hstep as (s1 & -> & H).
    rewrite _recompute_equity_positions in Hp'.
    destruct (decide (k' = k)) as [-> | Hne].
    + rewrite Hp in H.
      destruct H as (q & clp & clf & _ & Hst & Hstop & _ & Hf & _).
      assert (q = p').
      { destruct Hf as [(_ & Hps & _) | (tr & _ & _ & _ & _ & _ & _ & _ & Hps & _)];
          rewrite Hps, ?_reset_if_new_day_positions in Hp'.
        - rewrite lookup_insert_eq in Hp'. congruence.
        - apply lookup_delete_Some in Hp' as (_ & Hp').
          rewrite lookup_insert_eq in Hp'. congruence. }
      subst q. split; [apply Hst | exact Hstop].
    + assert (p' = p); [| subst p'; split; [reflexivity | apply stop_kept_refl]].
      destruct (positions s !! k') as [pos |].
      * destruct H as (q & clp & clf & _ & _ & _ & _ & Hf & _).
        destruct Hf as [(_ & Hps & _) | (tr & _ & _ & _ & _ & _ & _ & _ & Hps & _)];
          rewrite Hps, ?_reset_if_new_day_positions in Hp'.
        -- rewrite lookup_insert_ne in Hp' by exact Hne. congruence.
        -- apply lookup_delete_Some in Hp' as (_ & Hp').
           rewrite lookup_insert_ne in Hp' by exact Hne. congruence.
      * destruct H as (_ & ->). rewrite _reset_if_new_day_positions in Hp'. congruence.
  - apply bind_Ok in Hstep as ([r s1] & Ho & Hs). injection Hs as _ <-.
    assert (p' = p); [| subst p'; split; [reflexivity | apply stop_kept_refl]].
    apply open_position_spec in Ho
      as [(_ & [-> | [-> | ->]]) | (q & _ & Hnone & _ & _ & _ & _ & _ & _ & _ & _ & _ & _ & ->)].
    + congruence.
    + simpl in Hp'. congruence.
    + pose proof (day_checked_frame s k' ts) as (_ & _ & Hps & _). rewrite Hps in Hp'.
      congruence.
    + simpl in Hp'. destruct (decide (k' = k)) as [-> | Hne]; [congruence |].
      rewrite lookup_insert_ne in Hp' by exact Hne. congruence.
Qed.

(** C5: once breakeven has been done for an open position, no sequence of
    events that keeps the position open loosens its stop: breakeven stays
    done, the stop of a LONG does not decrease and the stop of any other
    side (SHORT) does not increase. *)
Theorem stop_never_loosened (k : string) (es : list Event)
    (s s' : GlobalPortfolio) (p p' : Position) :
  held k s es = Some s' ->
  positions s !! k = Some p -> positions s' !! k = Some p' ->
  breakeven_done p = true ->
  breakeven_done p' = true /\
  (side p = "LONG"%string -> sl_price p <= sl_price p') /\
  (side p <> "LONG"%string -> sl_price p' <= sl_price p).
Proof.
  intros Hheld Hp Hp' Hb.
  enough (Hk : side p' = side p /\ stop_kept p p').
  { destruct Hk as (_ & Hk). destruct (Hk Hb) as (Hb' & Hl & Hs).
    split; [exact Hb' |]. unfold is_long in *. split; intros Hside.
    - apply Hl. rewrite Hside. reflexivity.
    - apply Hs. apply String.eqb_neq. exact Hside. }
  clear Hb. revert s p Hheld Hp.
  induction es as [| e es IH]; intros s p Hheld Hp; simpl in Hheld.
  - injection Hheld as <-. assert (p' = p) by congruence. subst p'.
    split; [reflexivity | apply stop_kept_refl].
  - destruct (step s e) as [[closed s1] | exc] eqn:Hstep; [| discriminate].
    destruct (is_open s1 k) eqn:Hopen; [| discriminate].
    apply is_open_true in Hopen as (p1 & Hp1).
    destruct (step_stop_kept _ _ _ _ _ _ _ Hstep Hp Hp1) as (Hside1 & Hk1).
    destruct (IH _ _ Hheld Hp1) as (Hside2 & Hk2).
    split; [congruence |]. eapply stop_kept_trans; eassumption.
Qed.

(** On the example session: after breakeven the ethusdt stop is trailed up
    and never down. *)
Lemma stop_never_loosened_witness :
  held "ethusdt" (state_of eth_2006) eth_hold_events = Some pf_eth_held /\
  breakeven_done (position_at (state_of eth_2006) "ethusdt") = true /\
  breakeven_done (position_at pf_eth_held "ethusdt") = true /\
  sl_price (position_at (state_of eth_2006) "ethusdt")
  <= sl_price (position_at pf_eth_held "ethusdt").
Proof.
  assert (Hheld : held "ethusdt" (state_of eth_2006) eth_hold_events = Some pf_eth_held)
    by (vm_compute; reflexivity).
  assert (Hp : positions (state_of eth_2006) !! "ethusdt"%string
               = Some (position_at (state_of eth_2006) "ethusdt"))
    by (vm_compute; reflexivity).
  assert (Hp' : positions pf_eth_held !! "ethusdt"%string
                = Some (position_at pf_eth_held "ethusdt"))
    by (vm_compute; reflexivity).
  assert (Hb : breakeven_done (position_at (state_of eth_2006) "ethusdt") = true)
    by (vm_compute; reflexivity).
  destruct (stop_never_loosened _ _ _ _ _ _ Hheld Hp Hp' Hb) as (Hb' & Hl & _).
  split; [exact Hheld |]. split; [exact Hb |]. split; [exact Hb' |].
  apply Hl. vm_compute. reflexivity.
Defined.

(** * Quantity over the life of a position *)

Lemma sum_qty_app (a b : list TradeRecord) :
  sum_qty (a ++ b) == sum_qty a + sum_qty b.
Proof.
  induction a as [| tr a IH]; simpl; [lra |].
  unfold sum_qty in *. simpl. rewrite IH. lra.
Qed.

Lemma keyed_insert (s : GlobalPortfolio) (k : string) (p : Position) :
  keyed s -> symbol p = k ->
  forall k' q, <[k := p]> (positions s) !! k' = Some q -> symbol q = k'.
Proof.
  intros Hk Hp k' q H. destruct (decide (k = k')) as [<- | Hne].
  - rewrite lookup_insert_eq in H. congruence.
  - rewrite lookup_insert_ne in H by exact Hne. eauto.
Qed.

(** [keyed] is an invariant of the runs. *)
Lemma keyed_init : keyed GlobalPortfolio_init.
Proof. intros k p H. simpl in H. rewrite lookup_empty in H. discriminate. Qed.

Lemma step_keyed (s s' : GlobalPortfolio) (e : Event) (closed : list TradeRecord) :
  keyed s -> step s e = Ok (closed, s') -> keyed s'.
Proof.
  intros Hk Hstep.
  destruct e as [k' ts price vol imb vn | k' ts price sg rex ei sd]; simpl in Hstep.
  - apply on_price_tick_spec in Hstep as (s1 & -> & H).
    unfold keyed. rewrite _recompute_equity_positions.
    destruct (positions s !! k') as [pos |] eqn:Epos.
    + pose proof (Hk _ _ Epos) as Hsym.
      destruct H as (q & clp & clf & _ & Hst & _ & _ & Hf & _).
      assert (Hq : symbol q = k') by (destruct Hst as (E & _); congruence).
      destruct Hf as [(_ & Hps & _) | (tr & _ & _ & _ & _ & _ & _ & _ & Hps & _)];
        rewrite Hps, _reset_if_new_day_positions.
      * apply keyed_insert; assumption.
      * intros k0 q0 H0. apply lookup_delete_Some in H0 as (_ & H0).
        eapply keyed_insert; eassumption.
    + destruct H as (_ & ->). rewrite _reset_if_new_day_positions. exact Hk.
  - apply bind_Ok in Hstep as ([r s1] & Ho & Hs). injection Hs as _ <-.
    apply open_position_spec in Ho
      as [(_ & [-> | [-> | ->]]) | (q & _ & _ & _ & Hsym & _ & _ & _ & _ & _ & _ & _ & _ & ->)].
    + exact Hk.
    + exact Hk.
    + pose proof (day_checked_frame s k' ts) as (_ & _ & Hps & _).
      unfold keyed. rewrite Hps. exact Hk.
    + unfold keyed. simpl. apply keyed_insert; assumption.
Qed.

Lemma run_keyed (es : list Event) (s s' : GlobalPortfolio) :
  keyed s -> run s es = Some s' -> keyed s'.
Proof.
  revert s. induction es as [| e es IH]; intros s Hk H; simpl in H.
  - injection H as <-. exact Hk.
  - destruct (step s e) as [[closed s1] | exc] eqn:Hstep; [| discriminate].
    eapply IH; [| exact H]. eapply step_keyed; eassumption.
Qed.

Lemma step_keyed_at (s s' : GlobalPortfolio) (e : Event) (closed : list TradeRecord)
    (k : string) (p : Position) :
  keyed s -> positions s !! k = Some p -> step s e = Ok (closed, s') ->
  keyed s' /\ step_at k p e closed s'.
Proof.
  intros Hk Hp Hstep.
  destruct e as [k' ts price vol imb vn | k' ts price sg rex ei sd]; simpl in Hstep.
  - apply on_price_tick_spec in Hstep as (s1 & -> & H).
    set (s' := _recompute_equity s1 _).
    assert (Hs' : positions s' = positions s1) by reflexivity. clearbody s'.
    destruct (positions s !! k') as [pos |] eqn:Epos.
    + pose proof (Hk _ _ Epos) as Hsym.
      destruct H as (q & clp & clf & -> & Hst & _ & Hpart & Hf & _).
      assert (Hq : symbol q = k') by (destruct Hst as (E & _); congruence).
      destruct Hf as [(-> & Hps & _) | (tr & -> & Hl & Hqty & _ & _ & _ & _ & Hps & _)];
        rewrite Hps, _reset_if_new_day_positions, ?Hsym in Hs'; unfold keyed;
        rewrite Hs'.
      * split; [apply keyed_insert; assumption |]. rewrite app_nil_r.
        destruct (decide (k' = k)) as [-> | Hne].
        -- assert (pos = p) by congruence. subst pos.
           eapply at_managed; [reflexivity | reflexivity | exact Hpart |].
           rewrite Hs'. apply lookup_insert_eq.
        -- apply at_untouched; [left; exact Hne |].
           rewrite Hs', lookup_insert_ne by exact Hne. exact Hp.
      * split.
        { intros k0 q0 H0. apply lookup_delete_Some in H0 as (_ & H0).
          eapply keyed_insert; eassumption. }
        destruct (decide (k' = k)) as [-> | Hne].
        -- assert (pos = p) by congruence. subst pos.
           eapply at_closed; [reflexivity | reflexivity | exact Hpart | | exact Hqty |].
           ++ unfold is_fast_partial. destruct (fst (tr_reason tr)); congruence.
           ++ rewrite Hs'. apply lookup_delete_eq.
        -- apply at_untouched; [left; exact Hne |].
           rewrite Hs', lookup_delete_ne by exact Hne.
           rewrite lookup_insert_ne by exact Hne. exact Hp.
    + destruct H as (-> & ->). rewrite _reset_if_new_day_positions in Hs'.
      split; [unfold keyed; rewrite Hs'; exact Hk |].
      apply at_untouched; [right; reflexivity | rewrite Hs'; exact Hp].
  - apply bind_Ok in Hstep as ([r s1] & Ho & Hs). injection Hs as <- <-.
    apply open_position_spec in Ho
      as [(_ & [-> | [-> | ->]]) | (q & _ & Hnone & _ & Hsym & _ & _ & _ & _ & _ & _ & _ & _ & ->)].
    + split; [exact Hk |]. apply at_untouched; [right; reflexivity | exact Hp].
    + split; [exact Hk |]. apply at_untouched; [right; reflexivity | exact Hp].
    + pose proof (day_checked_frame s k' ts) as (_ & _ & Hps & _).
      split; [unfold keyed; rewrite Hps; exact Hk |].
      apply at_untouched; [right; reflexivity | rewrite Hps; exact Hp].
    + split; [unfold keyed; simpl; apply keyed_insert; assumption |].
      apply at_untouched; [right; reflexivity |]. simpl.
      destruct (decide (k' = k)) as [-> | Hne]; [congruence |].
      rewrite lookup_insert_ne by exact Hne. exact Hp.
Qed.

Lemma life_closed (k : string) (s s' : GlobalPortfolio) (es : list Event)
    (recs : list TradeRecord) :
  positions s !! k = None -> life k s es = Some (recs, s') ->
  recs = [] /\ s' = s.
Proof.
  intros Hnone H. destruct es as [| e es]; simpl in H.
  - injection H as <- <-. split; reflexivity.
  - unfold is_open in H. rewrite Hnone in H. discriminate.
Qed.

Lemma fast_partials_app (a b : list TradeRecord) :
  fast_partials (a ++ b) = (fast_partials a + fast_partials b)%nat.
Proof. unfold fast_partials. rewrite List.filter_app, length_app. reflexivity. Qed.

Lemma partial_step_conserved (k : string) (p p' : Position) (clp recs : list TradeRecord)
    (s' : GlobalPortfolio) :
  partial_step p p' clp -> conserved k p' recs s' -> conserved k p (clp ++ recs) s'.
Proof.
  intros Hpart (Hsum & Hcount & Hfull).
  destruct Hpart as [(-> & Hq & Hpt) | (tr & -> & Hl & Hpt & Hpt' & Hqt & Hpos & Hq)].
  - simpl. unfold conserved. rewrite <- Hq, <- Hpt.
    split; [exact Hsum | split; [exact Hcount | exact Hfull]].
  - assert (Hfast : is_fast_partial tr = true)
      by (unfold is_fast_partial; rewrite Hl; reflexivity).
    split; [| split].
    + simpl. unfold sum_qty in *. simpl. rewrite Hq in Hsum. lra.
    + rewrite fast_partials_app. rewrite Hpt, Hpt' in *.
      unfold fast_partials at 1. simpl. rewrite Hfast. simpl. lia.
    + intros recs1 tr0 recs2 E Hnf. destruct recs1 as [| r1 recs1]; simpl in E.
      * injection E as <- _. congruence.
      * injection E as <- E. destruct (Hfull _ _ _ E Hnf) as (H1 & H2 & H3).
        split; [exact H1 |]. split; [| exact H3].
        unfold sum_qty in *. simpl. rewrite Hq in H2. lra.
Qed.

Lemma life_conserved (k : string) (es : list Event) :
  forall (s s' : GlobalPortfolio) (p : Position) (recs : list TradeRecord),
    keyed s -> positions s !! k = Some p -> life k s es = Some (recs, s') ->
    conserved k p recs s'.
Proof.
  induction es as [| e es IH]; intros s s' p recs Hk Hp Hlife; simpl in Hlife.
  - injection Hlife as <- <-. unfold conserved, remaining. rewrite Hp.
    split; [unfold sum_qty; simpl; lra |]. split.
    + unfold fast_partials. simpl. lia.
    + intros recs1 tr recs2 E. destruct recs1; discriminate.
  - unfold is_open in Hlife. rewrite Hp in Hlife.
    destruct (step s e) as [[closed s1] | exc] eqn:Hstep; [| discriminate].
    destruct (life k s1 es) as [[recs' s2] |] eqn:Hrest; [| discriminate].
    injection Hlife as <- <-.
    destruct (step_keyed_at _ _ _ _ _ _ Hk Hp Hstep) as (Hk1 & Hat).
    destruct Hat as [Hun Hp1 | p' clp Hsym -> Hpart Hp1
                     | p' clp tr Hsym -> Hpart Hnf Hqty Hnone].
    + assert (E : (if String.eqb (event_symbol e) k then closed else []) = []).
      { destruct Hun as [Hne | ->]; [| destruct (String.eqb _ _); reflexivity].
        apply String.eqb_neq in Hne. rewrite Hne. reflexivity. }
      rewrite E. simpl. eapply IH; eassumption.
    + rewrite Hsym, String.eqb_refl.
      eapply partial_step_conserved; [exact Hpart |]. eapply IH; eassumption.
    + rewrite Hsym, String.eqb_refl.
      destruct (life_closed _ _ _ _ _ Hnone Hrest) as (-> & ->).
      rewrite app_nil_r. eapply partial_step_conserved; [exact Hpart |].
      unfold conserved, remaining. rewrite Hnone.
      split; [unfold sum_qty; simpl; rewrite Hqty; lra |]. split.
      * unfold fast_partials. simpl. rewrite Hnf. simpl. lia.
      * intros recs1 tr0 recs2 E _.
        destruct recs1 as [| r1 recs1]; simpl in E.
        -- injection E as <- <-. split; [reflexivity |].
           split; [rewrite Hqty; unfold sum_qty; simpl; lra | reflexivity].
        -- injection E as _ E. destruct recs1; discriminate.
Qed.

(** C6: over the life of a position, from its open on, the fast partial
    take-profit closes at most once; the quantities of the records closed
    for it and the quantity still open sum to the entry quantity; and a
    record of a full close is the last one, closes what was left then, and
    leaves no position under the symbol. *)
Theorem position_quantity_conserved (s0 s s' : GlobalPortfolio) (k : string)
    (ts price : Q) (signal : Signal) (recent_extreme_price entry_imbalance : Q)
    (side0 : string) (p : Position) (es : list Event) (recs : list TradeRecord) :
  keyed s0 ->
  open_position s0 k ts price signal recent_extreme_price entry_imbalance side0
  = Ok (Some p, s) ->
  life k s es = Some (recs, s') ->
  (fast_partials recs <= 1)%nat /\
  sum_qty recs + remaining s' k == initial_qty p /\
  (forall recs1 tr recs2,
     recs = recs1 ++ tr :: recs2 -> is_fast_partial tr = false ->
     recs2 = [] /\ tr_qty tr == initial_qty p - sum_qty recs1 /\
     positions s' !! k = None).
Proof.
  intros Hk Hopen Hlife.
  apply open_position_spec in Hopen
    as [(Hn & _) | (p' & Hp & Hnone & _ & Hsym & _ & _ & Hiq & _ & Hpt & _ & _ & _ & ->)];
    [discriminate |].
  injection Hp as <-.
  assert (Hk1 : keyed (set_positions
                  (set_balance (day_checked s0 k ts)
                     (balance s0 - price * qty p * fee_maker s0))
                  (<[k := p]> (positions s0)))).
  { unfold keyed. simpl. apply keyed_insert; assumption. }
  eapply life_conserved in Hlife; [| exact Hk1 | simpl; apply lookup_insert_eq].
  destruct Hlife as (Hsum & Hcount & Hfull). rewrite Hpt in Hcount. rewrite Hiq.
  repeat split; try assumption; eapply Hfull; eassumption.
Qed.

Lemma keyedb_keyed (s : GlobalPortfolio) : keyedb s = true -> keyed s.
Proof.
  unfold keyedb, keyed. intros H k p Hp.
  rewrite forallb_forall in H.
  apply elem_of_map_to_list, list_elem_of_In in Hp.
  specialize (H _ Hp). simpl in H. apply String.eqb_eq. exact H.
Qed.

(** On the example session: the ethusdt long is closed in two records, a
    fast partial and a stop, that sum to its entry quantity. *)
Lemma position_quantity_conserved_witness :
  life "ethusdt" pf_two_open eth_life_events
  = Some (life_records eth_life, life_state eth_life) /\
  length (life_records eth_life) = 2%nat /\
  positions (life_state eth_life) !! "ethusdt"%string = None /\
  (fast_partials (life_records eth_life) <= 1)%nat /\
  sum_qty (life_records eth_life) + remaining (life_state eth_life) "ethusdt"
  == initial_qty eth_long.
Proof.
  assert (Eo : open_position pf_btc_up "ethusdt" 1002 2000 (long_signal "ethusdt")
                 1990 0 "LONG" = Ok (Some eth_long, pf_two_open))
    by (vm_compute; reflexivity).
  assert (El : life "ethusdt" pf_two_open eth_life_events
               = Some (life_records eth_life, life_state eth_life))
    by (vm_compute; reflexivity).
  assert (Hk : keyed pf_btc_up) by (apply keyedb_keyed; vm_compute; reflexivity).
  destruct (position_quantity_conserved _ _ _ _ _ _ _ _ _ _ _ _ _ Hk Eo El)
    as (Hcount & Hsum & _).
  split; [exact El |].
  split; [vm_compute; reflexivity |]. split; [vm_compute; reflexivity |].
  split; assumption.
Defined.

(** * Equity after a tick *)

Lemma equity_fold_single (fee : Q) (k : string) (price b : Q)
    (m : gmap string Position) :
  map_fold (fun symbol pos eq =>
              match ({[k := price]} : gmap string Q) !! symbol with
              | None => eq
              | Some price => eq + position_value fee pos price
              end) b m
  = match m !! k with
    | Some p => b + position_value fee p price
    | None => b
    end.
Proof.
  induction m as [| i x m Hnone Hfirst IH] using map_first_key_ind.
  - rewrite map_fold_empty, lookup_empty. reflexivity.
  - rewrite map_fold_insert_first_key by assumption. rewrite IH.
    destruct (decide (i = k)) as [-> | Hne].
    + rewrite lookup_singleton_eq, lookup_insert_eq, Hnone. reflexivity.
    + rewrite lookup_singleton_ne by congruence.
      rewrite lookup_insert_ne by exact Hne. reflexivity.
Qed.

(** What [on_price_tick] leaves in [equity]: the balance and the value of
    the position of the symbol that ticked, if it is still open. *)
Lemma on_price_tick_equity (s s' : GlobalPortfolio) (k : string) (ts price : Q)
    (vol imbalance vol_norm : option Q) (closed : list TradeRecord) :
  on_price_tick s k ts price vol imbalance vol_norm = Ok (closed, s') ->
  equity s' = match positions s' !! k with
              | Some p => balance s' + position_value (fee_taker s') p price
              | None => balance s'
              end.
Proof.
  intros H. apply on_price_tick_spec in H as (s1 & -> & _).
  unfold _recompute_equity. simpl. apply equity_fold_single.
Qed.

(** C1 fails on the code: with longs open on btcusdt and ethusdt, the tick
    of ethusdt at 2001 (btcusdt last seen at 100.1) leaves in [equity] the
    balance and the value of the ethusdt position only; the mark-to-market
    sum over both positions at their latest prices, which
    [_recompute_equity] gives when it is handed both prices, is higher by
    the value of the btcusdt position. *)
Theorem equity_ignores_other_positions :
  on_price_tick pf_btc_tick "ethusdt" 1004 2001 None (Some 0) None
  = Ok ([], pf_eth_tick) /\
  is_open pf_eth_tick "btcusdt" = true /\ is_open pf_eth_tick "ethusdt" = true /\
  equity pf_eth_tick == 801686003 # 16100000 /\
  equity (_recompute_equity pf_eth_tick latest_prices) == 810374207 # 16100000 /\
  ~ equity pf_eth_tick == equity (_recompute_equity pf_eth_tick latest_prices).
Proof.
  split; [vm_compute; reflexivity |].
  split; [vm_compute; reflexivity |]. split; [vm_compute; reflexivity |].
  split; [vm_compute; reflexivity |]. split; [vm_compute; reflexivity |].
  vm_compute. discriminate.
Qed.

(** * The calls return *)

Lemma tracked_init : tracked GlobalPortfolio_init.
Proof. intros k p H. simpl in H. rewrite lookup_empty in H. discriminate. Qed.

Lemma tracked_insert (m : gmap string Position) (k : string) (p : Position) :
  (forall k' q, m !! k' = Some q -> tracked_position q) -> tracked_position p ->
  forall k' q, <[k := p]> m !! k' = Some q -> tracked_position q.
Proof.
  intros Hm Hp k' q H. destruct (decide (k = k')) as [<- | Hne].
  - rewrite lookup_insert_eq in H. congruence.
  - rewrite lookup_insert_ne in H by exact Hne. eauto.
Qed.

Lemma _update_trade_management_returns (pos : Position) (price : Q) :
  tracked_position pos ->
  exists pos', _update_trade_management pos price = Ok pos' /\ tracked_position pos'.
Proof.
  intros ((a & Ha) & (b & Hb)). unfold _update_trade_management.
  set (move := if is_long pos then price - _ else _). clearbody move.
  destruct (is_long pos); rewrite ?Ha, ?Hb; simpl;
    (eexists; split; [reflexivity |]);
    unfold trailing, breakeven, tracked_position;
    repeat match goal with
           | |- context [if ?c then _ else _] => destruct c; simpl
           end; eauto.
Qed.

Lemma _update_adverse_ticks_tracked (pos : Position) (price : Q) :
  tracked_position pos -> tracked_position (_update_adverse_ticks pos price).
Proof.
  unfold _update_adverse_ticks, tracked_position.
  destruct (Qle_bool _ 0); simpl; auto.
Qed.

Lemma partial_tp_tracked (s : GlobalPortfolio) (pos : Position) (ts price : Q) :
  tracked_position pos ->
  tracked_position (snd (fst (partial_tp s pos ts price))) /\
  positions (snd (partial_tp s pos ts price)) = positions s.
Proof.
  unfold partial_tp, _close_partial, tracked_position. intros H.
  repeat match goal with
         | |- context [if ?c then _ else _] => destruct c; simpl
         end; auto.
Qed.

Lemma _check_no_progress_off (pos : Position) (price ts : Q) :
  _check_no_progress pos price ts = Ok false.
Proof. reflexivity. Qed.

Lemma later_exits_returns (pos : Position) (exit : option (Q * ExitLabel))
    (ts price : Q) (imbalance vol_norm : option Q) :
  exists pos' exit',
    later_exits pos exit ts price imbalance vol_norm = Ok (pos', exit') /\
    (tracked_position pos -> tracked_position pos').
Proof.
  unfold later_exits.
  destruct exit as [e |].
  - simpl. do 2 eexists. split; [reflexivity | auto].
  - pose proof (_check_invalid_imb_close_frame pos imbalance ts) as _.
    assert (Hi : tracked_position pos ->
                 tracked_position (fst (_check_invalid_imb_close pos imbalance ts))).
    { unfold _check_invalid_imb_close, tracked_position.
      destruct imbalance; simpl; auto.
      repeat match goal with
             | |- context [if ?c then _ else _] => destruct c; simpl
             end; auto. }
    destruct (_check_invalid_imb_close pos imbalance ts) as [p1 reason].
    simpl in Hi. destruct reason as [r |]; simpl.
    + do 2 eexists. split; [reflexivity | exact Hi].
    + rewrite ?_check_no_progress_off. simpl.
      do 2 eexists. split; [reflexivity | exact Hi].
Qed.

(** A tick of a portfolio whose positions are tracked returns, and leaves
    a portfolio whose positions are tracked. *)
Lemma on_price_tick_returns (s : GlobalPortfolio) (k : string) (ts price : Q)
    (vol imbalance vol_norm : option Q) :
  tracked s ->
  exists closed s',
    on_price_tick s k ts price vol imbalance vol_norm = Ok (closed, s') /\ tracked s'.
Proof.
  intros Ht. unfold on_price_tick.
  rewrite _reset_if_new_day_positions.
  set (s0 := _reset_if_new_day s ts).
  assert (Ht0 : forall k' q, positions s0 !! k' = Some q -> tracked_position q).
  { subst s0. rewrite _reset_if_new_day_positions. exact Ht. }
  clearbody s0.
  destruct (positions s !! k) as [pos |] eqn:Epos.
  - unfold manage_position.
    destruct (_update_trade_management_returns pos price (Ht _ _ Epos))
      as (p1 & -> & Hp1). simpl.
    apply (_update_adverse_ticks_tracked _ price) in Hp1.
    destruct (partial_tp_tracked s0 _ ts price Hp1) as (Hp3 & Hps3).
    destruct (partial_tp s0 (_update_adverse_ticks p1 price) ts price)
      as [[clp p3] s3]. simpl in Hp3, Hps3.
    destruct (later_exits_returns p3 (sl_tp_exit p3 price) ts price imbalance vol_norm)
      as (p4 & exit & -> & Hp4). simpl. specialize (Hp4 Hp3).
    assert (Hins : forall k' q, <[k := p4]> (positions s3) !! k' = Some q ->
                                tracked_position q).
    { rewrite Hps3. apply tracked_insert; assumption. }
    destruct exit as [[ep lbl] |]; [destruct (Qlt_bool 0 (qty p4)) eqn:Eq |].
    + qprop.
      destruct (_close_full_spec (set_positions s3 (<[k := p4]> (positions s3)))
                  p4 ts ep lbl Eq) as (tr & s5 & -> & Hfc).
      simpl. do 2 eexists. split; [reflexivity |].
      destruct Hfc as (_ & _ & _ & _ & _ & Hps & _).
      intros k' q H. simpl in H. rewrite Hps in H. simpl in H.
      apply lookup_delete_Some in H as (_ & H). eauto.
    + simpl. do 2 eexists. split; [reflexivity |]. exact Hins.
    + simpl. do 2 eexists. split; [reflexivity |]. exact Hins.
  - simpl. do 2 eexists. split; [reflexivity |]. exact Ht0.
Qed.

Lemma _calc_qty_from_risk_returns (s : GlobalPortfolio) (entry_price sl_price risk_pct : Q) :
  0 <= balance s ->
  exists q, _calc_qty_from_risk s entry_price sl_price risk_pct = Ok q.
Proof.
  intros Hbal. unfold _calc_qty_from_risk.
  destruct (Qle_bool (Qabs (entry_price - sl_price)) 0); [eauto |].
  set (q0 := risk_qty s entry_price sl_price risk_pct).
  destruct (Qlt_bool (balance s) (entry_price * q0 / LEVERAGE)) eqn:Em; [| eauto].
  qprop. unfold py_div.
  destruct (Qeq_bool (entry_price * q0) 0) eqn:Ez; [| simpl; eauto].
  apply Qeq_bool_iff in Ez.
  assert (entry_price * q0 / LEVERAGE == 0) by (rewrite Ez; reflexivity). lra.
Qed.

(** An open attempt on a portfolio whose balance is not negative returns. *)
Lemma open_position_returns (s : GlobalPortfolio) (k : string) (ts price : Q)
    (signal : Signal) (recent_extreme_price entry_imbalance : Q) (side0 : string) :
  0 <= balance s ->
  exists r s',
    open_position s k ts price signal recent_extreme_price entry_imbalance side0
    = Ok (r, s').
Proof.
  intros Hbal. unfold open_position.
  destruct (positions s !! k); [eauto |].
  destruct (Qlt_bool _ COOLDOWN_AFTER_TRADE_SEC); [eauto |].
  fold (hour_pruned s k ts).
  destruct (_ >=? _)%Z; [eauto |].
  destruct (Qle_bool (_max_new_risk_pct_allowed (hour_pruned s k ts)) 0); [eauto |].
  set (risk := if Qlt_bool _ _ then _ else _).
  pose proof (_can_open_trade_state (hour_pruned s k ts) ts risk) as Hst.
  destruct (_can_open_trade (hour_pruned s k ts) ts risk) as [can s2].
  simpl in Hst. fold (day_checked s k ts) in Hst. subst s2.
  pose proof (day_checked_frame s k ts) as (Hb & _).
  destruct can; cbn [negb]; [| eauto].
  match goal with
  | |- context [_calc_qty_from_risk ?s2 ?e ?sl ?r] =>
      destruct (_calc_qty_from_risk_returns s2 e sl r) as (q & ->);
        [rewrite Hb; exact Hbal |]
  end.
  cbn [mbind result_bind].
  destruct q as [q |]; [| eauto].
  repeat match goal with
         | |- context [if ?c then _ else _] => destruct c
         end; eauto.
Qed.

(** * The clock and the slices, on known values *)

Example tm_yday_epoch : tm_yday 0 = 1%Z.
Proof. reflexivity. Qed.

Example tm_yday_last_second_of_1969 : tm_yday (- (1)) = 365%Z.
Proof. reflexivity. Qed.

Example tm_yday_2024_leap_day : tm_yday (1704067200 + 59 * 86400 + 5) = 60%Z.
Proof. reflexivity. Qed.

Example tm_yday_2024_last_day : tm_yday (1704067200 + 365 * 86400) = 366%Z.
Proof. reflexivity. Qed.

Example tm_yday_2023_march_first : tm_yday (1704067200 - 365 * 86400 + 59 * 86400) = 60%Z.
Proof. reflexivity. Qed.

Example py_slice_from_negative : py_slice_from [1; 2; 3; 4]%Z (- 3) = [2; 3; 4]%Z.
Proof. reflexivity. Qed.

Example py_slice_to_negative : py_slice_to [1; 2; 3; 4]%Z (- 1) = [1; 2; 3]%Z.
Proof. reflexivity. Qed.

Example py_int_truncates : py_int (- (7 # 2)) = (- 3)%Z.
Proof. reflexivity. Qed.

Example deque_append_full : deque_append 3 [1; 2; 3] 4 = [2; 3; 4].
Proof. reflexivity. Qed.

(** * The order book, the statistics window and the CVD accumulator *)

Lemma fold_left_Qplus_shift (xs : list Q) (a b : Q) :
  fold_left Qplus xs (a + b) == a + fold_left Qplus xs b.
Proof.
  revert b. induction xs as [| x xs IH]; intros b; simpl; [reflexivity |].
  rewrite <- IH. assert (E : a + b + x == a + (b + x)) by ring.
  clear IH. revert E. generalize (a + b + x), (a + (b + x)). intros u v E.
  revert u v E. induction xs as [| y ys IHy]; intros u v E; simpl; [exact E |].
  apply IHy. rewrite E. reflexivity.
Qed.

(** X1: swapping the two sides of the book flips the sign of the imbalance,
    for every book and depth. *)
Theorem order_book_imbalance_antisymmetric (bids asks : list (Q * Q))
    (depth_levels : Z) :
  order_book_imbalance asks bids depth_levels
  == - order_book_imbalance bids asks depth_levels.
Proof.
  unfold order_book_imbalance.
  destruct (py_not bids), (py_not asks); simpl; try reflexivity.
  set (b := py_sum (map snd (py_slice_to bids depth_levels))).
  set (a := py_sum (map snd (py_slice_to asks depth_levels))).
  destruct (Qle_bool (a + b) 0) eqn:E1, (Qle_bool (b + a) 0) eqn:E2; qprop.
  - reflexivity.
  - lra.
  - lra.
  - field. lra.
Qed.

(** X2: levels below the first [depth_levels] of either side are not read:
    appending deeper levels to a book that already has [depth_levels]
    levels on both sides leaves the imbalance as it is. *)
Theorem order_book_imbalance_top_levels (bids asks more_bids more_asks : list (Q * Q))
    (depth_levels : Z) :
  (0 <= depth_levels)%Z ->
  (depth_levels <= py_len bids)%Z -> (depth_levels <= py_len asks)%Z ->
  order_book_imbalance (bids ++ more_bids) (asks ++ more_asks) depth_levels
  = order_book_imbalance bids asks depth_levels.
Proof.
  unfold order_book_imbalance, py_slice_to, py_len. intros H0 Hb Ha.
  assert (E : (0 <=? depth_levels)%Z = true) by (apply Z.leb_le; exact H0).
  rewrite E.
  rewrite !take_app_le by lia.
  destruct (Z.to_nat depth_levels) as [| n] eqn:En.
  - rewrite !take_0. simpl.
    destruct (py_not (bids ++ more_bids) || py_not (asks ++ more_asks))%bool,
             (py_not bids || py_not asks)%bool; reflexivity.
  - destruct bids as [| b0 bids]; [simpl in Hb; lia |].
    destruct asks as [| a0 asks]; [simpl in Ha; lia |].
    reflexivity.
Qed.

Lemma order_book_imbalance_top_levels_witness :
  order_book_imbalance ([(100, 3); (99, 5)] ++ [(98, 7)])
                       ([(101, 1); (102, 2)] ++ [(103, 9)]) 2
  = order_book_imbalance [(100, 3); (99, 5)] [(101, 1); (102, 2)] 2.
Proof.
  apply order_book_imbalance_top_levels; vm_compute; discriminate.
Defined.

(** * The statistics window *)

Lemma deque_append_length (n : nat) (d : list Q) (x : Q) :
  length (deque_append n d x) = Nat.min (S (length d)) n.
Proof.
  unfold deque_append. rewrite length_drop, length_app.
  change (length [x]) with 1%nat. lia.
Qed.

Lemma deque_append_last (n : nat) (d : list Q) (x : Q) :
  (0 < n)%nat -> deque_append n d x = drop (S (length d) - n) d ++ [x].
Proof.
  intros Hn. unfold deque_append. rewrite length_app. simpl.
  replace (length d + 1 - n)%nat with (S (length d) - n)%nat by lia.
  rewrite drop_app_le by lia. reflexivity.
Qed.

Lemma update_aligned (n k : nat) (st : MarketStats) (price cvd imbalance volume : Q) :
  aligned n k st -> aligned n (S k) (update st price cvd imbalance volume).
Proof.
  intros (Hw & Hp & Hc & Hi & Hv & Hx & Hr). unfold aligned, update.
  cbn [window_size prices cvd_history imbalances returns volumes cvd_values].
  rewrite !deque_append_length, Hw, Hp, Hc, Hi, Hv, Hx.
  repeat split; try lia.
  destruct (py_not (prices st)) eqn:Ee; [lia |].
  destruct (Qlt_bool 0 (List.last (prices st) 0)); [| lia].
  rewrite deque_append_length.
  destruct (prices st) as [| p0 ps]; [discriminate |].
  change (length (p0 :: ps)) with (S (length ps)) in Hp. lia.
Qed.

Lemma feed_aligned (samples : list (Q * Q * Q * Q)) :
  forall (n k : nat) (st : MarketStats),
    aligned n k st -> aligned n (k + length samples) (feed st samples).
Proof.
  induction samples as [| [[[p c] i] v] samples IH]; intros n k st H.
  - change (length []) with 0%nat. replace (k + 0)%nat with k by lia. exact H.
  - change (length ((p, c, i, v) :: samples)) with (S (length samples)).
    replace (k + S (length samples))%nat with (S k + length samples)%nat by lia.
    apply (IH n (S k) (update st p c i v)). apply update_aligned. exact H.
Qed.

(** X3: after [k] updates of a fresh [MarketStats(window_size=n)] the price,
    CVD, imbalance and volume series all hold the same number of samples,
    [min(k, n)]; the CVD context holds [min(k, 60)]; and there are at most
    [min(k - 1, n)] returns. *)
Theorem feed_series_lengths (n : nat) (samples : list (Q * Q * Q * Q)) :
  let st := feed (MarketStats_init n) samples in
  let k := length samples in
  window_size st = n /\
  length (prices st) = Nat.min k n /\
  length (cvd_history st) = Nat.min k n /\
  length (imbalances st) = Nat.min k n /\
  length (volumes st) = Nat.min k n /\
  length (cvd_values st) = Nat.min k CVD_CONTEXT_WINDOW_TICKS /\
  (length (returns st) <= Nat.min (k - 1) n)%nat.
Proof.
  apply (feed_aligned samples n 0 (MarketStats_init n)).
  unfold aligned, MarketStats_init.
  cbn [window_size prices cvd_history imbalances returns volumes cvd_values length].
  repeat split; lia.
Qed.

Lemma last_deque_append (n : nat) (d : list Q) (x : Q) :
  (0 < n)%nat -> List.last (deque_append n d x) 0 = x.
Proof.
  intros Hn. rewrite deque_append_last by exact Hn. apply List.last_last.
Qed.

Lemma py_index_back_1 (l : list Q) : py_index_back l 1 = List.last l 0.
Proof.
  unfold py_index_back. induction l as [| a l IH]; [reflexivity |].
  destruct l as [| b l]; [reflexivity |].
  change (List.last (a :: b :: l) 0) with (List.last (b :: l) 0).
  rewrite <- IH. simpl. replace (length l - 0)%nat with (length l) by lia.
  reflexivity.
Qed.

(** X4: [get_last_cvd] reads back the CVD of the latest update (for a
    window that can hold a sample), it is [None] exactly on an empty
    history, and whenever [get_cvd_slope] answers, its answer is that last
    CVD minus the CVD [lookback] samples before it. *)
Theorem get_last_cvd_spec (st : MarketStats) (price cvd imbalance volume : Q)
    (lookback : nat) :
  ((0 < window_size st)%nat ->
   get_last_cvd (update st price cvd imbalance volume) = Some cvd) /\
  (get_last_cvd st = None <-> cvd_history st = []) /\
  (forall slope, get_cvd_slope st lookback = Some slope ->
     exists c, get_last_cvd st = Some c /\
               slope = c - py_index_back (cvd_history st) (1 + lookback)).
Proof.
  split; [| split].
  - intros Hn. unfold get_last_cvd, update. simpl.
    rewrite last_deque_append by exact Hn.
    rewrite deque_append_last by exact Hn.
    destruct (drop _ (cvd_history st)); reflexivity.
  - unfold get_last_cvd. destruct (cvd_history st); simpl; split; congruence.
  - intros slope. unfold get_cvd_slope, get_last_cvd.
    destruct (length (cvd_history st) <=? lookback)%nat eqn:El; [discriminate |].
    apply Nat.leb_gt in El. intros H. injection H as <-.
    destruct (cvd_history st) as [| c0 cs] eqn:Ec; [simpl in El; lia |].
    exists (List.last (c0 :: cs) 0). split; [reflexivity |].
    rewrite py_index_back_1. reflexivity.
Qed.

Lemma Qmin_cases (x y : Q) : Qmin x y = x \/ Qmin x y = y.
Proof.
  unfold Qmin, GenericMinMax.gmin. destruct (x ?= y); auto.
Qed.

Lemma Qmax_cases (x y : Q) : Qmax x y = x \/ Qmax x y = y.
Proof.
  unfold Qmax, GenericMinMax.gmax. destruct (x ?= y); auto.
Qed.

Lemma fold_left_Qmin_spec (r : list Q) :
  forall x, let m := fold_left Qmin r x in
            In m (x :: r) /\ forall v, In v (x :: r) -> m <= v.
Proof.
  induction r as [| a r IH]; intros x; simpl.
  - split; [left; reflexivity |]. intros v [<- | []]. apply Qle_refl.
  - destruct (IH (Qmin x a)) as [Hin Hle]. simpl in Hin, Hle. split.
    + destruct Hin as [E | Hin]; [| right; right; exact Hin].
      destruct (Qmin_cases x a) as [C | C];
        [left | right; left]; (transitivity (Qmin x a); [symmetry; exact C | exact E]).
    + intros v [<- | [<- | Hv]].
      * eapply Qle_trans; [apply Hle; left; reflexivity | apply Q.le_min_l].
      * eapply Qle_trans; [apply Hle; left; reflexivity | apply Q.le_min_r].
      * apply Hle. right. exact Hv.
Qed.

Lemma fold_left_Qmax_spec (r : list Q) :
  forall x, let m := fold_left Qmax r x in
            In m (x :: r) /\ forall v, In v (x :: r) -> v <= m.
Proof.
  induction r as [| a r IH]; intros x; simpl.
  - split; [left; reflexivity |]. intros v [<- | []]. apply Qle_refl.
  - destruct (IH (Qmax x a)) as [Hin Hle]. simpl in Hin, Hle. split.
    + destruct Hin as [E | Hin]; [| right; right; exact Hin].
      destruct (Qmax_cases x a) as [C | C];
        [left | right; left]; (transitivity (Qmax x a); [symmetry; exact C | exact E]).
    + intros v [<- | [<- | Hv]].
      * eapply Qle_trans; [apply Q.le_max_l | apply Hle; left; reflexivity].
      * eapply Qle_trans; [apply Q.le_max_r | apply Hle; left; reflexivity].
      * apply Hle. right. exact Hv.
Qed.

Lemma last_In (l : list Q) : l <> [] -> In (List.last l 0) l.
Proof.
  induction l as [| a l IH]; [congruence |]. intros _.
  destruct l as [| b l]; [left; reflexivity |].
  right. apply IH. discriminate.
Qed.

(** X5: a normalized volume is never outside [0, 1]; it is 1/2 on a flat
    window and otherwise exactly (current - min) / (max - min) of the window
    read, so that the final clip never changes it. *)
Theorem get_volume_normalized_range (st : MarketStats) (lookback : Z) (v : Q) :
  get_volume_normalized st lookback = Some v ->
  0 <= v <= 1 /\
  let recent := recent_volumes st lookback in
  (np_max recent <= np_min recent -> v = 1 # 2) /\
  (np_min recent < np_max recent ->
   v == (List.last recent 0 - np_min recent) / (np_max recent - np_min recent)).
Proof.
  unfold get_volume_normalized. fold (recent_volumes st lookback).
  set (recent := recent_volumes st lookback).
  destruct (py_len (volumes st) <? 20)%Z; [discriminate |].
  destruct (py_len recent <? 2)%Z eqn:E2; [discriminate |].
  assert (Hne : recent <> []).
  { intros E. rewrite E in E2. discriminate. }
  assert (Hlo : np_min recent <= List.last recent 0).
  { destruct recent as [| x r] eqn:Er; [congruence |].
    apply (fold_left_Qmin_spec r x). rewrite <- Er. apply last_In.
    rewrite Er. discriminate. }
  assert (Hhi : List.last recent 0 <= np_max recent).
  { destruct recent as [| x r] eqn:Er; [congruence |].
    apply (fold_left_Qmax_spec r x). rewrite <- Er. apply last_In.
    rewrite Er. discriminate. }
  destruct (Qle_bool (np_max recent) (np_min recent)) eqn:Ef; qprop.
  - intros H. injection H as <-. split; [split; lra |].
    split; [reflexivity | intros; lra].
  - intros H. injection H as <-.
    set (cur := List.last recent 0) in *.
    set (lo := np_min recent) in *. set (hi := np_max recent) in *.
    assert (Hr : 0 <= (cur - lo) / (hi - lo) <= 1).
    { split.
      - apply Qle_shift_div_l; lra.
      - apply Qle_shift_div_r; lra. }
    unfold np_clip.
    assert (E : Qmin (Qmax ((cur - lo) / (hi - lo)) 0) 1 == (cur - lo) / (hi - lo)).
    { rewrite Q.max_l by apply Hr. rewrite Q.min_l by apply Hr. reflexivity. }
    split; [rewrite E; exact Hr |].
    split; [intros; lra | intros _; exact E].
Qed.

Lemma get_volume_normalized_range_witness :
  0 <= default 0 (get_volume_normalized bullish_stats 100) <= 1.
Proof.
  assert (E : get_volume_normalized bullish_stats 100
              = Some (default 0 (get_volume_normalized bullish_stats 100)))
    by (vm_compute; reflexivity).
  exact (proj1 (get_volume_normalized_range bullish_stats 100 _ E)).
Defined.

(** * The CVD accumulator *)

Lemma trades_delta_from (trades : list TradeEvent) (d : Q) :
  fold_left (fun delta t => if te_is_buy t then delta + te_qty t else delta - te_qty t)
            trades d
  == d + buy_volume trades - sell_volume trades.
Proof.
  revert d. induction trades as [| t trades IH]; intros d; simpl.
  - ring.
  - rewrite IH. destruct (te_is_buy t); ring.
Qed.

Lemma trades_delta_volumes (trades : list TradeEvent) :
  trades_delta trades == buy_volume trades - sell_volume trades.
Proof.
  unfold trades_delta. rewrite trades_delta_from. ring.
Qed.

Lemma buy_volume_app (a b : list TradeEvent) :
  buy_volume (a ++ b) == buy_volume a + buy_volume b.
Proof.
  induction a as [| t a IH]; simpl; [ring | rewrite IH; ring].
Qed.

Lemma sell_volume_app (a b : list TradeEvent) :
  sell_volume (a ++ b) == sell_volume a + sell_volume b.
Proof.
  induction a as [| t a IH]; simpl; [ring | rewrite IH; ring].
Qed.

Lemma deque_append_pair_last (n : nat) (d : list (Q * Q)) (x : Q * Q) :
  (0 < n)%nat -> last (deque_append_pair n d x) = Some x.
Proof.
  intros Hn. unfold deque_append_pair. rewrite length_app.
  change (length [x]) with 1%nat.
  rewrite drop_app_le by lia. apply last_snoc.
Qed.

(** X6: [update_from_trades] moves the CVD by the buy volume minus the sell
    volume of the batch and returns the new CVD; the history never holds
    more than [maxlen] entries and, when it can hold one, ends with the new
    CVD, stamped with the time of the last trade or, for an empty batch,
    with the clock. *)
Theorem update_from_trades_spec (c : CVDCalculator) (clock : Q)
    (trades : list TradeEvent) :
  let r := fst (update_from_trades c clock trades) in
  let c' := snd (update_from_trades c clock trades) in
  r = current c' /\
  current c' == current c + buy_volume trades - sell_volume trades /\
  cvd_maxlen c' = cvd_maxlen c /\
  (length (_history c') <= cvd_maxlen c)%nat /\
  ((0 < cvd_maxlen c)%nat ->
   last (_history c')
   = Some (match last trades with None => clock | Some t => te_ts t end, current c')).
Proof.
  unfold update_from_trades, current. cbn [fst snd cvd_maxlen _history _cvd].
  split; [reflexivity |]. split; [rewrite trades_delta_volumes; ring |].
  split; [reflexivity |]. split.
  - unfold deque_append_pair. rewrite length_drop, length_app.
    change (length [_]) with 1%nat. lia.
  - intros Hn. apply deque_append_pair_last. exact Hn.
Qed.

(** X7: feeding a batch at once or as two consecutive batches gives the
    same CVD. *)
Theorem update_from_trades_app (c : CVDCalculator) (clock1 clock2 clock : Q)
    (trades1 trades2 : list TradeEvent) :
  current (snd (update_from_trades
                  (snd (update_from_trades c clock1 trades1)) clock2 trades2))
  == current (snd (update_from_trades c clock (trades1 ++ trades2))).
Proof.
  unfold update_from_trades, current. cbn [fst snd cvd_maxlen _history _cvd].
  rewrite !trades_delta_volumes, buy_volume_app, sell_volume_app. ring.
Qed.

(** X8: [get_recent_min] and [get_recent_max] answer [None] together, exactly
    when no history entry is stamped at or after [now - window_sec]; when
    they answer, both values are CVDs of such entries and bound all of
    them. *)
Theorem get_recent_min_max_spec (c : CVDCalculator) (clock : Q) (window_sec : Z)
    (now : option Q) :
  let vals := recent_vals c clock window_sec now in
  (forall v, In v vals <->
     exists ts, In (ts, v) (_history c) /\
                default clock now - inject_Z window_sec <= ts) /\
  (get_recent_min c clock window_sec now = None <-> vals = []) /\
  (get_recent_max c clock window_sec now = None <-> vals = []) /\
  (forall lo hi,
     get_recent_min c clock window_sec now = Some lo ->
     get_recent_max c clock window_sec now = Some hi ->
     In lo vals /\ In hi vals /\ forall v, In v vals -> lo <= v <= hi).
Proof.
  unfold get_recent_min, get_recent_max.
  set (vals := recent_vals c clock window_sec now). cbv zeta.
  split; [| split; [| split]].
  - intros v. unfold vals, recent_vals. rewrite in_map_iff. split.
    + intros ([ts v'] & <- & Hin). apply filter_In in Hin as [Hin Hts].
      exists ts. split; [exact Hin |]. apply Qle_bool_iff. exact Hts.
    + intros (ts & Hin & Hts). exists (ts, v). split; [reflexivity |].
      apply filter_In. split; [exact Hin |]. apply Qle_bool_iff. exact Hts.
  - destruct vals; simpl; split; congruence.
  - destruct vals; simpl; split; congruence.
  - intros lo hi. destruct vals as [| x r]; [discriminate |]. simpl.
    intros Hlo Hhi. injection Hlo as <-. injection Hhi as <-.
    destruct (fold_left_Qmin_spec r x) as [Hi1 Hl1].
    destruct (fold_left_Qmax_spec r x) as [Hi2 Hl2].
    split; [exact Hi1 |]. split; [exact Hi2 |].
    intros v Hv. split; [apply Hl1 | apply Hl2]; exact Hv.
Qed.

(** * The component scores *)

Lemma Qabs_small (x y : Q) : Qabs x < y <-> - y < x /\ x < y.
Proof.
  split.
  - intros H. split.
    + pose proof (Qle_Qabs (- x)) as H1. rewrite Qabs_opp in H1. lra.
    + pose proof (Qle_Qabs x). lra.
  - intros [H1 H2]. apply Qabs_case; intros; lra.
Qed.

(** X9: the CVD score is a fixed table of the slope: 100 or 60 for the side
    the flow favours, 0 for the other side.  The halving for slopes under
    the threshold of 10 only meets slopes that already score 0, so it never
    changes a score. *)
Theorem _calculate_cvd_score_table (cvd_slope : Q) :
  let r := _calculate_cvd_score cvd_slope in
  (CVD_SLOPE_STRONG_UP <= cvd_slope -> r = (100, 0)) /\
  (CVD_SLOPE_WEAK_UP <= cvd_slope < CVD_SLOPE_STRONG_UP -> r = (60, 0)) /\
  (cvd_slope <= CVD_SLOPE_STRONG_DOWN -> r = (0, 100)) /\
  (CVD_SLOPE_STRONG_DOWN < cvd_slope <= CVD_SLOPE_WEAK_DOWN -> r = (0, 60)) /\
  (CVD_SLOPE_WEAK_DOWN < cvd_slope < CVD_SLOPE_WEAK_UP -> fst r == 0 /\ snd r == 0).
Proof.
  unfold _calculate_cvd_score, classify_cvd,
    CVD_SLOPE_STRONG_UP, CVD_SLOPE_WEAK_UP, CVD_SLOPE_STRONG_DOWN,
    CVD_SLOPE_WEAK_DOWN, CVD_SLOPE_THRESHOLD.
  destruct (Qlt_bool (Qabs cvd_slope) 10) eqn:E5;
    repeat match goal with
           | |- context [Qle_bool ?a ?b] => destruct (Qle_bool a b) eqn:?
           end;
    qprop; try (apply Qabs_small in E5); cbv zeta;
    repeat split; intros; try reflexivity; try lra.
Qed.

Lemma clip01 (t : Q) :
  0 <= Qmin 1 (Qmax 0 t) <= 1 /\
  (0 <= t <= 1 -> Qmin 1 (Qmax 0 t) == t) /\
  (1 <= t -> Qmin 1 (Qmax 0 t) == 1).
Proof.
  destruct (Q.max_spec 0 t) as [[H1 E1] | [H1 E1]];
    destruct (Q.min_spec 1 (Qmax 0 t)) as [[H2 E2] | [H2 E2]];
    rewrite E2; rewrite ?E1 in *; repeat split; intros; try lra.
Qed.

(** The raw imbalance score of one side, from the fraction of the way
    between the entry threshold and a full book. *)
Lemma _imbalance_score_num (x : Q) :
  let r := _imbalance_score (Some (Num x)) in
  (x <= IMBALANCE_LONG_ENTRY -> fst r = 0) /\
  (IMBALANCE_LONG_ENTRY < x ->
   fst r == 26 + Qmin 1 (Qmax 0 ((x - (4 # 10)) / (6 # 10))) * 14) /\
  (IMBALANCE_SHORT_ENTRY <= x -> snd r = 0) /\
  (x < IMBALANCE_SHORT_ENTRY ->
   snd r == 26 + Qmin 1 (Qmax 0 ((- (4 # 10) - x) / (6 # 10))) * 14).
Proof.
  unfold _imbalance_score, IMBALANCE_LONG_ENTRY, IMBALANCE_SHORT_ENTRY,
    IMBALANCE_SCORE_BASE, IMBALANCE_SCORE_MAX.
  cbn [fst snd].
  assert (D1 : Qmax (1 # 1000000000) (1 - (40 # 100)) == 6 # 10) by reflexivity.
  assert (D2 : Qmax (1 # 1000000000) (- (40 # 100) - - (1)) == 6 # 10) by reflexivity.
  split; [| split; [| split]].
  - intros H. destruct (Qlt_bool 0 x && Qlt_bool (40 # 100) 1)%bool; [| reflexivity].
    destruct (Qlt_bool (40 # 100) x) eqn:E; qprop; [lra | reflexivity].
  - intros H.
    assert (E0 : Qlt_bool 0 x = true) by (apply Qlt_bool_iff; lra).
    assert (E1 : Qlt_bool (40 # 100) x = true) by (apply Qlt_bool_iff; lra).
    rewrite E0, E1. cbn [andb Qlt_bool]. 
    change (Qlt_bool (40 # 100) 1) with true. cbv iota.
    rewrite D1.
    assert (Ef : (x - (40 # 100)) / (6 # 10) == (x - (4 # 10)) / (6 # 10)) by (field).
    rewrite Ef. ring.
  - intros H. destruct (Qlt_bool x 0 && Qlt_bool (- (40 # 100)) 0)%bool; [| reflexivity].
    destruct (Qlt_bool x (- (40 # 100))) eqn:E; qprop; [lra | reflexivity].
  - intros H.
    assert (E0 : Qlt_bool x 0 = true) by (apply Qlt_bool_iff; lra).
    assert (E1 : Qlt_bool x (- (40 # 100)) = true) by (apply Qlt_bool_iff; lra).
    rewrite E0, E1.
    change (Qlt_bool (- (40 # 100)) 0) with true. cbv iota. cbn [andb].
    rewrite D2.
    assert (Ef : (- (40 # 100) - x) / (6 # 10) == (- (4 # 10) - x) / (6 # 10)) by (field).
    rewrite Ef. ring.
Qed.

Lemma norm40 (f : Q) : f / 40 * 100 == f * (5 # 2).
Proof. field. Qed.

Lemma _calculate_imbalance_score_eq (imbalance : pyfloat) :
  _calculate_imbalance_score imbalance
  = (fst (_imbalance_score (Some imbalance)) / 40 * 100,
     snd (_imbalance_score (Some imbalance)) / 40 * 100).
Proof.
  unfold _calculate_imbalance_score.
  destruct (_imbalance_score (Some imbalance)) as [l s]. reflexivity.
Qed.

Lemma _imbalance_score_bounds (imbalance : pyfloat) :
  let r := _imbalance_score (Some imbalance) in
  (fst r == 0 \/ 26 <= fst r <= 40) /\ (snd r == 0 \/ 26 <= snd r <= 40) /\
  (fst r == 0 \/ snd r == 0).
Proof.
  destruct imbalance as [x |];
    [| cbv zeta; cbn [_imbalance_score fst snd];
       split; [left; reflexivity | split; left; reflexivity]].
  destruct (_imbalance_score_num x) as (L0 & L1 & S0 & S1).
  unfold IMBALANCE_LONG_ENTRY, IMBALANCE_SHORT_ENTRY in *. cbv zeta.
  destruct (Qlt_le_dec (40 # 100) x) as [Hl | Hl];
    destruct (Qlt_le_dec x (- (40 # 100))) as [Hs | Hs]; try lra.
  - rewrite (S0 Hs), (L1 Hl).
    destruct (clip01 ((x - (4 # 10)) / (6 # 10))) as [[? ?] _].
    split; [right; split; lra |]. split; [left; reflexivity | right; reflexivity].
  - rewrite (L0 Hl), (S1 Hs).
    destruct (clip01 ((- (4 # 10) - x) / (6 # 10))) as [[? ?] _].
    split; [left; reflexivity |]. split; [right; split; lra | left; reflexivity].
  - rewrite (L0 Hl), (S0 Hs). repeat split; left; reflexivity.
Qed.

(** X10: the normalized imbalance score of a side is 0 up to the entry
    threshold of 0.40 and between 65 and 100 beyond it, rising linearly to
    100 at a full book; at most one side scores; [nan] scores 0 on both. *)
Theorem _calculate_imbalance_score_range (imbalance : pyfloat) :
  let r := _calculate_imbalance_score imbalance in
  0 <= fst r <= 100 /\ 0 <= snd r <= 100 /\
  (fst r == 0 \/ snd r == 0) /\
  (imbalance = NaN -> fst r == 0 /\ snd r == 0) /\
  (forall x, imbalance = Num x ->
     (x <= IMBALANCE_LONG_ENTRY -> fst r == 0) /\
     (IMBALANCE_LONG_ENTRY < x -> 65 <= fst r) /\
     (IMBALANCE_LONG_ENTRY < x <= 1 ->
      fst r == 65 + (x - IMBALANCE_LONG_ENTRY) / (1 - IMBALANCE_LONG_ENTRY) * 35) /\
     (IMBALANCE_SHORT_ENTRY <= x -> snd r == 0) /\
     (x < IMBALANCE_SHORT_ENTRY -> 65 <= snd r) /\
     (- (1) <= x < IMBALANCE_SHORT_ENTRY ->
      snd r == 65 + (IMBALANCE_SHORT_ENTRY - x) / (IMBALANCE_SHORT_ENTRY + 1) * 35)).
Proof.
  cbv zeta. rewrite _calculate_imbalance_score_eq. cbn [fst snd].
  destruct (_imbalance_score_bounds imbalance) as (Bl & Bs & Bx). cbv zeta in *.
  rewrite !norm40.
  split; [| split; [| split; [| split]]].
  - destruct Bl as [E | [? ?]]; [rewrite E |]; lra.
  - destruct Bs as [E | [? ?]]; [rewrite E |]; lra.
  - destruct Bx as [E | E]; rewrite E; [left | right]; reflexivity.
  - intros ->. cbn. split; reflexivity.
  - intros x ->. destruct (_imbalance_score_num x) as (L0 & L1 & S0 & S1).
    cbv zeta in *. unfold IMBALANCE_LONG_ENTRY, IMBALANCE_SHORT_ENTRY in *.
    rewrite !norm40. repeat split.
    + intros H. rewrite (L0 H). reflexivity.
    + intros H. destruct Bl as [E | [? ?]]; [| lra].
      rewrite (L1 H) in E.
      destruct (clip01 ((x - (4 # 10)) / (6 # 10))) as [[? ?] _]. lra.
    + intros [H1 H2]. rewrite (L1 H1).
      destruct (clip01 ((x - (4 # 10)) / (6 # 10))) as (_ & C & _).
      rewrite C; [field |]. split.
      * apply Qle_shift_div_l; lra.
      * apply Qle_shift_div_r; lra.
    + intros H. rewrite (S0 H). reflexivity.
    + intros H. destruct Bs as [E | [? ?]]; [| lra].
      rewrite (S1 H) in E.
      destruct (clip01 ((- (4 # 10) - x) / (6 # 10))) as [[? ?] _]. lra.
    + intros [H1 H2]. rewrite (S1 H2).
      destruct (clip01 ((- (4 # 10) - x) / (6 # 10))) as (_ & C & _).
      rewrite C; [field |]. split.
      * apply Qle_shift_div_l; lra.
      * apply Qle_shift_div_r; lra.
Qed.

Lemma Qmax0_min100 (t : Q) :
  0 <= Qmax 0 (Qmin 100 t) <= 100 /\
  (0 <= t <= 100 -> Qmax 0 (Qmin 100 t) == t).
Proof.
  destruct (Q.min_spec 100 t) as [[H1 E1] | [H1 E1]];
    destruct (Q.max_spec 0 (Qmin 100 t)) as [[H2 E2] | [H2 E2]];
    rewrite E2; rewrite ?E1 in *; repeat split; intros; try lra.
Qed.

Lemma volume_ramp (vol_norm : Q) :
  (vol_norm - MIN_VOL_NORM) / (BONUS_VOL_NORM - MIN_VOL_NORM) * 100
  == (vol_norm - (3 # 10)) * 250.
Proof.
  unfold MIN_VOL_NORM, BONUS_VOL_NORM. field.
Qed.

(** The volume score as a function of the normalized volume, for a
    volatility inside the band. *)
Lemma _calculate_volume_score_cases (vol_norm vol : Q) :
  let r := _calculate_volume_score vol_norm vol in
  (vol <= VOLATILITY_MIN \/ VOLATILITY_MAX <= vol -> r = 0) /\
  (VOLATILITY_MIN < vol < VOLATILITY_MAX ->
   (vol_norm < MIN_VOL_NORM -> r = 0) /\
   (MIN_VOL_NORM <= vol_norm <= BONUS_VOL_NORM -> r == (vol_norm - (3 # 10)) * 250) /\
   (BONUS_VOL_NORM < vol_norm -> r = 100)).
Proof.
  unfold _calculate_volume_score. cbv zeta.
  destruct (Qlt_bool VOLATILITY_MIN vol) eqn:E1;
    destruct (Qlt_bool vol VOLATILITY_MAX) eqn:E2; cbn [andb negb]; qprop;
    (split; [intros [H | H]; first [reflexivity | lra] |]);
    intros [H1 H2]; try lra.
  destruct (Qlt_bool vol_norm MIN_VOL_NORM) eqn:E3;
    [| destruct (Qlt_bool BONUS_VOL_NORM vol_norm) eqn:E4]; qprop;
    unfold MIN_VOL_NORM, BONUS_VOL_NORM in *.
  - repeat split; intros; first [reflexivity | lra].
  - repeat split; intros; first [reflexivity | lra].
  - repeat split; intros; try lra.
    fold MIN_VOL_NORM BONUS_VOL_NORM. rewrite volume_ramp.
    unfold MIN_VOL_NORM. apply Qmax0_min100. lra.
Qed.

(** X11: the volume score lies in [0, 100]; it is 0 when the volatility is
    outside the band (0.00004, 0.0025) or the normalized volume is below
    0.3, 100 above 0.7, and the linear ramp between; for a fixed volatility
    it never decreases when the normalized volume grows. *)
Theorem _calculate_volume_score_range (vol_norm vol : Q) :
  let r := _calculate_volume_score vol_norm vol in
  0 <= r <= 100 /\
  (vol <= VOLATILITY_MIN \/ VOLATILITY_MAX <= vol \/ vol_norm < MIN_VOL_NORM -> r = 0) /\
  (VOLATILITY_MIN < vol < VOLATILITY_MAX ->
   MIN_VOL_NORM <= vol_norm <= BONUS_VOL_NORM ->
   r == (vol_norm - MIN_VOL_NORM) / (BONUS_VOL_NORM - MIN_VOL_NORM) * 100) /\
  (VOLATILITY_MIN < vol < VOLATILITY_MAX -> BONUS_VOL_NORM < vol_norm -> r = 100) /\
  (forall vol_norm', vol_norm <= vol_norm' ->
     r <= _calculate_volume_score vol_norm' vol).
Proof.
  cbv zeta.
  destruct (_calculate_volume_score_cases vol_norm vol) as [Z0 C]. cbv zeta in *.
  assert (Hband : vol <= VOLATILITY_MIN \/ VOLATILITY_MAX <= vol \/
                  VOLATILITY_MIN < vol < VOLATILITY_MAX).
  { destruct (Qlt_le_dec VOLATILITY_MIN vol); [| auto].
    destruct (Qlt_le_dec vol VOLATILITY_MAX); auto. }
  assert (Hcase : forall vn, VOLATILITY_MIN < vol < VOLATILITY_MAX ->
            (vn < 3 # 10 /\ _calculate_volume_score vn vol == 0) \/
            ((3 # 10) <= vn <= 7 # 10 /\
             _calculate_volume_score vn vol == (vn - (3 # 10)) * 250) \/
            ((7 # 10) < vn /\ _calculate_volume_score vn vol == 100)).
  { intros vn Hb.
    destruct (_calculate_volume_score_cases vn vol) as [_ Cv]. cbv zeta in Cv.
    destruct (Cv Hb) as (C1 & C2 & C3). unfold MIN_VOL_NORM, BONUS_VOL_NORM in *.
    destruct (Qlt_le_dec vn (3 # 10)) as [H | H];
      [left; split; [exact H | rewrite (C1 H); reflexivity] |].
    destruct (Qlt_le_dec (7 # 10) vn) as [H' | H'];
      [right; right; split; [exact H' | rewrite (C3 H'); reflexivity] |].
    right; left. split; [split; assumption | apply C2; split; assumption]. }
  split; [| split; [| split; [| split]]].
  - destruct Hband as [H | [H | H]];
      [rewrite Z0 by auto; lra | rewrite Z0 by auto; lra |].
    destruct (Hcase vol_norm H) as [[? E] | [[[? ?] E] | [? E]]]; rewrite E; lra.
  - intros [H | [H | H]]; [apply Z0; auto | apply Z0; auto |].
    destruct Hband as [Hb | [Hb | Hb]]; [apply Z0; auto | apply Z0; auto |].
    apply (C Hb). exact H.
  - intros Hb Hv. rewrite volume_ramp. apply (C Hb). exact Hv.
  - intros Hb Hv. apply (C Hb). exact Hv.
  - intros vn' Hle.
    destruct Hband as [H | [H | H]];
      [rewrite Z0 by auto; rewrite (proj1 (_calculate_volume_score_cases vn' vol)) by auto;
       lra .. |].
    destruct (Hcase vol_norm H) as [[? E] | [[[? ?] E] | [? E]]];
      destruct (Hcase vn' H) as [[? E'] | [[[? ?] E'] | [? E']]];
      rewrite E, E'; lra.
Qed.

Lemma _calculate_volume_score_bounds (vol_norm vol : Q) :
  0 <= _calculate_volume_score vol_norm vol <= 100.
Proof.
  destruct (_calculate_volume_score_cases vol_norm vol) as [Z0 C]. cbv zeta in *.
  destruct (Qlt_le_dec VOLATILITY_MIN vol) as [H1 | H1];
    [| rewrite Z0 by auto; lra].
  destruct (Qlt_le_dec vol VOLATILITY_MAX) as [H2 | H2];
    [| rewrite Z0 by auto; lra].
  destruct (C (conj H1 H2)) as (C1 & C2 & C3).
  unfold MIN_VOL_NORM, BONUS_VOL_NORM in *.
  destruct (Qlt_le_dec vol_norm (3 # 10)) as [H | H]; [rewrite (C1 H); lra |].
  destruct (Qlt_le_dec (7 # 10) vol_norm) as [H' | H']; [rewrite (C3 H'); lra |].
  rewrite C2 by (split; assumption). lra.
Qed.

Lemma _calculate_cvd_score_bounds (cvd_slope : Q) :
  let r := _calculate_cvd_score cvd_slope in
  0 <= fst r <= 100 /\ 0 <= snd r <= 100 /\
  (cvd_slope < CVD_SLOPE_WEAK_UP -> fst r == 0) /\
  (CVD_SLOPE_WEAK_DOWN < cvd_slope -> snd r == 0).
Proof.
  unfold _calculate_cvd_score, classify_cvd,
    CVD_SLOPE_STRONG_UP, CVD_SLOPE_WEAK_UP, CVD_SLOPE_STRONG_DOWN,
    CVD_SLOPE_WEAK_DOWN, CVD_SLOPE_THRESHOLD.
  destruct (Qlt_bool (Qabs cvd_slope) 10) eqn:E5;
    repeat match goal with
           | |- context [Qle_bool ?a ?b] => destruct (Qle_bool a b) eqn:?
           end;
    qprop; cbv zeta; cbn [fst snd];
    repeat split; intros; try reflexivity; try lra.
Qed.

Lemma _calculate_imbalance_score_bounds (imbalance : pyfloat) :
  let r := _calculate_imbalance_score imbalance in
  0 <= fst r <= 100 /\ 0 <= snd r <= 100 /\
  (forall x, imbalance = Num x -> x <= IMBALANCE_LONG_ENTRY -> fst r == 0) /\
  (forall x, imbalance = Num x -> IMBALANCE_SHORT_ENTRY <= x -> snd r == 0) /\
  (imbalance = NaN -> fst r == 0 /\ snd r == 0).
Proof.
  cbv zeta. rewrite _calculate_imbalance_score_eq. cbn [fst snd].
  destruct (_imbalance_score_bounds imbalance) as (Bl & Bs & Bx). cbv zeta in *.
  rewrite !norm40.
  split; [destruct Bl as [E | [? ?]]; [rewrite E |]; lra |].
  split; [destruct Bs as [E | [? ?]]; [rewrite E |]; lra |].
  split; [| split].
  - intros x -> H. rewrite norm40.
    rewrite (proj1 (_imbalance_score_num x) H). reflexivity.
  - intros x -> H. rewrite norm40.
    destruct (_imbalance_score_num x) as (_ & _ & S0 & _).
    rewrite (S0 H). reflexivity.
  - intros ->. cbn. split; reflexivity.
Qed.

(** * The weighted score and the signal *)

Lemma weighted_scores_fields (vol : Q) (smooth_imb : pyfloat) (cvd_slope vol_norm : Q) :
  let sc := weighted_scores vol smooth_imb cvd_slope vol_norm in
  let c := _calculate_cvd_score cvd_slope in
  let i := _calculate_imbalance_score smooth_imb in
  let v := _calculate_volume_score vol_norm vol in
  cvd_long sc = fst c /\ cvd_short sc = snd c /\
  imb_long sc = fst i /\ imb_short sc = snd i /\ vol_score sc = v /\
  score_long sc == (fst c * 35 + fst i * 45 + v * 15) * (1 # 95) /\
  score_short sc == (snd c * 35 + snd i * 45 + v * 15) * (1 # 95).
Proof.
  unfold weighted_scores. cbv zeta.
  destruct (_calculate_cvd_score cvd_slope) as [cl cs].
  destruct (_calculate_imbalance_score smooth_imb) as [il ish].
  cbn [cvd_long cvd_short imb_long imb_short vol_score score_long score_short fst snd].
  unfold SCORE_WEIGHT_CVD, SCORE_WEIGHT_IMBALANCE, SCORE_WEIGHT_VOLUME.
  repeat split; try reflexivity; field.
Qed.

Lemma no_long_evidence (cvd_slope : Q) (smooth_imb : pyfloat) :
  ~ long_evidence cvd_slope smooth_imb ->
  fst (_calculate_cvd_score cvd_slope) == 0 /\
  fst (_calculate_imbalance_score smooth_imb) == 0.
Proof.
  intros H. unfold long_evidence in H.
  destruct (_calculate_cvd_score_bounds cvd_slope) as (_ & _ & C & _).
  destruct (_calculate_imbalance_score_bounds smooth_imb) as (_ & _ & I & _ & N).
  cbv zeta in *. split.
  - apply C. apply Qnot_le_lt. tauto.
  - destruct smooth_imb as [x |]; [| apply N; reflexivity].
    apply (I x eq_refl). apply Qnot_lt_le. intros Hx. apply H. right. eauto.
Qed.

Lemma no_short_evidence (cvd_slope : Q) (smooth_imb : pyfloat) :
  ~ short_evidence cvd_slope smooth_imb ->
  snd (_calculate_cvd_score cvd_slope) == 0 /\
  snd (_calculate_imbalance_score smooth_imb) == 0.
Proof.
  intros H. unfold short_evidence in H.
  destruct (_calculate_cvd_score_bounds cvd_slope) as (_ & _ & _ & C).
  destruct (_calculate_imbalance_score_bounds smooth_imb) as (_ & _ & _ & I & N).
  cbv zeta in *. split.
  - apply C. apply Qnot_le_lt. tauto.
  - destruct smooth_imb as [x |]; [| apply N; reflexivity].
    apply (I x eq_refl). apply Qnot_lt_le. intros Hx. apply H. right. eauto.
Qed.

(** The range of the two weighted scores. *)
Lemma weighted_scores_bounds (vol : Q) (smooth_imb : pyfloat)
    (cvd_slope vol_norm : Q) :
  let sc := weighted_scores vol smooth_imb cvd_slope vol_norm in
  0 <= score_long sc <= 100 /\ 0 <= score_short sc <= 100 /\
  (~ long_evidence cvd_slope smooth_imb ->
   score_long sc <= 300 # 19 /\ score_long sc < SCORE_MIN_FOR_CANDIDATE) /\
  (~ short_evidence cvd_slope smooth_imb ->
   score_short sc <= 300 # 19 /\ score_short sc < SCORE_MIN_FOR_CANDIDATE).
Proof.
  cbv zeta.
  destruct (weighted_scores_fields vol smooth_imb cvd_slope vol_norm)
    as (_ & _ & _ & _ & _ & El & Es). cbv zeta in *.
  destruct (_calculate_cvd_score_bounds cvd_slope) as (C1 & C2 & _). cbv zeta in *.
  destruct (_calculate_imbalance_score_bounds smooth_imb) as (I1 & I2 & _).
  cbv zeta in *.
  pose proof (_calculate_volume_score_bounds vol_norm vol) as V.
  rewrite El, Es. unfold SCORE_MIN_FOR_CANDIDATE.
  split; [lra |]. split; [lra |]. split.
  - intros H. destruct (no_long_evidence _ _ H) as [E1 E2]. rewrite E1, E2. lra.
  - intros H. destruct (no_short_evidence _ _ H) as [E1 E2]. rewrite E1, E2. lra.
Qed.

(** X12: both weighted scores lie in [0, 100], and a side without
    order-flow evidence scores at most 300/19 (about 15.8, the weight of
    the volume alone), below the candidate minimum of 45. *)
Theorem weighted_scores_range (vol : Q) (smooth_imb : pyfloat)
    (cvd_slope vol_norm : Q) :
  let sc := weighted_scores vol smooth_imb cvd_slope vol_norm in
  0 <= score_long sc <= 100 /\ 0 <= score_short sc <= 100 /\
  (~ long_evidence cvd_slope smooth_imb ->
   score_long sc <= 300 # 19 /\ score_long sc < SCORE_MIN_FOR_CANDIDATE) /\
  (~ short_evidence cvd_slope smooth_imb ->
   score_short sc <= 300 # 19 /\ score_short sc < SCORE_MIN_FOR_CANDIDATE).
Proof.
  cbv zeta.
  destruct (weighted_scores_fields vol smooth_imb cvd_slope vol_norm)
    as (_ & _ & _ & _ & _ & El & Es). cbv zeta in *.
  destruct (_calculate_cvd_score_bounds cvd_slope) as (C1 & C2 & _). cbv zeta in *.
  destruct (_calculate_imbalance_score_bounds smooth_imb) as (I1 & I2 & _).
  cbv zeta in *.
  pose proof (_calculate_volume_score_bounds vol_norm vol) as V.
  rewrite El, Es. unfold SCORE_MIN_FOR_CANDIDATE.
  split; [lra |]. split; [lra |]. split.
  - intros H. destruct (no_long_evidence _ _ H) as [E1 E2]. rewrite E1, E2. lra.
  - intros H. destruct (no_short_evidence _ _ H) as [E1 E2]. rewrite E1, E2. lra.
Qed.

Section ScorerSignal.

Variable np_std_ddof1 : list Q -> Q.

(** What a returned signal is built from. *)
Lemma generate_signal_built (symbol : string) (stats : MarketStats)
    (ts price imbalance : Q) (sig : Signal) :
  generate_signal np_std_ddof1 symbol stats ts price imbalance = Ok (Some sig) ->
  exists vol smooth_imb cvd_slope vol_norm,
    get_volatility np_std_ddof1 stats VOL_RET_LOOKBACK = Some vol /\
    get_smooth_imbalance stats 3 = Some smooth_imb /\
    get_cvd_slope stats 7 = Some cvd_slope /\
    get_volume_normalized stats 100 = Some vol_norm /\
    _is_history_insufficient stats = false /\
    anti_chase stats price = Ok false /\
    let sc := weighted_scores vol smooth_imb cvd_slope vol_norm in
    decision_logic (score_long sc) (score_short sc) = Some (sig_side sig, sig_score sig) /\
    sig_symbol sig = symbol /\
    (sig_risk_mult sig, sig_score_class sig)
    = (if sig_score sig >=? SCORE_SNIPER_MIN
       then (HIGH_CONV_RISK_MULT, "SNIPER"%string) else (1, "STANDARD"%string)) /\
    rs_side (sig_reason sig) = sig_side sig /\
    rs_score (sig_reason sig) = sig_score sig /\
    rs_class (sig_reason sig) = sig_score_class sig /\
    rs_vol (sig_reason sig) = vol_score sc.
Proof.
  unfold generate_signal. intros H.
  destruct (get_volatility _ _ _) as [vol |]; [| discriminate].
  destruct (get_smooth_imbalance _ _) as [smooth |]; [| discriminate].
  destruct (get_cvd_slope _ _) as [slope |]; [| discriminate].
  destruct (get_volume_normalized _ _) as [vn |]; [| discriminate].
  destruct (_is_history_insufficient stats); [discriminate |].
  apply bind_Ok in H as (chased & Hc & H).
  destruct chased; [discriminate |].
  exists vol, smooth, slope, vn.
  do 6 (split; [first [reflexivity | exact Hc] |]).
  cbv zeta. set (sc := weighted_scores vol smooth slope vn) in *.
  destruct (decision_logic (score_long sc) (score_short sc)) as [[fs fsc] |];
    [| discriminate].
  destruct (Qle_bool SCORE_SNIPER_MIN fsc) eqn:E; injection H as <-;
    cbn [sig_side sig_score sig_symbol sig_risk_mult sig_score_class sig_reason
         rs_side rs_score rs_class rs_vol]; rewrite E; repeat split; reflexivity.
Qed.

(** X13: a returned signal carries the symbol of the strategy, the side
    LONG or SHORT, a score between the candidate minimum 45 and 100, and the
    risk multiplier and class its score selects: 1.6 and SNIPER from 90 up,
    1 and STANDARD below. *)
Theorem generate_signal_well_formed (symbol : string) (stats : MarketStats)
    (ts price imbalance : Q) (sig : Signal) :
  generate_signal np_std_ddof1 symbol stats ts price imbalance = Ok (Some sig) ->
  sig_symbol sig = symbol /\
  (sig_side sig = "LONG"%string \/ sig_side sig = "SHORT"%string) /\
  SCORE_MIN_FOR_CANDIDATE <= sig_score sig <= 100 /\
  (SCORE_SNIPER_MIN <= sig_score sig ->
   sig_risk_mult sig = HIGH_CONV_RISK_MULT /\ sig_score_class sig = "SNIPER"%string) /\
  (sig_score sig < SCORE_SNIPER_MIN ->
   sig_risk_mult sig = 1 /\ sig_score_class sig = "STANDARD"%string) /\
  rs_side (sig_reason sig) = sig_side sig /\
  rs_score (sig_reason sig) = sig_score sig /\
  rs_class (sig_reason sig) = sig_score_class sig.
Proof.
  intros H.
  apply generate_signal_built in H
    as (vol & smooth & slope & vn & _ & _ & _ & _ & _ & _ & H).
  cbv zeta in H. destruct H as (Hd & Hsym & Hrm & Hrs & Hrsc & Hrc & _).
  pose proof (decision_logic_spec
                (score_long (weighted_scores vol smooth slope vn))
                (score_short (weighted_scores vol smooth slope vn))) as D.
  rewrite Hd in D.
  destruct (weighted_scores_bounds vol smooth slope vn) as (Rl & Rs & _).
  cbv zeta in *.
  split; [exact Hsym |].
  split; [destruct D as [(? & _) | (? & _)]; auto |].
  split.
  { destruct D as [(_ & -> & ? & _) | (_ & -> & ? & _)]; split; tauto. }
  split; [| split; [| auto]].
  - intros Hs. apply Qle_bool_iff in Hs. rewrite Hs in Hrm.
    injection Hrm as -> ->. split; reflexivity.
  - intros Hs. apply Qlt_bool_iff in Hs. unfold Qlt_bool in Hs.
    apply negb_true_iff in Hs. rewrite Hs in Hrm.
    injection Hrm as -> ->. split; reflexivity.
Qed.

(** X14: no signal without order-flow evidence for its side: a LONG signal
    needs a CVD slope of at least 30 or a smoothed imbalance above 0.40, a
    SHORT signal a slope of at most -30 or an imbalance below -0.40; the
    volume score alone never reaches the candidate minimum. *)
Theorem generate_signal_needs_evidence (symbol : string) (stats : MarketStats)
    (ts price imbalance : Q) (sig : Signal) :
  generate_signal np_std_ddof1 symbol stats ts price imbalance = Ok (Some sig) ->
  exists cvd_slope smooth_imb,
    get_cvd_slope stats 7 = Some cvd_slope /\
    get_smooth_imbalance stats 3 = Some smooth_imb /\
    (sig_side sig = "LONG"%string -> long_evidence cvd_slope smooth_imb) /\
    (sig_side sig = "SHORT"%string -> short_evidence cvd_slope smooth_imb).
Proof.
  intros H.
  apply generate_signal_built in H
    as (vol & smooth & slope & vn & _ & Hi & Hc & _ & _ & _ & H).
  cbv zeta in H. destruct H as (Hd & _).
  exists slope, smooth. split; [exact Hc |]. split; [exact Hi |].
  pose proof (decision_logic_spec
                (score_long (weighted_scores vol smooth slope vn))
                (score_short (weighted_scores vol smooth slope vn))) as D.
  rewrite Hd in D.
  destruct (weighted_scores_bounds vol smooth slope vn) as (_ & _ & Nl & Ns).
  cbv zeta in *.
  assert (Hl : forall P : Prop, (~ P -> False) -> P \/ ~ P -> P) by tauto.
  split; intros Hside.
  - destruct D as [(_ & _ & Hmin & _) | (Hs & _)]; [| congruence].
    destruct (Qlt_le_dec slope CVD_SLOPE_WEAK_UP) as [Hsl | Hsl];
      [| left; exact Hsl].
    destruct smooth as [x |].
    + destruct (Qlt_le_dec IMBALANCE_LONG_ENTRY x) as [Hx | Hx];
        [right; eauto |].
      exfalso. apply (Qlt_not_le _ _ (proj2 (Nl ltac:(
        intros [E | (y & Ey & Hy)]; [lra | injection Ey as <-; lra])))).
      exact Hmin.
    + exfalso. apply (Qlt_not_le _ _ (proj2 (Nl ltac:(
        intros [E | (y & Ey & Hy)]; [lra | discriminate])))).
      exact Hmin.
  - destruct D as [(Hs & _) | (_ & _ & Hmin & _)]; [congruence |].
    destruct (Qlt_le_dec CVD_SLOPE_WEAK_DOWN slope) as [Hsl | Hsl];
      [| left; exact Hsl].
    destruct smooth as [x |].
    + destruct (Qlt_le_dec x IMBALANCE_SHORT_ENTRY) as [Hx | Hx];
        [right; eauto |].
      exfalso. apply (Qlt_not_le _ _ (proj2 (Ns ltac:(
        intros [E | (y & Ey & Hy)]; [lra | injection Ey as <-; lra])))).
      exact Hmin.
    + exfalso. apply (Qlt_not_le _ _ (proj2 (Ns ltac:(
        intros [E | (y & Ey & Hy)]; [lra | discriminate])))).
      exact Hmin.
Qed.

(** X15: [generate_signal] raises only [ZeroDivisionError], and only from
    the anti-chase filter: when the statistics hold more than five prices
    and the price five places from the end is zero.  With all four metrics
    present and enough history such a price always raises. *)
Theorem generate_signal_raises (symbol : string) (stats : MarketStats)
    (ts price imbalance : Q) :
  (forall exc,
     generate_signal np_std_ddof1 symbol stats ts price imbalance = Raise exc ->
     exc = "ZeroDivisionError"%string /\
     (ANTI_CHASE_LOOKBACK_TICKS < length (prices stats))%nat /\
     py_index_back (prices stats) ANTI_CHASE_LOOKBACK_TICKS == 0) /\
  (get_volatility np_std_ddof1 stats VOL_RET_LOOKBACK <> None ->
   get_smooth_imbalance stats 3 <> None -> get_cvd_slope stats 7 <> None ->
   get_volume_normalized stats 100 <> None ->
   _is_history_insufficient stats = false ->
   py_index_back (prices stats) ANTI_CHASE_LOOKBACK_TICKS == 0 ->
   generate_signal np_std_ddof1 symbol stats ts price imbalance
   = Raise "ZeroDivisionError").
Proof.
  split.
  - intros exc. unfold generate_signal.
    destruct (get_volatility _ _ _) as [vol |]; [| discriminate].
    destruct (get_smooth_imbalance _ _) as [smooth |]; [| discriminate].
    destruct (get_cvd_slope _ _) as [slope |]; [| discriminate].
    destruct (get_volume_normalized _ _) as [vn |]; [| discriminate].
    destruct (_is_history_insufficient stats); [discriminate |].
    unfold anti_chase.
    destruct (ANTI_CHASE_ENABLE && (ANTI_CHASE_LOOKBACK_TICKS <? length (prices stats))%nat)
      eqn:Ea.
    + apply andb_true_iff in Ea as [_ Ea]. apply Nat.ltb_lt in Ea.
      unfold py_div.
      destruct (Qeq_bool (py_index_back (prices stats) ANTI_CHASE_LOOKBACK_TICKS) 0)
        eqn:Ez.
      * intros H. cbn in H. injection H as <-.
        apply Qeq_bool_iff in Ez. auto.
      * cbn. destruct (Qlt_bool _ _); [discriminate |].
        destruct (decision_logic _ _) as [[fs fsc] |]; [| discriminate].
        destruct (Qle_bool SCORE_SNIPER_MIN fsc); discriminate.
    + cbn. destruct (decision_logic _ _) as [[fs fsc] |]; [| discriminate].
      destruct (Qle_bool SCORE_SNIPER_MIN fsc); discriminate.
  - intros Hv Hi Hc Hn Hh Hz. unfold generate_signal.
    destruct (get_volatility _ _ _) as [vol |]; [| congruence].
    destruct (get_smooth_imbalance _ _) as [smooth |]; [| congruence].
    destruct (get_cvd_slope _ _) as [slope |]; [| congruence].
    destruct (get_volume_normalized _ _) as [vn |]; [| congruence].
    rewrite Hh. unfold anti_chase.
    assert (Hlen : (ANTI_CHASE_LOOKBACK_TICKS <? length (prices stats))%nat = true).
    { unfold _is_history_insufficient in Hh. apply orb_false_iff in Hh as [Hp _].
      apply Z.ltb_ge in Hp. unfold py_len in Hp. apply Nat.ltb_lt.
      unfold ANTI_CHASE_LOOKBACK_TICKS. lia. }
    rewrite Hlen. unfold py_div.
    apply Qeq_bool_iff in Hz. cbn [ANTI_CHASE_ENABLE andb]. rewrite Hz. reflexivity.
Qed.

End ScorerSignal.

Lemma generate_signal_well_formed_witness :
  sig_symbol bullish_signal = "btcusdt"%string /\
  (sig_side bullish_signal = "LONG"%string \/ sig_side bullish_signal = "SHORT"%string) /\
  SCORE_MIN_FOR_CANDIDATE <= sig_score bullish_signal <= 100.
Proof.
  assert (E : generate_signal example_std "btcusdt" bullish_stats 70 100 (9 # 10)
              = Ok (Some bullish_signal)) by (vm_compute; reflexivity).
  pose proof (generate_signal_well_formed example_std "btcusdt" bullish_stats
                70 100 (9 # 10) bullish_signal E) as (H1 & H2 & H3 & _).
  split; [exact H1 |]. split; [exact H2 | exact H3].
Defined.

Lemma generate_signal_needs_evidence_witness :
  exists cvd_slope smooth_imb,
    get_cvd_slope bullish_stats 7 = Some cvd_slope /\
    get_smooth_imbalance bullish_stats 3 = Some smooth_imb /\
    (sig_side bullish_signal = "LONG"%string -> long_evidence cvd_slope smooth_imb) /\
    (sig_side bullish_signal = "SHORT"%string -> short_evidence cvd_slope smooth_imb).
Proof.
  assert (E : generate_signal example_std "btcusdt" bullish_stats 70 100 (9 # 10)
              = Ok (Some bullish_signal)) by (vm_compute; reflexivity).
  exact (generate_signal_needs_evidence example_std "btcusdt" bullish_stats
           70 100 (9 # 10) bullish_signal E).
Defined.

(** * What a successful open guarantees *)

Lemma _can_open_trade_true (s s2 : GlobalPortfolio) (ts risk_pct : Q) :
  _can_open_trade s ts risk_pct = (true, s2) ->
  s2 = _reset_if_new_day s ts /\
  - DAILY_MAX_LOSS_PCT < _daily_drawdown_pct s2 /\
  - DAILY_MAX_LOSS_ABS < _daily_drawdown_abs s2 /\
  (_trades_today s2 < MAX_TRADES_PER_DAY)%Z /\
  risk_pct <= _max_new_risk_pct_allowed s2 + (1 # 1000000000).
Proof.
  unfold _can_open_trade. set (s1 := _reset_if_new_day s ts).
  destruct (Qle_bool (_daily_drawdown_pct s1) (- DAILY_MAX_LOSS_PCT)) eqn:E1;
    [discriminate |].
  destruct (Qle_bool (_daily_drawdown_abs s1) (- DAILY_MAX_LOSS_ABS)) eqn:E2;
    [discriminate |].
  destruct (_trades_today s1 >=? MAX_TRADES_PER_DAY)%Z eqn:E3; [discriminate |].
  destruct (Qlt_bool (_max_new_risk_pct_allowed s1 + (1 # 1000000000)) risk_pct) eqn:E4;
    [discriminate |].
  intros H. injection H as <-. qprop. rewrite Z.geb_leb in E3. apply Z.leb_gt in E3.
  repeat split; assumption.
Qed.

Lemma open_position_opened (s s' : GlobalPortfolio) (k : string) (ts price : Q)
    (signal : Signal) (recent_extreme_price entry_imb : Q) (side0 : string)
    (p : Position) :
  open_position s k ts price signal recent_extreme_price entry_imb side0
  = Ok (Some p, s') ->
  opened s k ts price signal recent_extreme_price entry_imb side0 p.
Proof.
  unfold open_position, opened. intros H.
  destruct (positions s !! k) eqn:Ep; [discriminate |].
  destruct (Qlt_bool _ COOLDOWN_AFTER_TRADE_SEC) eqn:Ec; [discriminate |].
  fold (hour_pruned s k ts) in H.
  destruct (_ >=? _)%Z eqn:Eh; [discriminate |].
  replace (_max_new_risk_pct_allowed (hour_pruned s k ts))
    with (_max_new_risk_pct_allowed s) in H by reflexivity.
  destruct (Qle_bool (_max_new_risk_pct_allowed s) 0) eqn:Em; [discriminate |].
  set (risk := if Qlt_bool _ _ then _ else _) in H.
  destruct (_can_open_trade (hour_pruned s k ts) ts risk) as [can s2] eqn:Eo.
  destruct can; simpl negb in H; cbv iota in H; [| discriminate].
  apply _can_open_trade_true in Eo as (-> & G1 & G2 & G3 & _).
  fold (day_checked s k ts) in *.
  assert (Hfm : fee_maker (day_checked s k ts) = fee_maker s).
  { unfold day_checked, _reset_if_new_day, hour_pruned.
    destruct (new_day _ ts); reflexivity. }
  assert (Hft : fee_taker (day_checked s k ts) = fee_taker s).
  { unfold day_checked, _reset_if_new_day, hour_pruned.
    destruct (new_day _ ts); reflexivity. }
  assert (Htd : _trades_today (day_checked s k ts) = day_base s ts).
  { apply day_checked_frame. }
  set (s2 := day_checked s k ts) in *. clearbody s2.
  set (sl := if String.eqb side0 "LONG" then _ else _) in H.
  apply bind_Ok in H as (q & Hq & H).
  destruct q as [q |]; [| discriminate].
  destruct (Qle_bool q 0) eqn:Eq; [discriminate |].
  match type of H with
  | (if ?b then _ else _) = _ => destruct b eqn:Ef; [discriminate |]
  end.
  injection H as <- <-. qprop. rewrite Z.geb_leb in Eh. apply Z.leb_gt in Eh.
  cbn [side risk_pct sl_price tp_price estimated_fees entry_fee_total
       entry_imbalance open_reason qty].
  rewrite Hfm, Hft in *. rewrite <- Htd.
  repeat split; try assumption; try reflexivity.
Qed.

Lemma py_sum_from (xs : list Q) (a : Q) :
  fold_left Qplus xs a == a + py_sum xs.
Proof.
  unfold py_sum. rewrite <- fold_left_Qplus_shift.
  assert (E : a + 0 == a) by ring.
  revert E. generalize (a + 0). intros b E. revert a b E.
  induction xs as [| x xs IH]; intros a b E; simpl; [symmetry; exact E |].
  apply IH. rewrite E. reflexivity.
Qed.

Lemma py_sum_cons (x : Q) (xs : list Q) : py_sum (x :: xs) == x + py_sum xs.
Proof.
  unfold py_sum at 1. simpl. rewrite py_sum_from. ring.
Qed.

Lemma py_sum_perm (xs ys : list Q) : xs ≡ₚ ys -> py_sum xs == py_sum ys.
Proof.
  induction 1 as [| x xs ys _ IH | x y xs | xs ys zs _ IH1 _ IH2].
  - reflexivity.
  - rewrite !py_sum_cons, IH. reflexivity.
  - rewrite !py_sum_cons. ring.
  - rewrite IH1. exact IH2.
Qed.

Lemma _total_risk_pct_open_insert (s : GlobalPortfolio) (k : string) (p : Position) :
  positions s !! k = None ->
  _total_risk_pct_open (set_positions s (<[k := p]> (positions s)))
  == risk_pct p + _total_risk_pct_open s.
Proof.
  intros Hk. unfold _total_risk_pct_open. cbn [positions set_positions].
  rewrite (py_sum_perm _ (map (fun kp => risk_pct (snd kp))
                              ((k, p) :: map_to_list (positions s)))).
  - cbn [map snd]. apply py_sum_cons.
  - apply fmap_Permutation. apply map_to_list_insert. exact Hk.
Qed.

(** X16: a successful open never takes the total open risk above the cap:
    the new position's risk fraction is the asked one (base risk times the
    signal's multiplier) cut down to the headroom left, and the sum of the
    risk fractions of all open positions afterwards is at most
    MAX_TOTAL_RISK_PCT_OPEN whatever it was before. *)
Theorem open_position_risk_cap (s s' : GlobalPortfolio) (k : string) (ts price : Q)
    (signal : Signal) (recent_extreme_price entry_imbalance : Q) (side0 : string)
    (p : Position) :
  open_position s k ts price signal recent_extreme_price entry_imbalance side0
  = Ok (Some p, s') ->
  risk_pct p <= BASE_RISK_PER_TRADE * sig_risk_mult signal /\
  risk_pct p <= MAX_TOTAL_RISK_PCT_OPEN - _total_risk_pct_open s /\
  _total_risk_pct_open s' == _total_risk_pct_open s + risk_pct p /\
  _total_risk_pct_open s' <= MAX_TOTAL_RISK_PCT_OPEN.
Proof.
  intros H. pose proof (open_position_opened _ _ _ _ _ _ _ _ _ _ H) as O.
  apply open_position_spec in H as [[? _] | (p' & E & Hk & _ & _ & _ & _ & _ & _ & _ & _ & _ & _ & ->)];
    [discriminate |].
  injection E as <-.
  destruct O as (_ & _ & _ & Hh & _ & _ & _ & _ & Hr & _). cbv zeta in *.
  assert (Hd : _max_new_risk_pct_allowed s
               == MAX_TOTAL_RISK_PCT_OPEN - _total_risk_pct_open s).
  { unfold _max_new_risk_pct_allowed in *.
    destruct (Q.max_spec 0 (MAX_TOTAL_RISK_PCT_OPEN - _total_risk_pct_open s))
      as [[_ E] | [Hle E]]; [exact E |].
    rewrite E in Hh. lra. }
  assert (Hle : risk_pct p <= BASE_RISK_PER_TRADE * sig_risk_mult signal /\
                risk_pct p <= _max_new_risk_pct_allowed s).
  { rewrite Hr.
    destruct (Qlt_bool (_max_new_risk_pct_allowed s)
                (BASE_RISK_PER_TRADE * sig_risk_mult signal)) eqn:E; qprop;
      split; lra. }
  destruct Hle as [Hl1 Hl2].
  assert (Hsum : _total_risk_pct_open
                   (set_positions
                      (set_balance (day_checked s k ts)
                         (balance s - price * qty p * fee_maker s))
                      (<[k := p]> (positions s)))
                 == _total_risk_pct_open s + risk_pct p).
  { change (_total_risk_pct_open (set_positions s (<[k := p]> (positions s)))
            == _total_risk_pct_open s + risk_pct p).
    rewrite (_total_risk_pct_open_insert s k p Hk). ring. }
  split; [exact Hl1 |]. split; [lra |]. split; [exact Hsum |].
  rewrite Hsum. lra.
Qed.

(** X17: a position opened at a positive price needs a positive balance,
    and its margin (notional / leverage) never exceeds that balance; the
    open takes exactly the maker fee on the notional from the balance. *)
Theorem open_position_margin (s s' : GlobalPortfolio) (k : string) (ts price : Q)
    (signal : Signal) (recent_extreme_price entry_imb : Q) (side0 : string)
    (p : Position) :
  open_position s k ts price signal recent_extreme_price entry_imb side0
  = Ok (Some p, s') ->
  0 < price ->
  0 < balance s /\
  entry_price p * qty p / LEVERAGE <= balance s /\
  balance s' = balance s - entry_price p * qty p * fee_maker s.
Proof.
  intros H Hp.
  apply open_position_spec in H
    as [[? _] | (p' & E & _ & Hs & _ & Hep & _ & _ & Hq & _ & _ & _ & _ & ->)];
    [discriminate |].
  injection E as <-. rewrite Hep.
  destruct Hs as (Hd & H1 & H2). cbv zeta in *. unfold LEVERAGE in *.
  set (q0 := balance s * risk_pct p / Qabs (price - sl_price p)) in *.
  assert (Hpq : 0 < price * qty p) by (apply Qmult_lt_0_compat; assumption).
  assert (Hm : price * qty p / 20 <= balance s).
  { destruct (Qlt_le_dec (balance s) (price * q0 / 20)) as [Hc | Hc].
    - pose proof (H2 Hc) as Eq.
      assert (Hq0 : ~ q0 == 0).
      { intros E0. assert (Ez : qty p == 0) by (rewrite Eq, E0; apply Qmult_0_l).
        lra. }
      assert (Eqq : price * qty p == balance s * 18).
      { rewrite Eq. field. split; [exact Hq0 | lra]. }
      assert (En : price * qty p / 20 == price * qty p * (1 # 20)) by field.
      rewrite En. set (n := price * qty p) in *. lra.
    - rewrite (H1 Hc). exact Hc. }
  assert (En : price * qty p / 20 == price * qty p * (1 # 20)) by field.
  rewrite En in Hm. set (n := price * qty p) in *.
  split; [lra |]. split; [rewrite En; exact Hm | reflexivity].
Qed.

Lemma open_position_margin_witness :
  0 < balance pf_btc_up /\
  entry_price eth_long * qty eth_long / LEVERAGE <= balance pf_btc_up.
Proof.
  assert (E : open_position pf_btc_up "ethusdt" 1002 2000 (long_signal "ethusdt")
                1990 0 "LONG" = Ok (Some eth_long, pf_two_open))
    by (vm_compute; reflexivity).
  assert (Hp : 0 < 2000) by reflexivity.
  pose proof (open_position_margin pf_btc_up pf_two_open "ethusdt" 1002 2000
                (long_signal "ethusdt") 1990 0 "LONG" eth_long E Hp) as (H1 & H2 & _).
  split; [exact H1 | exact H2].
Defined.

(** X18: the stop of an opened position is the recent extreme moved by the
    buffer of 0.08% (down for the side "LONG", up for any other side); the
    target lies REWARD_RISK_BASE stop distances from the entry, on the other
    side of it; and the gross profit at the target is at least
    MIN_RR_VS_FEES times the estimated fees (maker on the entry notional,
    taker on the target notional). *)
Theorem open_position_targets (s s' : GlobalPortfolio) (k : string) (ts price : Q)
    (signal : Signal) (recent_extreme_price entry_imb : Q) (side0 : string)
    (p : Position) :
  open_position s k ts price signal recent_extreme_price entry_imb side0
  = Ok (Some p, s') ->
  side p = side0 /\
  (side0 = "LONG"%string ->
   sl_price p = recent_extreme_price * (1 - SL_BUFFER_PCT) /\
   tp_price p - price == REWARD_RISK_BASE * (price - sl_price p)) /\
  (side0 <> "LONG"%string ->
   sl_price p = recent_extreme_price * (1 + SL_BUFFER_PCT) /\
   price - tp_price p == REWARD_RISK_BASE * (sl_price p - price)) /\
  Qabs (tp_price p - price) == REWARD_RISK_BASE * Qabs (price - sl_price p) /\
  estimated_fees p = price * qty p * fee_maker s + tp_price p * qty p * fee_taker s /\
  MIN_RR_VS_FEES * estimated_fees p <= Qabs (tp_price p - price) * qty p.
Proof.
  intros H. apply open_position_opened in H.
  destruct H as (_ & _ & _ & _ & _ & _ & _ & Hsd & _ & Hsl & Htp & Hef & Hfl & _).
  cbv zeta in *.
  split; [exact Hsd |].
  assert (Habs : Qabs (tp_price p - price)
                 == REWARD_RISK_BASE * Qabs (price - sl_price p)).
  { rewrite Htp. unfold REWARD_RISK_BASE.
    destruct (String.eqb side0 "LONG").
    - assert (E : price + (price - sl_price p) * (25 # 10) - price
                  == (25 # 10) * (price - sl_price p)) by ring.
      rewrite E, Qabs_Qmult. reflexivity.
    - assert (E : price - (sl_price p - price) * (25 # 10) - price
                  == (25 # 10) * (price - sl_price p)) by ring.
      rewrite E, Qabs_Qmult. reflexivity. }
  split; [| split; [| split; [exact Habs | split; [exact Hef |]]]].
  - intros El. apply String.eqb_eq in El. rewrite El in Hsl, Htp.
    split; [exact Hsl |]. rewrite Htp. ring.
  - intros El. apply String.eqb_neq in El. rewrite El in Hsl, Htp.
    split; [exact Hsl |]. rewrite Htp. ring.
  - rewrite Qmult_comm. exact Hfl.
Qed.

Lemma open_position_targets_witness :
  side eth_long = "LONG"%string /\
  Qabs (tp_price eth_long - 2000) == REWARD_RISK_BASE * Qabs (2000 - sl_price eth_long).
Proof.
  assert (E : open_position pf_btc_up "ethusdt" 1002 2000 (long_signal "ethusdt")
                1990 0 "LONG" = Ok (Some eth_long, pf_two_open))
    by (vm_compute; reflexivity).
  pose proof (open_position_targets pf_btc_up pf_two_open "ethusdt" 1002 2000
                (long_signal "ethusdt") 1990 0 "LONG" eth_long E)
    as (H1 & _ & _ & H2 & _).
  split; [exact H1 | exact H2].
Defined.

Lemma day_checked_drawdown (s : GlobalPortfolio) (k : string) (ts : Q) :
  _daily_drawdown_pct (day_checked s k ts) = _daily_drawdown_pct (_reset_if_new_day s ts) /\
  _daily_drawdown_abs (day_checked s k ts) = _daily_drawdown_abs (_reset_if_new_day s ts).
Proof.
  unfold day_checked, _reset_if_new_day.
  change (new_day (hour_pruned s k ts) ts) with (new_day s ts).
  destruct (new_day s ts); split; reflexivity.
Qed.

(** X19: a position is opened only when every guard passes: the symbol has
    no open position, its last full close (time 0 when there is none) is at
    least COOLDOWN_AFTER_TRADE_SEC back, fewer than
    MAX_TRADES_PER_HOUR_PER_SYMBOL of its full closes fall in the last 3600
    seconds, there is risk headroom, the day's drawdown (on the day counters
    as rolled over for [ts]) is above both loss limits, and fewer than
    MAX_TRADES_PER_DAY trades were closed that day. *)
Theorem open_position_guards (s s' : GlobalPortfolio) (k : string) (ts price : Q)
    (signal : Signal) (recent_extreme_price entry_imb : Q) (side0 : string)
    (p : Position) :
  open_position s k ts price signal recent_extreme_price entry_imb side0
  = Ok (Some p, s') ->
  positions s !! k = None /\
  COOLDOWN_AFTER_TRADE_SEC <= ts - default 0 (last_exit_ts s !! k) /\
  (py_len (last_hour ts (default [] (trades_last_hour s !! k)))
   < MAX_TRADES_PER_HOUR_PER_SYMBOL)%Z /\
  _total_risk_pct_open s < MAX_TOTAL_RISK_PCT_OPEN /\
  - DAILY_MAX_LOSS_PCT < _daily_drawdown_pct (_reset_if_new_day s ts) /\
  - DAILY_MAX_LOSS_ABS < _daily_drawdown_abs (_reset_if_new_day s ts) /\
  (day_base s ts < MAX_TRADES_PER_DAY)%Z.
Proof.
  intros H. apply open_position_opened in H.
  destruct H as (H1 & H2 & H3 & H4 & H5 & H6 & H7 & _). cbv zeta in *.
  destruct (day_checked_drawdown s k ts) as [Ed1 Ed2]. rewrite Ed1 in H5.
  rewrite Ed2 in H6.
  split; [exact H1 |]. split; [exact H2 |]. split; [exact H3 |].
  split; [| split; [exact H5 | split; [exact H6 | exact H7]]].
  unfold _max_new_risk_pct_allowed in H4.
  destruct (Q.max_spec 0 (MAX_TOTAL_RISK_PCT_OPEN - _total_risk_pct_open s))
    as [[Hlt E] | [Hle E]]; rewrite E in H4; lra.
Qed.

Lemma open_position_guards_witness :
  positions pf_btc_up !! "ethusdt"%string = None /\
  COOLDOWN_AFTER_TRADE_SEC <= 1002 - default 0 (last_exit_ts pf_btc_up !! "ethusdt"%string) /\
  _total_risk_pct_open pf_btc_up < MAX_TOTAL_RISK_PCT_OPEN.
Proof.
  assert (E : open_position pf_btc_up "ethusdt" 1002 2000 (long_signal "ethusdt")
                1990 0 "LONG" = Ok (Some eth_long, pf_two_open))
    by (vm_compute; reflexivity).
  pose proof (open_position_guards pf_btc_up pf_two_open "ethusdt" 1002 2000
                (long_signal "ethusdt") 1990 0 "LONG" eth_long E)
    as (H1 & H2 & _ & H4 & _).
  split; [exact H1 |]. split; [exact H2 | exact H4].
Defined.

Lemma open_position_risk_cap_witness :
  _total_risk_pct_open pf_two_open <= MAX_TOTAL_RISK_PCT_OPEN.
Proof.
  assert (E : open_position pf_btc_up "ethusdt" 1002 2000 (long_signal "ethusdt")
                1990 0 "LONG" = Ok (Some eth_long, pf_two_open))
    by (vm_compute; reflexivity).
  exact (proj2 (proj2 (proj2
           (open_position_risk_cap pf_btc_up pf_two_open "ethusdt" 1002 2000
              (long_signal "ethusdt") 1990 0 "LONG" eth_long E)))).
Defined.

(** * The records a tick closes *)

Lemma partial_tp_records (s s3 : GlobalPortfolio) (pos pos3 : Position) (ts price : Q)
    (clp : list TradeRecord) :
  partial_tp s pos ts price = (clp, pos3, s3) ->
  fee_taker s3 = fee_taker s /\
  balance s3 == balance s + sum_pnl clp /\
  Forall (closed_at (fee_taker s) ts price) clp.
Proof.
  unfold partial_tp.
  assert (Hnil : forall r, ([], pos, s) = r -> r = (clp, pos3, s3) ->
            fee_taker s3 = fee_taker s /\ balance s3 == balance s + sum_pnl clp /\
            Forall (closed_at (fee_taker s) ts price) clp).
  { intros r <- E. injection E as <- <- <-. simpl.
    split; [reflexivity |]. split; [ring | constructor]. }
  destruct (negb (partial_taken pos)); [| apply (Hnil _ eq_refl)].
  assert (Hrec : forall ep,
            (side pos = "LONG"%string /\
             ep = entry_price pos * (1 + PARTIAL_TP_TRIGGER_PCT) /\ ep <= price) \/
            (side pos = "SHORT"%string /\
             ep = entry_price pos * (1 - PARTIAL_TP_TRIGGER_PCT) /\ price <= ep) ->
            _close_partial s pos ts ep TP1_FAST = (clp, pos3, s3) ->
            fee_taker s3 = fee_taker s /\ balance s3 == balance s + sum_pnl clp /\
            Forall (closed_at (fee_taker s) ts price) clp).
  { intros ep Hep. unfold _close_partial.
    destruct (Qle_bool (qty pos * PARTIAL_TP_FRACTION) 0);
      [apply (Hnil _ eq_refl) |].
    intros E. injection E as <- <- <-.
    cbn [fee_taker balance set_balance set_trades_today set_trade_history].
    split; [reflexivity |]. split; [unfold sum_pnl; cbn [foldr tr_realized_pnl close_record]; ring |].
    constructor; [| constructor].
    unfold closed_at, settled, priced, close_record, is_long.
    cbn [tr_exit_ts tr_fees_paid tr_exit_price tr_qty tr_realized_pnl tr_side
         tr_entry_price tr_reason tr_sl_price tr_tp_price fst].
    split; [reflexivity |]. split; [split; reflexivity | exact Hep]. }
  destruct (String.eqb (side pos) "LONG"
            && Qle_bool (entry_price pos * (1 + PARTIAL_TP_TRIGGER_PCT)) price)%bool
    eqn:E1.
  - apply andb_true_iff in E1 as [El Ep]. apply String.eqb_eq in El.
    apply Qle_bool_iff in Ep. apply Hrec. left. auto.
  - destruct (String.eqb (side pos) "SHORT"
              && Qle_bool price (entry_price pos * (1 - PARTIAL_TP_TRIGGER_PCT)))%bool
      eqn:E2; [| apply (Hnil _ eq_refl)].
    apply andb_true_iff in E2 as [Es Ep]. apply String.eqb_eq in Es.
    apply Qle_bool_iff in Ep. apply Hrec. right. auto.
Qed.

Lemma sl_tp_exit_at (pos : Position) (price ep : Q) (lbl : ExitLabel) :
  sl_tp_exit pos price = Some (ep, lbl) -> exit_at pos price (ep, lbl).
Proof.
  unfold sl_tp_exit, exit_at. cbn [fst snd].
  destruct (is_long pos).
  - destruct (Qle_bool price (sl_price pos)) eqn:E1.
    + intros H. injection H as <- <-. qprop. auto.
    + destruct (partial_taken pos && Qle_bool (tp_price pos) price)%bool eqn:E2;
        [| discriminate].
      intros H. injection H as <- <-. qprop. auto.
  - destruct (Qle_bool (sl_price pos) price) eqn:E1.
    + intros H. injection H as <- <-. qprop. auto.
    + destruct (partial_taken pos && Qle_bool price (tp_price pos))%bool eqn:E2;
        [| discriminate].
      intros H. injection H as <- <-. qprop. auto.
Qed.

Lemma later_exits_exit_at (pos pos' : Position) (ts price ep : Q)
    (imbalance vol_norm : option Q) (lbl : ExitLabel) :
  later_exits pos (sl_tp_exit pos price) ts price imbalance vol_norm
  = Ok (pos', Some (ep, lbl)) ->
  exit_at pos price (ep, lbl).
Proof.
  unfold later_exits. intros H.
  destruct (sl_tp_exit pos price) as [[ep0 l0] |] eqn:Es.
  - simpl in H. injection H as _ <- <-. apply sl_tp_exit_at. exact Es.
  - pose proof (_check_invalid_imb_close_frame pos imbalance ts) as Hinv.
    destruct (_check_invalid_imb_close pos imbalance ts) as [p1 reason].
    destruct Hinv as (_ & Hr).
    destruct reason as [r |].
    + simpl in H. injection H as _ <- <-.
      destruct Hr as [Hr | (sd & imb & age & n & Hr)]; [discriminate |].
      injection Hr as ->. reflexivity.
    + rewrite _check_no_progress_off in H. simpl in H.
      destruct (Qle_bool _ _); [| discriminate].
      injection H as _ <- <-. reflexivity.
Qed.

Lemma _close_full_record (s : GlobalPortfolio) (pos : Position) (ts price ep : Q)
    (lbl : ExitLabel) :
  0 < qty pos -> exit_at pos price (ep, lbl) ->
  exists tr s', _close_full s pos ts ep lbl = ([tr], s') /\
    fee_taker s' = fee_taker s /\
    balance s' = balance s + tr_realized_pnl tr /\
    closed_at (fee_taker s) ts price tr.
Proof.
  intros Hq He. unfold _close_full.
  assert (E : Qle_bool (qty pos) 0 = false) by (apply Qle_bool_false; exact Hq).
  rewrite E. eexists. eexists. split; [reflexivity |].
  cbn [fee_taker balance set_balance set_trades_today set_trade_history
       set_last_exit_ts set_trades_last_hour set_positions].
  split; [reflexivity |]. split; [reflexivity |].
  unfold closed_at, settled, priced, close_record, exit_at, is_long in *.
  cbn [tr_exit_ts tr_fees_paid tr_exit_price tr_qty tr_realized_pnl tr_side
       tr_entry_price tr_reason tr_sl_price tr_tp_price fst snd] in *.
  split; [reflexivity |]. split; [split; reflexivity |].
  destruct lbl; try contradiction; exact He.
Qed.

Lemma sum_pnl_app (a b : list TradeRecord) :
  sum_pnl (a ++ b) == sum_pnl a + sum_pnl b.
Proof.
  induction a as [| x a IH]; simpl; [ring | rewrite IH; ring].
Qed.

Lemma sum_pnl_one (tr : TradeRecord) : sum_pnl [tr] == tr_realized_pnl tr.
Proof.
  unfold sum_pnl. cbn [foldr]. ring.
Qed.

Lemma manage_position_records (s s' : GlobalPortfolio) (k : string) (pos : Position)
    (ts price : Q) (imbalance vol_norm : option Q) (closed : list TradeRecord) :
  manage_position s k pos ts price imbalance vol_norm = Ok (closed, s') ->
  fee_taker s' = fee_taker s /\
  balance s' == balance s + sum_pnl closed /\
  Forall (closed_at (fee_taker s) ts price) closed.
Proof.
  unfold manage_position. intros H.
  apply bind_Ok in H as (p1 & _ & H).
  set (p2 := _update_adverse_ticks p1 price) in *. clearbody p2.
  destruct (partial_tp s p2 ts price) as [[clp p3] s3] eqn:Ep.
  apply partial_tp_records in Ep as (Hf3 & Hb3 & Hr3).
  apply bind_Ok in H as ([p4 exit] & H4 & H).
  assert (Hkeep : Ok (clp, set_positions s3 (<[k := p4]> (positions s3)))
                  = Ok (closed, s') ->
                  fee_taker s' = fee_taker s /\
                  balance s' == balance s + sum_pnl closed /\
                  Forall (closed_at (fee_taker s) ts price) closed).
  { intros E. injection E as <- <-. cbn [fee_taker balance set_positions]. auto. }
  destruct exit as [[ep lbl] |]; [| apply Hkeep; exact H].
  destruct (Qlt_bool 0 (qty p4)) eqn:Eq; [| apply Hkeep; exact H]. qprop.
  pose proof H4 as Hh.
  apply later_exits_frame in Hh as ((Hs4 & Hq4 & _ & _ & Hsl4) & _);
    [| apply sl_tp_exit_is_sl_tp].
  apply later_exits_exit_at in H4.
  assert (He4 : exit_at p4 price (ep, lbl)).
  { unfold exit_at in *. rewrite (same_trade_is_long _ _ Hs4), Hsl4.
    destruct Hs4 as (_ & _ & _ & _ & -> & _). exact H4. }
  destruct (_close_full_record (set_positions s3 (<[k := p4]> (positions s3)))
              p4 ts price ep lbl Eq He4) as (tr & s5 & Hcf & Hf5 & Hb5 & Hc5).
  rewrite Hcf in H. injection H as <- <-.
  cbn [fee_taker balance set_positions] in *.
  split; [congruence |]. split.
  - rewrite Hb5, Hb3, sum_pnl_app, sum_pnl_one. ring.
  - apply Forall_app. split; [exact Hr3 |].
    constructor; [| constructor]. rewrite <- Hf3. exact Hc5.
Qed.

Lemma on_price_tick_inv (s s' : GlobalPortfolio) (k : string) (ts price : Q)
    (vol imbalance vol_norm : option Q) (closed : list TradeRecord) :
  on_price_tick s k ts price vol imbalance vol_norm = Ok (closed, s') ->
  exists s1, s' = _recompute_equity s1 {[k := price]} /\
    match positions s !! k with
    | Some pos =>
        manage_position (_reset_if_new_day s ts) k pos ts price imbalance vol_norm
        = Ok (closed, s1)
    | None => closed = [] /\ s1 = _reset_if_new_day s ts
    end.
Proof.
  unfold on_price_tick. intros H.
  apply bind_Ok in H as ([cl s1] & H1 & H). injection H as <- <-.
  exists s1. split; [reflexivity |].
  rewrite _reset_if_new_day_positions in H1.
  destruct (positions s !! k); [exact H1 |].
  injection H1 as <- <-. auto.
Qed.

Lemma _reset_if_new_day_cash (s : GlobalPortfolio) (ts : Q) :
  balance (_reset_if_new_day s ts) = balance s /\
  fee_taker (_reset_if_new_day s ts) = fee_taker s /\
  trade_history (_reset_if_new_day s ts) = trade_history s.
Proof.
  unfold _reset_if_new_day. destruct (new_day s ts); auto.
Qed.

(** X20: a tick moves the balance by exactly the realized results of the
    records it returns (by nothing when it returns none), and every such
    record is settled the same way: its fee is the taker fee on its exit
    notional (the entry fee was paid at the open), its realized result the
    price difference on the closed quantity, in the direction of its side,
    less that fee. *)
Theorem on_price_tick_settles (s s' : GlobalPortfolio) (k : string) (ts price : Q)
    (vol imbalance vol_norm : option Q) (closed : list TradeRecord) :
  on_price_tick s k ts price vol imbalance vol_norm = Ok (closed, s') ->
  balance s' == balance s + sum_pnl closed /\
  fee_taker s' = fee_taker s /\
  Forall (settled (fee_taker s)) closed.
Proof.
  intros H. apply on_price_tick_inv in H as (s1 & -> & H).
  destruct (_reset_if_new_day_cash s ts) as (Hb & Hf & _).
  cbn [balance fee_taker _recompute_equity set_equity].
  destruct (positions s !! k) as [pos |].
  - apply manage_position_records in H as (Hf1 & Hb1 & Hr).
    rewrite Hb, Hf in *. split; [exact Hb1 |]. split; [exact Hf1 |].
    eapply Forall_impl; [exact Hr |]. intros tr (_ & Hs & _). exact Hs.
  - destruct H as [-> ->]. rewrite Hb, Hf. split; [simpl; ring |].
    split; [reflexivity | constructor].
Qed.

(** X21: every record a tick returns is stamped with the tick's time and
    priced by its label: a fast partial take-profit at 0.25% from the entry
    (the trigger, not the tick price), a stop at the stop price and a
    take-profit at the target price carried by the record, an invalidation
    or a time stop at the tick price; no record is labelled NO_PROGRESS. *)
Theorem on_price_tick_prices (s s' : GlobalPortfolio) (k : string) (ts price : Q)
    (vol imbalance vol_norm : option Q) (closed : list TradeRecord) :
  on_price_tick s k ts price vol imbalance vol_norm = Ok (closed, s') ->
  Forall (fun tr => tr_exit_ts tr = ts /\ priced price tr /\
                    fst (tr_reason tr) <> NO_PROGRESS) closed.
Proof.
  intros H. apply on_price_tick_inv in H as (s1 & -> & H).
  destruct (positions s !! k) as [pos |]; [| destruct H as [-> _]; constructor].
  apply manage_position_records in H as (_ & _ & Hr).
  eapply Forall_impl; [exact Hr |]. intros tr (Ht & _ & Hp).
  split; [exact Ht |]. split; [exact Hp |].
  unfold priced in Hp. destruct (fst (tr_reason tr)); try discriminate.
  contradiction.
Qed.

Lemma on_price_tick_settles_witness :
  balance (state_of btc_time_stop)
  == balance pf_btc_open + sum_pnl (closed_of btc_time_stop) /\
  Forall (settled (fee_taker pf_btc_open)) (closed_of btc_time_stop).
Proof.
  assert (E : on_price_tick pf_btc_open "btcusdt" 1600 100 None (Some 0) None
              = Ok (closed_of btc_time_stop, state_of btc_time_stop))
    by (vm_compute; reflexivity).
  pose proof (on_price_tick_settles pf_btc_open (state_of btc_time_stop) "btcusdt"
                1600 100 None (Some 0) None (closed_of btc_time_stop) E)
    as (H1 & _ & H2).
  split; [exact H1 | exact H2].
Defined.

Lemma on_price_tick_prices_witness :
  Forall (fun tr => tr_exit_ts tr = 1005 /\ priced 2006 tr /\
                    fst (tr_reason tr) <> NO_PROGRESS) (closed_of eth_2006).
Proof.
  assert (E : on_price_tick pf_eth_tick "ethusdt" 1005 2006 None (Some 0) None
              = Ok (closed_of eth_2006, state_of eth_2006))
    by (vm_compute; reflexivity).
  exact (on_price_tick_prices pf_eth_tick (state_of eth_2006) "ethusdt"
           1005 2006 None (Some 0) None (closed_of eth_2006) E).
Defined.

(** * Ticks and opens in sequence *)

Lemma _recompute_equity_frame (s : GlobalPortfolio) (prices : gmap string Q) :
  last_exit_ts (_recompute_equity s prices) = last_exit_ts s /\
  trade_history (_recompute_equity s prices) = trade_history s /\
  balance (_recompute_equity s prices) = balance s.
Proof.
  unfold _recompute_equity. auto.
Qed.

(** X22: when a tick closes the position of its symbol, the close time is
    the symbol's cooldown mark, and every attempt to open that symbol less
    than COOLDOWN_AFTER_TRADE_SEC later is rejected and leaves the
    portfolio as it is. *)
Theorem closed_then_cooldown (s s1 : GlobalPortfolio) (k : string) (ts price : Q)
    (vol imbalance vol_norm : option Q) (closed : list TradeRecord) (pos : Position)
    (ts' price' : Q) (signal : Signal) (recent_extreme_price entry_imb : Q)
    (side0 : string) :
  on_price_tick s k ts price vol imbalance vol_norm = Ok (closed, s1) ->
  positions s !! k = Some pos -> symbol pos = k -> positions s1 !! k = None ->
  ts' - ts < COOLDOWN_AFTER_TRADE_SEC ->
  last_exit_ts s1 !! k = Some ts /\
  open_position s1 k ts' price' signal recent_extreme_price entry_imb side0
  = Ok (None, s1).
Proof.
  intros H Hpos Hsym Hnone Hcd.
  assert (Hle : last_exit_ts s1 !! k = Some ts).
  { apply on_price_tick_spec in H as (s2 & -> & H). rewrite Hpos in H.
    rewrite _recompute_equity_positions in Hnone.
    destruct (_recompute_equity_frame s2 {[k := price]}) as (-> & _).
    destruct H as (q & clp & clf & _ & _ & _ & _ & Hf & _).
    destruct Hf as [(_ & Hps & _) | (tr & _ & _ & _ & _ & _ & _ & _ & _ & Hl & _)].
    - rewrite Hps, lookup_insert_eq in Hnone. discriminate.
    - rewrite Hl, Hsym. apply lookup_insert_eq. }
  split; [exact Hle |].
  unfold open_position. rewrite Hnone, Hle.
  change (default 0 (Some ts)) with ts.
  assert (E : Qlt_bool (ts' - ts) COOLDOWN_AFTER_TRADE_SEC = true)
    by (apply Qlt_bool_iff; exact Hcd).
  rewrite E. reflexivity.
Qed.

Lemma closed_then_cooldown_witness :
  open_position (state_of btc_time_stop) "btcusdt" 1602 100 (long_signal "btcusdt")
    100 0 "LONG"
  = Ok (None, state_of btc_time_stop).
Proof.
  assert (E : on_price_tick pf_btc_open "btcusdt" 1600 100 None (Some 0) None
              = Ok (closed_of btc_time_stop, state_of btc_time_stop))
    by (vm_compute; reflexivity).
  assert (Hp : positions pf_btc_open !! "btcusdt"%string = Some btc_long)
    by (vm_compute; reflexivity).
  assert (Hs : symbol btc_long = "btcusdt"%string) by (vm_compute; reflexivity).
  assert (Hn : positions (state_of btc_time_stop) !! "btcusdt"%string = None)
    by (vm_compute; reflexivity).
  assert (Hc : 1602 - 1600 < COOLDOWN_AFTER_TRADE_SEC) by reflexivity.
  exact (proj2 (closed_then_cooldown pf_btc_open (state_of btc_time_stop) "btcusdt"
                  1600 100 None (Some 0) None (closed_of btc_time_stop) btc_long
                  1602 100 (long_signal "btcusdt") 100 0 "LONG" E Hp Hs Hn Hc)).
Defined.

(** X23: a tick for a symbol without an open position returns no record
    and never raises; it rolls the day counters over when [ts] falls on a
    new day and sets the equity to the balance, whatever other positions
    are open, and changes nothing else. *)
Theorem on_price_tick_no_position (s : GlobalPortfolio) (k : string) (ts price : Q)
    (vol imbalance vol_norm : option Q) :
  positions s !! k = None ->
  on_price_tick s k ts price vol imbalance vol_norm
  = Ok ([], set_equity (_reset_if_new_day s ts) (balance s)).
Proof.
  intros H. unfold on_price_tick. rewrite _reset_if_new_day_positions, H.
  cbn [mbind result_bind]. unfold _recompute_equity.
  rewrite equity_fold_single, _reset_if_new_day_positions, H.
  destruct (_reset_if_new_day_cash s ts) as (-> & _). reflexivity.
Qed.

Lemma on_price_tick_no_position_witness :
  on_price_tick pf_btc_open "ethusdt" 1001 2000 None (Some 0) None
  = Ok ([], set_equity (_reset_if_new_day pf_btc_open 1001) (balance pf_btc_open)).
Proof.
  apply on_price_tick_no_position. vm_compute. reflexivity.
Defined.

Lemma step_history (s s' : GlobalPortfolio) (e : Event) (closed : list TradeRecord) :
  step s e = Ok (closed, s') -> trade_history s' = trade_history s ++ closed.
Proof.
  intros Hstep.
  destruct e as [k' ts price vol imb vn | k' ts price sg rex ei sd]; simpl in Hstep.
  - apply on_price_tick_spec in Hstep as (s1 & -> & H).
    destruct (_recompute_equity_frame s1 {[k' := price]}) as (_ & -> & _).
    destruct (_reset_if_new_day_cash s ts) as (_ & _ & Hh).
    destruct (positions s !! k') as [pos |].
    + destruct H as (q & clp & clf & _ & _ & _ & _ & _ & _ & _ & _ & Hth).
      rewrite Hth, Hh. reflexivity.
    + destruct H as (-> & ->). rewrite Hh, app_nil_r. reflexivity.
  - apply bind_Ok in Hstep as ([r s1] & Ho & Hs). injection Hs as <- <-.
    rewrite app_nil_r.
    apply open_position_spec in Ho
      as [(_ & [-> | [-> | ->]]) | (q & _ & _ & _ & _ & _ & _ & _ & _ & _ & _ & _ & _ & ->)];
      try reflexivity; apply (day_checked_frame s k' ts).
Qed.

(** X24: the trade history is append-only: along any run of ticks and open
    attempts it grows by exactly the records the ticks return, in the order
    they are returned; an open attempt never touches it. *)
Theorem run_history (es : list Event) (s s' : GlobalPortfolio)
    (recs : list TradeRecord) :
  run_records s es = Some (recs, s') ->
  run s es = Some s' /\ trade_history s' = trade_history s ++ recs.
Proof.
  revert s recs. induction es as [| e es IH]; intros s recs H; simpl in H |- *.
  - injection H as <- <-. rewrite app_nil_r. auto.
  - destruct (step s e) as [[closed s1] | exc] eqn:Hstep; [| discriminate].
    destruct (run_records s1 es) as [[recs1 s2] |] eqn:Hr; [| discriminate].
    injection H as <- <-. destruct (IH _ _ Hr) as [Hrun Hh].
    split; [exact Hrun |].
    rewrite Hh, (step_history _ _ _ _ Hstep), app_assoc. reflexivity.
Qed.

Lemma run_history_witness :
  trade_history (life_state (run_records GlobalPortfolio_init (losing_round 1000)))
  = trade_history GlobalPortfolio_init
    ++ life_records (run_records GlobalPortfolio_init (losing_round 1000)).
Proof.
  assert (E : run_records GlobalPortfolio_init (losing_round 1000)
              = Some (life_records (run_records GlobalPortfolio_init (losing_round 1000)),
                      life_state (run_records GlobalPortfolio_init (losing_round 1000))))
    by (vm_compute; reflexivity).
  exact (proj2 (run_history (losing_round 1000) GlobalPortfolio_init _ _ E)).
Defined.

Lemma step_tracked (s s' : GlobalPortfolio) (e : Event) (closed : list TradeRecord) :
  tracked s -> step s e = Ok (closed, s') -> tracked s'.
Proof.
  intros Ht Hstep.
  destruct e as [k' ts price vol imb vn | k' ts price sg rex ei sd]; simpl in Hstep.
  - destruct (on_price_tick_returns s k' ts price vol imb vn Ht)
      as (cl & s2 & E & Ht2).
    rewrite E in Hstep. injection Hstep as _ <-. exact Ht2.
  - apply bind_Ok in Hstep as ([r s1] & Ho & Hs). injection Hs as _ <-.
    apply open_position_spec in Ho
      as [(_ & [-> | [-> | ->]]) |
          (q & _ & _ & _ & _ & _ & _ & _ & _ & _ & _ & Hmx & Hmn & ->)].
    + exact Ht.
    + exact Ht.
    + pose proof (day_checked_frame s k' ts) as (_ & _ & Hps & _).
      unfold tracked. rewrite Hps. exact Ht.
    + unfold tracked. cbn [positions set_positions].
      apply tracked_insert; [exact Ht |]. split; eauto.
Qed.

Lemma run_tracked (es : list Event) (s s' : GlobalPortfolio) :
  tracked s -> run s es = Some s' -> tracked s'.
Proof.
  revert s. induction es as [| e es IH]; intros s Ht H; simpl in H.
  - injection H as <-. exact Ht.
  - destruct (step s e) as [[closed s1] | exc] eqn:Hstep; [| discriminate].
    eapply IH; [| exact H]. eapply step_tracked; eassumption.
Qed.

(** X25: [on_price_tick] never raises on a portfolio reached from the
    initial one by ticks and open attempts: every position such a portfolio
    holds has its favourable extremes set, so [max] and [min] never meet
    [None]. *)
Theorem on_price_tick_total (es : list Event) (s : GlobalPortfolio) (k : string)
    (ts price : Q) (vol imbalance vol_norm : option Q) :
  run GlobalPortfolio_init es = Some s ->
  exists closed s', on_price_tick s k ts price vol imbalance vol_norm = Ok (closed, s').
Proof.
  intros H. pose proof (run_tracked es _ _ tracked_init H) as Ht.
  destruct (on_price_tick_returns s k ts price vol imbalance vol_norm Ht)
    as (closed & s' & E & _).
  eauto.
Qed.

Lemma on_price_tick_total_witness :
  exists closed s',
    on_price_tick (life_state (run_records GlobalPortfolio_init (losing_round 1000)))
      "btcusdt" 1002 100 None (Some 0) None
    = Ok (closed, s').
Proof.
  assert (E : run GlobalPortfolio_init (losing_round 1000)
              = Some (life_state (run_records GlobalPortfolio_init (losing_round 1000))))
    by (vm_compute; reflexivity).
  exact (on_price_tick_total (losing_round 1000) _ "btcusdt" 1002 100 None (Some 0)
           None E).
Defined.

(** * Sizing, the day roll-over and the checks of a tick *)

(** X26: sizing fails only one way: [_calc_qty_from_risk] raises
    ZeroDivisionError exactly when the stop distance is positive, the
    balance is negative and the notional of the risk quantity is zero (a
    zero entry price or a zero risk amount); with a non-negative balance it
    always returns, and with a zero stop distance it returns [None]. *)
Theorem _calc_qty_from_risk_raises (s : GlobalPortfolio)
    (entry_price sl_price risk_pct : Q) :
  let notional := entry_price * risk_qty s entry_price sl_price risk_pct in
  (forall exc,
     _calc_qty_from_risk s entry_price sl_price risk_pct = Raise exc <->
     exc = "ZeroDivisionError"%string /\
     0 < Qabs (entry_price - sl_price) /\ balance s < 0 /\ notional == 0) /\
  (0 <= balance s ->
   exists q, _calc_qty_from_risk s entry_price sl_price risk_pct = Ok q) /\
  (entry_price == sl_price ->
   _calc_qty_from_risk s entry_price sl_price risk_pct = Ok None).
Proof.
  cbv zeta. unfold _calc_qty_from_risk, py_div.
  set (n := entry_price * risk_qty s entry_price sl_price risk_pct).
  assert (En : n / LEVERAGE == n * (1 # 20)) by (unfold LEVERAGE; field).
  split; [| split].
  - intros exc.
    destruct (Qle_bool (Qabs (entry_price - sl_price)) 0) eqn:Ed; qprop.
    { split; [discriminate | intros (_ & H & _); lra]. }
    destruct (Qlt_bool (balance s) (n / LEVERAGE)) eqn:Em; qprop.
    + destruct (Qeq_bool n 0) eqn:Ez.
      * apply Qeq_bool_iff in Ez. cbn [mbind result_bind]. split.
        -- intros H. injection H as <-. rewrite En, Ez in Em.
           repeat split; try assumption. lra.
        -- intros (-> & _). reflexivity.
      * apply Qeq_bool_neq in Ez. cbn [mbind result_bind].
        split; [discriminate | intros (_ & _ & _ & H); contradiction].
    + split; [discriminate |]. intros (_ & _ & Hb & Hz).
      rewrite En, Hz in Em. lra.
  - intros Hb.
    destruct (Qle_bool (Qabs (entry_price - sl_price)) 0); [eauto |].
    destruct (Qlt_bool (balance s) (n / LEVERAGE)) eqn:Em; qprop; [| eauto].
    destruct (Qeq_bool n 0) eqn:Ez.
    + apply Qeq_bool_iff in Ez. rewrite En, Ez in Em. lra.
    + cbn [mbind result_bind]. eauto.
  - intros He.
    assert (E0 : Qle_bool (Qabs (entry_price - sl_price)) 0 = true).
    { apply Qle_bool_iff.
      assert (Ez : entry_price - sl_price == 0) by lra.
      rewrite Ez. apply Qle_refl. }
    rewrite E0. reflexivity.
Qed.

(** X27: the day counters are keyed by the day of the year alone.  After
    [_reset_if_new_day] the day key is that of [ts]; the call changes the
    portfolio only when the key differs from the stored one (or none is
    stored), and then restarts the day from the current balance with no
    trade counted; a later timestamp with the same day number, of whatever
    year, changes nothing. *)
Theorem _reset_if_new_day_same_day (s : GlobalPortfolio) (ts : Q) :
  _current_day (_reset_if_new_day s ts) = Some (tm_yday ts) /\
  (new_day s ts = true ->
   _start_of_day_balance (_reset_if_new_day s ts) = balance s /\
   _trades_today (_reset_if_new_day s ts) = 0%Z) /\
  (new_day s ts = false -> _reset_if_new_day s ts = s) /\
  (forall ts', tm_yday ts' = tm_yday ts ->
     _reset_if_new_day (_reset_if_new_day s ts) ts' = _reset_if_new_day s ts).
Proof.
  assert (Hc : _current_day (_reset_if_new_day s ts) = Some (tm_yday ts)).
  { unfold _reset_if_new_day, new_day.
    destruct (_current_day s) as [d |] eqn:Ed; [| reflexivity].
    destruct (tm_yday ts =? d)%Z eqn:E; [| reflexivity].
    apply Z.eqb_eq in E. cbn [negb]. congruence. }
  split; [exact Hc |]. split; [| split].
  - intros H. unfold _reset_if_new_day. rewrite H. auto.
  - intros H. unfold _reset_if_new_day. rewrite H. reflexivity.
  - intros ts' E. unfold _reset_if_new_day at 1. unfold new_day.
    rewrite Hc, E, Z.eqb_refl. reflexivity.
Qed.

Lemma _reset_if_new_day_same_day_witness :
  _reset_if_new_day (_reset_if_new_day GlobalPortfolio_init 0) (365 * 86400)
  = _reset_if_new_day GlobalPortfolio_init 0.
Proof.
  apply (proj2 (proj2 (proj2 (_reset_if_new_day_same_day GlobalPortfolio_init 0)))).
  vm_compute. reflexivity.
Defined.

(** X28: the invalidation check answers with a reason only for an
    imbalance sample at least INVALID_IMB_MIN_AGE_SEC into the trade and
    adverse beyond the threshold of 0.95, once that sample takes the count
    of consecutive such samples to INVALID_IMB_CONSEC_SAMPLES and the price
    is INVALID_IMB_MIN_ADVERSE_TICKS ticks against the entry; any missing,
    early or not adverse sample resets the count to 0. *)
Theorem _check_invalid_imb_close_spec (pos : Position) (imbalance : option Q)
    (now_ts : Q) :
  let pos' := fst (_check_invalid_imb_close pos imbalance now_ts) in
  let reason := snd (_check_invalid_imb_close pos imbalance now_ts) in
  let counted imb :=
    INVALID_IMB_MIN_AGE_SEC <= now_ts - entry_ts pos /\
    (if is_long pos then imb <= - INVALID_IMB_THRESHOLD
     else INVALID_IMB_THRESHOLD <= imb) in
  (forall imb, imbalance = Some imb -> counted imb ->
     invalid_imb_count pos' = (invalid_imb_count pos + 1)%Z) /\
  ((forall imb, imbalance = Some imb -> ~ counted imb) ->
   invalid_imb_count pos' = 0%Z /\ reason = None) /\
  (forall lbl, reason = Some lbl <->
     exists imb, imbalance = Some imb /\ counted imb /\
       (INVALID_IMB_CONSEC_SAMPLES <= invalid_imb_count pos + 1)%Z /\
       (INVALID_IMB_MIN_ADVERSE_TICKS <= adverse_ticks pos)%Z /\
       lbl = INVALID_IMB (side pos) imb (now_ts - entry_ts pos) (adverse_ticks pos)).
Proof.
  cbv zeta. unfold _check_invalid_imb_close.
  destruct imbalance as [imb |]; cbn [fst snd].
  2:{ split; [discriminate |]. split; [auto |].
      intros lbl. split; [discriminate | intros (i & E & _); discriminate]. }
  cbn [INVALID_IMB_ENABLE negb].
  destruct (Qlt_bool (now_ts - entry_ts pos) INVALID_IMB_MIN_AGE_SEC) eqn:Ea; qprop.
  { cbn [fst snd invalid_imb_count set_invalid_imb_count].
    split; [intros i _ [H _]; lra |]. split; [auto |].
    intros lbl. split; [discriminate | intros (i & _ & [H _] & _); lra]. }
  set (adverse := if is_long pos then Qle_bool imb (- INVALID_IMB_THRESHOLD)
                  else Qle_bool INVALID_IMB_THRESHOLD imb).
  assert (Hadv : adverse = true <->
                 (if is_long pos then imb <= - INVALID_IMB_THRESHOLD
                  else INVALID_IMB_THRESHOLD <= imb)).
  { unfold adverse. destruct (is_long pos); apply Qle_bool_iff. }
  destruct adverse eqn:Ead; cbn [negb].
  - assert (Hc : INVALID_IMB_MIN_AGE_SEC <= now_ts - entry_ts pos /\
                 (if is_long pos then imb <= - INVALID_IMB_THRESHOLD
                  else INVALID_IMB_THRESHOLD <= imb)).
    { split; [exact Ea | apply Hadv; reflexivity]. }
    cbn [invalid_imb_count set_invalid_imb_count adverse_ticks side entry_ts].
    destruct (invalid_imb_count pos + 1 <? INVALID_IMB_CONSEC_SAMPLES)%Z eqn:En;
      [| destruct (adverse_ticks pos <? INVALID_IMB_MIN_ADVERSE_TICKS)%Z eqn:Et];
      cbn [fst snd invalid_imb_count set_invalid_imb_count];
      (split; [reflexivity |]);
      (split; [intros H; exfalso; exact (H imb eq_refl Hc) |]);
      intros lbl; split;
      try discriminate;
      try (intros (i & Ei & _ & H1 & H2 & _);
           first [apply Z.ltb_lt in En | apply Z.ltb_lt in Et]; lia).
    + intros H. injection H as <-. exists imb.
      apply Z.ltb_ge in En, Et. repeat split; try assumption; apply Hc.
    + intros (i & Ei & _ & _ & _ & ->). injection Ei as <-. reflexivity.
  - cbn [fst snd invalid_imb_count set_invalid_imb_count].
    assert (Hn : ~ (if is_long pos then imb <= - INVALID_IMB_THRESHOLD
                    else INVALID_IMB_THRESHOLD <= imb)).
    { intros H. apply Hadv in H. discriminate. }
    split; [intros i E [_ H]; injection E as <-; contradiction |].
    split; [auto |].
    intros lbl. split; [discriminate |].
    intros (i & E & [_ H] & _). injection E as <-. contradiction.
Qed.

Lemma py_int_floor (q : Q) :
  0 <= q -> (0 <= py_int q)%Z /\ inject_Z (py_int q) <= q /\ q < inject_Z (py_int q) + 1.
Proof.
  intros Hq. unfold py_int. destruct q as [qn qd]. cbn [Qnum Qden].
  assert (Hn : (0 <= qn)%Z).
  { unfold Qle in Hq. simpl in Hq. lia. }
  rewrite Z.quot_div_nonneg by lia.
  change (qn / Z.pos qd)%Z with (Qfloor (qn # qd)).
  split; [apply Z.div_pos; lia |].
  split; [apply Qfloor_le |].
  pose proof (Qlt_floor (qn # qd)) as H. rewrite inject_Z_plus in H. exact H.
Qed.

(** X29: the adverse-tick count is never negative; it is 0 for a symbol
    without a tick size and whenever the price is not against the entry;
    otherwise it is the number of whole ticks in the adverse move. *)
Theorem _update_adverse_ticks_spec (pos : Position) (price : Q) :
  let n := adverse_ticks (_update_adverse_ticks pos price) in
  (0 <= n)%Z /\
  (TICK_SIZE !! symbol pos = None -> n = 0%Z) /\
  (forall tick, TICK_SIZE !! symbol pos = Some tick ->
     0 < tick /\
     inject_Z n * tick <= adverse_move pos price /\
     adverse_move pos price < (inject_Z n + 1) * tick /\
     ((if is_long pos then entry_price pos <= price else price <= entry_price pos) ->
      n = 0%Z)).
Proof.
  cbv zeta. unfold _update_adverse_ticks. cbv zeta. fold (adverse_move pos price).
  assert (Hm : 0 <= adverse_move pos price).
  { unfold adverse_move. destruct (is_long pos); apply Q.le_max_l. }
  destruct (TICK_SIZE !! symbol pos) as [tick |] eqn:Et.
  - assert (Htick : 0 < tick).
    { unfold TICK_SIZE in Et.
      destruct (decide (symbol pos = "btcusdt"%string)) as [Es | N1];
        [rewrite Es, lookup_insert_eq in Et; injection Et as <-; reflexivity |].
      rewrite lookup_insert_ne in Et by congruence.
      destruct (decide (symbol pos = "ethusdt"%string)) as [Es | N2];
        [rewrite Es, lookup_insert_eq in Et; injection Et as <-; reflexivity |].
      rewrite lookup_insert_ne in Et by congruence.
      destruct (decide (symbol pos = "solusdt"%string)) as [Es | N3];
        [rewrite Es, lookup_insert_eq in Et; injection Et as <-; reflexivity |].
      rewrite lookup_insert_ne in Et by congruence.
      rewrite lookup_empty in Et. discriminate. }
    assert (E0 : Qle_bool tick 0 = false) by (apply Qle_bool_false; exact Htick).
    change (default 0 (Some tick)) with tick. rewrite E0.
    cbn [adverse_ticks set_adverse_ticks].
    assert (Hq : 0 <= adverse_move pos price / tick).
    { apply Qle_shift_div_l; [exact Htick | lra]. }
    destruct (py_int_floor _ Hq) as (H0 & H1 & H2).
    split; [exact H0 |]. split; [discriminate |].
    intros t E. injection E as <-. split; [exact Htick |].
    split; [| split].
    + apply (Qmult_le_r _ _ tick Htick) in H1.
      assert (E : adverse_move pos price / tick * tick == adverse_move pos price)
        by (field; lra).
      rewrite E in H1. exact H1.
    + apply (Qmult_lt_r _ _ tick Htick) in H2.
      assert (E : adverse_move pos price / tick * tick == adverse_move pos price)
        by (field; lra).
      rewrite E in H2. exact H2.
    + intros Hfav.
      assert (Ez : adverse_move pos price == 0).
      { unfold adverse_move in *. destruct (is_long pos); apply Q.max_l; lra. }
      assert (Ezq : adverse_move pos price / tick == 0).
      { rewrite Ez. field. lra. }
      set (q := adverse_move pos price / tick) in *.
      assert (Hle : inject_Z (py_int q) <= inject_Z 0).
      { change (inject_Z 0) with 0. lra. }
      rewrite <- Zle_Qle in Hle. lia.
  - change (default 0 None) with 0. change (Qle_bool 0 0) with true. cbv iota.
    cbn [adverse_ticks set_adverse_ticks].
    split; [lia |]. split; [reflexivity | discriminate].
Qed.

(** X30: [_update_trade_management] sets the breakeven flag exactly when it
    was set already or the favourable move reaches BREAKEVEN_TRIGGER_PCT of
    the entry price; without the flag the stop is left alone; with it the
    stop is within TRAILING_STOP_PCT of the tick price or better, and a stop
    moved by a fresh breakeven sits at the entry price or beyond it on the
    winning side. *)
Theorem _update_trade_management_breakeven (pos pos' : Position) (price : Q) :
  _update_trade_management pos price = Ok pos' ->
  let move := if is_long pos then price - entry_price pos
              else entry_price pos - price in
  (breakeven_done pos' = true <->
   breakeven_done pos = true \/ entry_price pos * BREAKEVEN_TRIGGER_PCT <= move) /\
  (breakeven_done pos' = false -> sl_price pos' = sl_price pos) /\
  (breakeven_done pos' = true ->
   if is_long pos then price * (1 - TRAILING_STOP_PCT) <= sl_price pos'
   else sl_price pos' <= price * (1 + TRAILING_STOP_PCT)) /\
  (breakeven_done pos = false -> breakeven_done pos' = true ->
   if is_long pos then entry_price pos <= sl_price pos'
   else sl_price pos' <= entry_price pos).
Proof.
  unfold _update_trade_management. intros H.
  apply bind_Ok in H as (p1 & H1 & H). injection H as <-.
  assert (Hp1 : is_long p1 = is_long pos /\ entry_price p1 = entry_price pos /\
                sl_price p1 = sl_price pos /\ breakeven_done p1 = breakeven_done pos).
  { destruct (is_long pos) eqn:El0;
      apply bind_Ok in H1 as (m & _ & H1); injection H1 as <-;
      (split; [exact El0 | repeat split]). }
  destruct Hp1 as (Hl & He & Hs & Hb). clear H1.
  cbv zeta. set (move := if is_long pos then _ else _).
  unfold breakeven. rewrite Hb, He.
  destruct (breakeven_done pos) eqn:Ebd; cbn [negb].
  - unfold trailing. rewrite Hb, Hl, Hs.
    destruct (is_long pos).
    + destruct (Qlt_bool (sl_price pos) (price * (1 - TRAILING_STOP_PCT))) eqn:Et;
        qprop; cbn [breakeven_done sl_price set_sl_price]; rewrite ?Hb, ?Hs;
        (split; [split; auto |]); (split; [discriminate |]);
        (split; [intros _; lra | discriminate]).
    + destruct (Qlt_bool (price * (1 + TRAILING_STOP_PCT)) (sl_price pos)) eqn:Et;
        qprop; cbn [breakeven_done sl_price set_sl_price]; rewrite ?Hb, ?Hs;
        (split; [split; auto |]); (split; [discriminate |]);
        (split; [intros _; lra | discriminate]).
  - destruct (Qle_bool (entry_price pos * BREAKEVEN_TRIGGER_PCT) move) eqn:Em; qprop.
    + unfold trailing.
      cbn [breakeven_done set_breakeven_done set_sl_price sl_price].
      replace (is_long (set_breakeven_done (set_sl_price p1 (entry_price pos)) true))
        with (is_long pos) by (rewrite <- Hl; reflexivity).
      destruct (is_long pos).
      * destruct (Qlt_bool (entry_price pos) (price * (1 - TRAILING_STOP_PCT))) eqn:Et;
          qprop; cbn [breakeven_done sl_price set_sl_price set_breakeven_done];
          (split; [split; auto |]); (split; [discriminate |]);
          (split; intros; lra).
      * destruct (Qlt_bool (price * (1 + TRAILING_STOP_PCT)) (entry_price pos)) eqn:Et;
          qprop; cbn [breakeven_done sl_price set_sl_price set_breakeven_done];
          (split; [split; auto |]); (split; [discriminate |]);
          (split; intros; lra).
    + unfold trailing. rewrite Hb.
      split; [rewrite Hb; split; [discriminate | intros [? | ?]; [discriminate | lra]] |].
      split; [intros _; exact Hs |].
      rewrite Hb. split; discriminate.
Qed.

Lemma _update_trade_management_breakeven_witness :
  breakeven_done (updated (_update_trade_management eth_long 2006)) = true /\
  (if is_long eth_long
   then entry_price eth_long <= sl_price (updated (_update_trade_management eth_long 2006))
   else sl_price (updated (_update_trade_management eth_long 2006)) <= entry_price eth_long).
Proof.
  assert (E : _update_trade_management eth_long 2006
              = Ok (updated (_update_trade_management eth_long 2006)))
    by (vm_compute; reflexivity).
  assert (Hb0 : breakeven_done eth_long = false) by (vm_compute; reflexivity).
  assert (Hb1 : breakeven_done (updated (_update_trade_management eth_long 2006)) = true)
    by (vm_compute; reflexivity).
  pose proof (_update_trade_management_breakeven eth_long _ 2006 E) as (_ & _ & _ & H4).
  split; [exact Hb1 | exact (H4 Hb0 Hb1)].
Defined.
